(** * UBX protocol parser: a shallow embedding of the stream decoder

    The repository holds two versions of the same [Transform] stream:
    - [src/index.js], the first version here, which resets after a
      failed checksum and goes on with the byte after the corrupt frame
      (module [Plain]);
    - a second version of the same file, which puts the bytes of the
      corrupt frame back in front of the unread input and scans them
      again (module [Backtrack]).

    Lines 1 to 51 (the state constants, [packetTemplate] and
    [calcCheckSum]) are the same in both and are embedded once.

    Numbers are [Z]; a [Buffer] is a list of bytes; the optional
    properties of the packet object are [option]s; code that can throw
    runs in the [Result] monad. *)

From Stdlib Require Import ZArith List Bool Lia Strings.Byte.
Import ListNotations.
Local Open Scope Z_scope.

(** ** Results of code that may throw *)

(** [TypeError] and [RangeError] are the exceptions of Node's [Buffer]
    functions.  [NaNValue] marks arithmetic on a property that is still
    [undefined]: JavaScript goes on with [NaN], which the integer model
    does not follow. *)
Inductive Fault : Type :=
| TypeError
| RangeError
| NaNValue.

Inductive Result (A : Type) : Type :=
| Ok (a : A)
| Fail (e : Fault).

Arguments Ok {A} a.
Arguments Fail {A} e.

Definition bind {A B : Type} (r : Result A) (k : A -> Result B) : Result B :=
  match r with
  | Ok a => k a
  | Fail e => Fail e
  end.

Notation "x <- c1 ;; c2" := (bind c1 (fun x => c2))
  (at level 61, c1 at next level, right associativity).

(** ** Buffers *)

Definition Buffer : Type := list byte.

(** [data[i]] read as a number. *)
Definition byteVal (b : byte) : Z := Z.of_N (Byte.to_N b).

(** Storing a number in a [Buffer] or [Uint8Array] keeps its low 8 bits. *)
Definition toUint8 (v : Z) : byte :=
  match Byte.of_N (Z.to_N (v mod 256)) with
  | Some b => b
  | None => x00
  end.

Definition len (buf : Buffer) : Z := Z.of_nat (List.length buf).

(** [buf.slice(from)] for [0 <= from]. *)
Definition slice (buf : Buffer) (from : Z) : Buffer := skipn (Z.to_nat from) buf.

(** [buf[i]] for an index inside the buffer. *)
Definition at_ (buf : Buffer) (i : Z) : Z := byteVal (nth (Z.to_nat i) buf x00).

(** [Buffer.alloc(size)]: zero filled; a negative size is a [RangeError]. *)
Definition alloc (size : Z) : Result Buffer :=
  if size <? 0 then Fail RangeError else Ok (repeat x00 (Z.to_nat size)).

(** [buf[i] = v]: a write outside the buffer is ignored. *)
Fixpoint setNth (buf : Buffer) (n : nat) (b : byte) : Buffer :=
  match buf, n with
  | [], _ => []
  | _ :: t, O => b :: t
  | h :: t, S m => h :: setNth t m b
  end.

Definition bufSet (buf : Buffer) (i : Z) (v : Z) : Buffer :=
  if i <? 0 then buf else setNth buf (Z.to_nat i) (toUint8 v).

(** [buf.writeUInt8(v, _)] on a fresh buffer: the byte written. *)
Definition writeUInt8 (v : Z) : Result Buffer :=
  if (0 <=? v) && (v <=? 255) then Ok [toUint8 v] else Fail RangeError.

(** [buf.writeUInt16LE(v, _)]: low byte first. *)
Definition writeUInt16LE (v : Z) : Result Buffer :=
  if (0 <=? v) && (v <=? 65535) then Ok [toUint8 v; toUint8 (Z.shiftr v 8)]
  else Fail RangeError.

(** A [Buffer] argument that may be [null]: [Buffer.concat] and
    [.length] throw a [TypeError] on it. *)
Definition nonNull (payload : option Buffer) : Result Buffer :=
  match payload with
  | Some pl => Ok pl
  | None => Fail TypeError
  end.

(** A property read in arithmetic: [undefined] gives [NaN]. *)
Definition number (v : option Z) : Result Z :=
  match v with
  | Some n => Ok n
  | None => Fail NaNValue
  end.

(** ** Lines 10 to 51, common to both versions *)

(** [packetState] only ever holds one of the eight constants, so the
    [default] branch of the [switch] has no counterpart here. *)
Inductive PacketState : Type :=
| PACKET_SYNC_1
| PACKET_SYNC_2
| PACKET_CLASS
| PACKET_ID
| PACKET_LENGTH
| PACKET_LENGTH_2
| PACKET_PAYLOAD
| PACKET_CHECKSUM.

Definition DEFAULT_MAX_PACKET_PAYLOAD_LENGTH : Z := 300.

(** One turn of the loop of [calcCheckSum]:
    [[a] = new Uint8Array([a + buffer[i]]); [b] = new Uint8Array([b + a])]. *)
Definition checkSumStep (ab : Z * Z) (v : byte) : Z * Z :=
  let a := byteVal (toUint8 (fst ab + byteVal v)) in
  let b := byteVal (toUint8 (snd ab + a)) in
  (a, b).

Definition calcCheckSum (messageClass id length : Z) (payload : option Buffer)
  : Result Z :=
  b0 <- writeUInt8 messageClass ;;
  b1 <- writeUInt8 id ;;
  b23 <- writeUInt16LE length ;;
  pl <- nonNull payload ;;
  let buffer := (b0 ++ b1 ++ b23) ++ pl in
  let ab := fold_left checkSumStep buffer (0, 0) in
  Ok (Z.lor (Z.shiftl (snd ab) 8) (fst ab)).

(** The table [packetClassIdToLength] is imported from [./ubx] and only
    read; the decoder is parametric in it.  [table c i = Some n] stands
    for [typeof packetClassIdToLength[`${c}_${i}`] === 'number'] with
    value [n]. *)
Definition LengthTable : Type := Z -> Z -> option Z.

(** The argument of the constructor, as far as the constructor looks at
    it: nothing that is an object, [null] (for which
    [typeof options === 'object'] holds as well, so that reading the
    property throws), or an object whose [maxPacketPayloadLength] is a
    number or something else.  What [Transform]'s own constructor does
    with the options is left out. *)
Inductive Options : Type :=
| NoOptions
| NullOptions
| OptionsObject (maxPacketPayloadLength : option Z).

Definition optionsMaxLength (options : Options) : Result Z :=
  match options with
  | NoOptions => Ok DEFAULT_MAX_PACKET_PAYLOAD_LENGTH
  | NullOptions => Fail TypeError
  | OptionsObject (Some n) => Ok n
  | OptionsObject None => Ok DEFAULT_MAX_PACKET_PAYLOAD_LENGTH
  end.

Definition isByte (v : Z) : Prop := 0 <= v < 256.

(** The verdict of the length check in the [PACKET_LENGTH] case: neither
    of its two rejecting branches is taken for the length [n] that the
    two length bytes announce. *)
Definition accepts (table : LengthTable) (maxLength c i n : Z) : bool :=
  negb (negb (maxLength =? 0) && (n >? maxLength))
  && ((n =? 0)
      || match table c i with
         | Some expected => n =? expected
         | None => true
         end).

(** What a loop that has run so far puts in front of the outputs of the
    rest of the run. *)
Definition prepend {P O : Type} (outs : list O)
  (r : option (Result (P * list O))) : option (Result (P * list O)) :=
  match r with
  | Some (Ok q) => Some (Ok (fst q, outs ++ snd q))
  | other => other
  end.

(** The checksum as the specification words it: for each byte [v] in
    order, [a = (a + v) mod 256], then [b = (b + a) mod 256]; the value
    is [(b << 8) | a]. *)
Fixpoint runningSums (bytes : list Z) (a b : Z) : Z * Z :=
  match bytes with
  | [] => (a, b)
  | v :: rest =>
      let a' := (a + v) mod 256 in
      let b' := (b + a') mod 256 in
      runningSums rest a' b'
  end.

Definition fletcherChecksum (bytes : list Z) : Z :=
  let ab := runningSums bytes 0 0 in
  Z.lor (Z.shiftl (snd ab) 8) (fst ab).

(** The bytes [class, id, lengthLow, lengthHigh, payload...] as numbers. *)
Definition frameBody (messageClass id length : Z) (payload : Buffer) : list Z :=
  [messageClass; id; length mod 256; length / 256] ++ map byteVal payload.

(** What [_transform] hands to the outside, in the order of the calls:
    [this.push(...)] on the data side and the four [this.emit(...)]
    events, each with the packet object as it is at that moment (the
    decoder replaces the object on [resetState] and never writes to it
    again). *)
Inductive Output (Packet : Type) : Type :=
| Push (messageClass messageId : Z) (payload : option Buffer)
| PayloadTooLarge (packet : Packet) (maxPacketPayloadLength : Z)
| WrongPayloadLength (packet : Packet) (expectedPayloadLength : Z)
| PollingMessage (packet : Packet)
| FailedChecksum (packet : Packet) (checksum : Z).

Arguments Push {Packet} messageClass messageId payload.
Arguments PayloadTooLarge {Packet} packet maxPacketPayloadLength.
Arguments WrongPayloadLength {Packet} packet expectedPayloadLength.
Arguments PollingMessage {Packet} packet.
Arguments FailedChecksum {Packet} packet checksum.

(** ** [src/index.js]: reset after a failed checksum *)

Module Plain.

Record Packet : Type := mkPacket {
  packetClass : Z;
  packetId : Z;
  packetLength : Z;
  packetPayload : option Buffer;
  packetChecksum : Z
}.

Definition packetTemplate : Packet :=
  {| packetClass := 0; packetId := 0; packetLength := 0;
     packetPayload := None; packetChecksum := 0 |}.

Record Parser : Type := mkParser {
  packet : Packet;
  payloadPosition : Z;
  packetStartFound : bool;
  packetState : PacketState;
  streamIndex : Z;
  maxPacketPayloadLength : Z
}.

Definition setPacket (k : Packet) (this : Parser) : Parser :=
  {| packet := k; payloadPosition := payloadPosition this;
     packetStartFound := packetStartFound this;
     packetState := packetState this; streamIndex := streamIndex this;
     maxPacketPayloadLength := maxPacketPayloadLength this |}.

Definition setPayloadPosition (n : Z) (this : Parser) : Parser :=
  {| packet := packet this; payloadPosition := n;
     packetStartFound := packetStartFound this;
     packetState := packetState this; streamIndex := streamIndex this;
     maxPacketPayloadLength := maxPacketPayloadLength this |}.

Definition setPacketStartFound (b : bool) (this : Parser) : Parser :=
  {| packet := packet this; payloadPosition := payloadPosition this;
     packetStartFound := b;
     packetState := packetState this; streamIndex := streamIndex this;
     maxPacketPayloadLength := maxPacketPayloadLength this |}.

Definition setPacketState (s : PacketState) (this : Parser) : Parser :=
  {| packet := packet this; payloadPosition := payloadPosition this;
     packetStartFound := packetStartFound this;
     packetState := s; streamIndex := streamIndex this;
     maxPacketPayloadLength := maxPacketPayloadLength this |}.

Definition setStreamIndex (n : Z) (this : Parser) : Parser :=
  {| packet := packet this; payloadPosition := payloadPosition this;
     packetStartFound := packetStartFound this;
     packetState := packetState this; streamIndex := n;
     maxPacketPayloadLength := maxPacketPayloadLength this |}.

Definition setClass (v : Z) (k : Packet) : Packet :=
  {| packetClass := v; packetId := packetId k;
     packetLength := packetLength k; packetPayload := packetPayload k;
     packetChecksum := packetChecksum k |}.

Definition setId (v : Z) (k : Packet) : Packet :=
  {| packetClass := packetClass k; packetId := v;
     packetLength := packetLength k; packetPayload := packetPayload k;
     packetChecksum := packetChecksum k |}.

Definition setLength (v : Z) (k : Packet) : Packet :=
  {| packetClass := packetClass k; packetId := packetId k;
     packetLength := v; packetPayload := packetPayload k;
     packetChecksum := packetChecksum k |}.

Definition setPayload (v : option Buffer) (k : Packet) : Packet :=
  {| packetClass := packetClass k; packetId := packetId k;
     packetLength := packetLength k; packetPayload := v;
     packetChecksum := packetChecksum k |}.

Definition setChecksum (v : Z) (k : Packet) : Packet :=
  {| packetClass := packetClass k; packetId := packetId k;
     packetLength := packetLength k; packetPayload := packetPayload k;
     packetChecksum := v |}.

(** [constructor(options)] *)
Definition constructor (options : Options) : Result Parser :=
  m <- optionsMaxLength options ;;
  Ok {| packet := packetTemplate; payloadPosition := 0;
        packetStartFound := false; packetState := PACKET_SYNC_1;
        streamIndex := 0; maxPacketPayloadLength := m |}.

(** [resetState()] *)
Definition resetState (this : Parser) : Parser :=
  setPacketStartFound false
    (setPayloadPosition 0
       (setPacket packetTemplate (setPacketState PACKET_SYNC_1 this))).

(** [_flush(cb)] *)
Definition _flush (this : Parser) : Parser := resetState this.

Section Transform.

Variable table : LengthTable.

(** The body of the [for] loop up to the last statement, for one
    [byte] of the chunk. *)
Definition onByte (this : Parser) (byte : Z)
  : Result (Parser * list (Output Packet)) :=
  if packetStartFound this then
    match packetState this with
    | PACKET_SYNC_1 =>
        if byte =? 0x62 then Ok (setPacketState PACKET_SYNC_2 this, [])
        else if byte =? 0xB5 then Ok (this, [])
        else Ok (resetState this, [])
    | PACKET_SYNC_2 =>
        Ok (setPacketState PACKET_CLASS
              (setPacket (setClass byte (packet this)) this), [])
    | PACKET_CLASS =>
        Ok (setPacketState PACKET_ID
              (setPacket (setId byte (packet this)) this), [])
    | PACKET_ID =>
        Ok (setPacketState PACKET_LENGTH
              (setPacket (setLength byte (packet this)) this), [])
    | PACKET_LENGTH =>
        let this :=
          setPacket
            (setLength (packetLength (packet this) + byte * 2 ^ 8)
               (packet this)) this in
        let k := packet this in
        if negb (maxPacketPayloadLength this =? 0)
           && (packetLength k >? maxPacketPayloadLength this)
        then
          Ok (resetState this,
              [PayloadTooLarge k (maxPacketPayloadLength this)])
        else if packetLength k =? 0 then
          buf <- alloc 0 ;;
          Ok (setPacket (setPayload (Some buf) k)
                (setPacketState PACKET_PAYLOAD this), [])
        else
          match table (packetClass k) (packetId k) with
          | Some expected =>
              if negb (packetLength k =? expected) then
                Ok (resetState this, [WrongPayloadLength k expected])
              else Ok (setPacketState PACKET_LENGTH_2 this, [])
          | None => Ok (setPacketState PACKET_LENGTH_2 this, [])
          end
    | PACKET_LENGTH_2 =>
        this <-
          match packetPayload (packet this) with
          | None =>
              buf <- alloc (packetLength (packet this)) ;;
              Ok (setPayloadPosition 0
                    (setPacket (setPayload (Some buf) (packet this)) this))
          | Some _ => Ok this
          end ;;
        let this :=
          setPacket
            (setPayload
               (option_map
                  (fun buf => bufSet buf (payloadPosition this) byte)
                  (packetPayload (packet this)))
               (packet this)) this in
        let this := setPayloadPosition (payloadPosition this + 1) this in
        if payloadPosition this >=? packetLength (packet this) then
          Ok (setPacketState PACKET_PAYLOAD this, [])
        else Ok (this, [])
    | PACKET_PAYLOAD =>
        Ok (setPacketState PACKET_CHECKSUM
              (setPacket (setChecksum byte (packet this)) this), [])
    | PACKET_CHECKSUM =>
        let this :=
          setPacket
            (setChecksum (packetChecksum (packet this) + byte * 2 ^ 8)
               (packet this)) this in
        let k := packet this in
        checksum <-
          calcCheckSum (packetClass k) (packetId k) (packetLength k)
            (packetPayload k) ;;
        if checksum =? packetChecksum k then
          if packetLength k >? 0 then
            Ok (resetState this,
                [Push (packetClass k) (packetId k) (packetPayload k)])
          else Ok (resetState this, [PollingMessage k])
        else Ok (resetState this, [FailedChecksum k checksum])
    end
  else if byte =? 0xB5 then
    Ok (setPacketState PACKET_SYNC_1 (setPacketStartFound true this), [])
  else Ok (this, []).

(** One turn of the loop: the body, then [this.streamIndex += 1]. *)
Definition step (this : Parser) (byte : Z)
  : Result (Parser * list (Output Packet)) :=
  r <- onByte this byte ;;
  Ok (setStreamIndex (streamIndex (fst r) + 1) (fst r), snd r).

(** [for (const [i, byte] of data.entries()) ...] *)
Fixpoint loop (this : Parser) (data : Buffer)
  : Result (Parser * list (Output Packet)) :=
  match data with
  | [] => Ok (this, [])
  | b :: rest =>
      r <- step this (byteVal b) ;;
      r' <- loop (fst r) rest ;;
      Ok (fst r', snd r ++ snd r')
  end.

(** [_transform(chunk, encoding, cb)] *)
Definition _transform (this : Parser) (chunk : Buffer)
  : Result (Parser * list (Output Packet)) :=
  loop this chunk.

(** The chunks of a stream, written one after the other. *)
Fixpoint feed (this : Parser) (chunks : list Buffer)
  : Result (Parser * list (Output Packet)) :=
  match chunks with
  | [] => Ok (this, [])
  | chunk :: more =>
      r <- _transform this chunk ;;
      r' <- feed (fst r) more ;;
      Ok (fst r', snd r ++ snd r')
  end.

End Transform.

(** The shapes of the decoder between two bytes. *)
Inductive Inv (table : LengthTable) : Parser -> Prop :=
| InvIdle si m :
    Inv table (mkParser packetTemplate 0 false PACKET_SYNC_1 si m)
| InvSync1 si m :
    Inv table (mkParser packetTemplate 0 true PACKET_SYNC_1 si m)
| InvSync2 si m :
    Inv table (mkParser packetTemplate 0 true PACKET_SYNC_2 si m)
| InvClass c si m :
    isByte c ->
    Inv table (mkParser (mkPacket c 0 0 None 0) 0 true PACKET_CLASS si m)
| InvId c i si m :
    isByte c -> isByte i ->
    Inv table (mkParser (mkPacket c i 0 None 0) 0 true PACKET_ID si m)
| InvLength c i l1 si m :
    isByte c -> isByte i -> isByte l1 ->
    Inv table (mkParser (mkPacket c i l1 None 0) 0 true PACKET_LENGTH si m)
| InvLength2 c i n payload position si m :
    isByte c -> isByte i -> 0 < n <= 65535 ->
    accepts table m c i n = true ->
    (payload = None /\ position = 0
     \/ exists buf, payload = Some buf /\ len buf = n /\ 0 < position < n) ->
    Inv table
      (mkParser (mkPacket c i n payload 0) position true PACKET_LENGTH_2 si m)
| InvPayload c i n buf position si m :
    isByte c -> isByte i -> 0 <= n <= 65535 ->
    accepts table m c i n = true -> len buf = n -> position = n ->
    Inv table
      (mkParser (mkPacket c i n (Some buf) 0) position true
         PACKET_PAYLOAD si m)
| InvChecksum c i n buf ck1 position si m :
    isByte c -> isByte i -> 0 <= n <= 65535 ->
    accepts table m c i n = true -> len buf = n -> position = n ->
    isByte ck1 ->
    Inv table
      (mkParser (mkPacket c i n (Some buf) ck1) position true
         PACKET_CHECKSUM si m).

(** The decoders that a program can hold: built by the constructor,
    then any number of loop turns and flushes. *)
Inductive reachable (table : LengthTable) : Parser -> Prop :=
| reach_new options this :
    constructor options = Ok this -> reachable table this
| reach_step this b r :
    reachable table this -> step table this (byteVal b) = Ok r ->
    reachable table (fst r)
| reach_flush this :
    reachable table this -> reachable table (_flush this).

End Plain.

(** ** The second version: the corrupt frame is scanned again *)

Module Backtrack.

(** [length1], [length2], [checksum1] and [checksum2] are not in
    [packetTemplate]: they are [undefined] until they are written. *)
Record Packet : Type := mkPacket {
  packetClass : Z;
  packetId : Z;
  packetLength : Z;
  packetPayload : option Buffer;
  packetChecksum : Z;
  packetLength1 : option Z;
  packetLength2 : option Z;
  packetChecksum1 : option Z;
  packetChecksum2 : option Z
}.

Definition packetTemplate : Packet :=
  {| packetClass := 0; packetId := 0; packetLength := 0;
     packetPayload := None; packetChecksum := 0;
     packetLength1 := None; packetLength2 := None;
     packetChecksum1 := None; packetChecksum2 := None |}.

Record Parser : Type := mkParser {
  packet : Packet;
  payloadPosition : Z;
  packetStartFound : bool;
  packetState : PacketState;
  streamIndex : Z;
  maxPacketPayloadLength : Z
}.

Definition setPacket (k : Packet) (this : Parser) : Parser :=
  {| packet := k; payloadPosition := payloadPosition this;
     packetStartFound := packetStartFound this;
     packetState := packetState this; streamIndex := streamIndex this;
     maxPacketPayloadLength := maxPacketPayloadLength this |}.

Definition setPayloadPosition (n : Z) (this : Parser) : Parser :=
  {| packet := packet this; payloadPosition := n;
     packetStartFound := packetStartFound this;
     packetState := packetState this; streamIndex := streamIndex this;
     maxPacketPayloadLength := maxPacketPayloadLength this |}.

Definition setPacketStartFound (b : bool) (this : Parser) : Parser :=
  {| packet := packet this; payloadPosition := payloadPosition this;
     packetStartFound := b;
     packetState := packetState this; streamIndex := streamIndex this;
     maxPacketPayloadLength := maxPacketPayloadLength this |}.

Definition setPacketState (s : PacketState) (this : Parser) : Parser :=
  {| packet := packet this; payloadPosition := payloadPosition this;
     packetStartFound := packetStartFound this;
     packetState := s; streamIndex := streamIndex this;
     maxPacketPayloadLength := maxPacketPayloadLength this |}.

Definition setStreamIndex (n : Z) (this : Parser) : Parser :=
  {| packet := packet this; payloadPosition := payloadPosition this;
     packetStartFound := packetStartFound this;
     packetState := packetState this; streamIndex := n;
     maxPacketPayloadLength := maxPacketPayloadLength this |}.

Definition setClass (v : Z) (k : Packet) : Packet :=
  {| packetClass := v; packetId := packetId k;
     packetLength := packetLength k; packetPayload := packetPayload k;
     packetChecksum := packetChecksum k;
     packetLength1 := packetLength1 k; packetLength2 := packetLength2 k;
     packetChecksum1 := packetChecksum1 k;
     packetChecksum2 := packetChecksum2 k |}.

Definition setId (v : Z) (k : Packet) : Packet :=
  {| packetClass := packetClass k; packetId := v;
     packetLength := packetLength k; packetPayload := packetPayload k;
     packetChecksum := packetChecksum k;
     packetLength1 := packetLength1 k; packetLength2 := packetLength2 k;
     packetChecksum1 := packetChecksum1 k;
     packetChecksum2 := packetChecksum2 k |}.

Definition setLength (v : Z) (k : Packet) : Packet :=
  {| packetClass := packetClass k; packetId := packetId k;
     packetLength := v; packetPayload := packetPayload k;
     packetChecksum := packetChecksum k;
     packetLength1 := packetLength1 k; packetLength2 := packetLength2 k;
     packetChecksum1 := packetChecksum1 k;
     packetChecksum2 := packetChecksum2 k |}.

Definition setPayload (v : option Buffer) (k : Packet) : Packet :=
  {| packetClass := packetClass k; packetId := packetId k;
     packetLength := packetLength k; packetPayload := v;
     packetChecksum := packetChecksum k;
     packetLength1 := packetLength1 k; packetLength2 := packetLength2 k;
     packetChecksum1 := packetChecksum1 k;
     packetChecksum2 := packetChecksum2 k |}.

Definition setChecksum (v : Z) (k : Packet) : Packet :=
  {| packetClass := packetClass k; packetId := packetId k;
     packetLength := packetLength k; packetPayload := packetPayload k;
     packetChecksum := v;
     packetLength1 := packetLength1 k; packetLength2 := packetLength2 k;
     packetChecksum1 := packetChecksum1 k;
     packetChecksum2 := packetChecksum2 k |}.

Definition setLength1 (v : Z) (k : Packet) : Packet :=
  {| packetClass := packetClass k; packetId := packetId k;
     packetLength := packetLength k; packetPayload := packetPayload k;
     packetChecksum := packetChecksum k;
     packetLength1 := Some v; packetLength2 := packetLength2 k;
     packetChecksum1 := packetChecksum1 k;
     packetChecksum2 := packetChecksum2 k |}.

Definition setLength2 (v : Z) (k : Packet) : Packet :=
  {| packetClass := packetClass k; packetId := packetId k;
     packetLength := packetLength k; packetPayload := packetPayload k;
     packetChecksum := packetChecksum k;
     packetLength1 := packetLength1 k; packetLength2 := Some v;
     packetChecksum1 := packetChecksum1 k;
     packetChecksum2 := packetChecksum2 k |}.

Definition setChecksum1 (v : Z) (k : Packet) : Packet :=
  {| packetClass := packetClass k; packetId := packetId k;
     packetLength := packetLength k; packetPayload := packetPayload k;
     packetChecksum := packetChecksum k;
     packetLength1 := packetLength1 k; packetLength2 := packetLength2 k;
     packetChecksum1 := Some v;
     packetChecksum2 := packetChecksum2 k |}.

Definition setChecksum2 (v : Z) (k : Packet) : Packet :=
  {| packetClass := packetClass k; packetId := packetId k;
     packetLength := packetLength k; packetPayload := packetPayload k;
     packetChecksum := packetChecksum k;
     packetLength1 := packetLength1 k; packetLength2 := packetLength2 k;
     packetChecksum1 := packetChecksum1 k;
     packetChecksum2 := Some v |}.

(** [constructor(options)] *)
Definition constructor (options : Options) : Result Parser :=
  m <- optionsMaxLength options ;;
  Ok {| packet := packetTemplate; payloadPosition := 0;
        packetStartFound := false; packetState := PACKET_SYNC_1;
        streamIndex := 0; maxPacketPayloadLength := m |}.

(** [resetState()] *)
Definition resetState (this : Parser) : Parser :=
  setPacketStartFound false
    (setPayloadPosition 0
       (setPacket packetTemplate (setPacketState PACKET_SYNC_1 this))).

(** [_flush(cb)] *)
Definition _flush (this : Parser) : Parser := resetState this.

(** The variables of one call of [_transform]: the decoder, the working
    buffer [data], the read position [i], and what this turn of the
    loop handed out. *)
Record Turn : Type := mkTurn {
  parser : Parser;
  data : Buffer;
  pos : Z;
  outputs : list (Output Packet)
}.

Section Transform.

Variable table : LengthTable.

(** The body of the [while] loop up to the two last statements, with
    [byte = data[i]]. *)
Definition onByte (this : Parser) (data : Buffer) (i : Z) : Result Turn :=
  let byte := at_ data i in
  if packetStartFound this then
    match packetState this with
    | PACKET_SYNC_1 =>
        if byte =? 0x62 then
          Ok (mkTurn (setPacketState PACKET_SYNC_2 this) data i [])
        else if byte =? 0xB5 then Ok (mkTurn this data i [])
        else Ok (mkTurn (resetState this) data i [])
    | PACKET_SYNC_2 =>
        Ok (mkTurn
              (setPacketState PACKET_CLASS
                 (setPacket (setClass byte (packet this)) this))
              data i [])
    | PACKET_CLASS =>
        Ok (mkTurn
              (setPacketState PACKET_ID
                 (setPacket (setId byte (packet this)) this))
              data i [])
    | PACKET_ID =>
        Ok (mkTurn
              (setPacketState PACKET_LENGTH
                 (setPacket (setLength1 byte (packet this)) this))
              data i [])
    | PACKET_LENGTH =>
        let this := setPacket (setLength2 byte (packet this)) this in
        length1 <- number (packetLength1 (packet this)) ;;
        length2 <- number (packetLength2 (packet this)) ;;
        let this :=
          setPacket (setLength (length1 + length2 * 2 ^ 8) (packet this))
            this in
        let k := packet this in
        if negb (maxPacketPayloadLength this =? 0)
           && (packetLength k >? maxPacketPayloadLength this)
        then
          Ok (mkTurn (resetState this) data i
                [PayloadTooLarge k (maxPacketPayloadLength this)])
        else if packetLength k =? 0 then
          buf <- alloc 0 ;;
          Ok (mkTurn
                (setPacket (setPayload (Some buf) k)
                   (setPacketState PACKET_PAYLOAD this))
                data i [])
        else
          match table (packetClass k) (packetId k) with
          | Some expected =>
              if negb (packetLength k =? expected) then
                Ok (mkTurn (resetState this) data i
                      [WrongPayloadLength k expected])
              else Ok (mkTurn (setPacketState PACKET_LENGTH_2 this) data i [])
          | None => Ok (mkTurn (setPacketState PACKET_LENGTH_2 this) data i [])
          end
    | PACKET_LENGTH_2 =>
        this <-
          match packetPayload (packet this) with
          | None =>
              buf <- alloc (packetLength (packet this)) ;;
              Ok (setPayloadPosition 0
                    (setPacket (setPayload (Some buf) (packet this)) this))
          | Some _ => Ok this
          end ;;
        let this :=
          setPacket
            (setPayload
               (option_map
                  (fun buf => bufSet buf (payloadPosition this) byte)
                  (packetPayload (packet this)))
               (packet this)) this in
        let this := setPayloadPosition (payloadPosition this + 1) this in
        if payloadPosition this >=? packetLength (packet this) then
          Ok (mkTurn (setPacketState PACKET_PAYLOAD this) data i [])
        else Ok (mkTurn this data i [])
    | PACKET_PAYLOAD =>
        Ok (mkTurn
              (setPacketState PACKET_CHECKSUM
                 (setPacket (setChecksum1 byte (packet this)) this))
              data i [])
    | PACKET_CHECKSUM =>
        let this := setPacket (setChecksum2 byte (packet this)) this in
        checksum1 <- number (packetChecksum1 (packet this)) ;;
        checksum2 <- number (packetChecksum2 (packet this)) ;;
        let this :=
          setPacket
            (setChecksum (checksum1 + checksum2 * 2 ^ 8) (packet this))
            this in
        let k := packet this in
        checksum <-
          calcCheckSum (packetClass k) (packetId k) (packetLength k)
            (packetPayload k) ;;
        if checksum =? packetChecksum k then
          if packetLength k >? 0 then
            Ok (mkTurn (resetState this) data i
                  [Push (packetClass k) (packetId k) (packetPayload k)])
          else Ok (mkTurn (resetState this) data i [PollingMessage k])
        else
          h0 <- writeUInt8 (packetClass k) ;;
          h1 <- writeUInt8 (packetId k) ;;
          payload <- nonNull (packetPayload k) ;;
          h23 <- writeUInt16LE (len payload) ;;
          let headerBuffer := h0 ++ h1 ++ h23 in
          let data :=
            headerBuffer ++ payload
              ++ [toUint8 checksum1; toUint8 checksum2]
              ++ slice data (i + 1) in
          let i := -1 in
          let this :=
            setStreamIndex
              (streamIndex this - (len headerBuffer + len payload + 2))
              this in
          Ok (mkTurn (resetState this) data i [FailedChecksum k checksum])
    end
  else if byte =? 0xB5 then
    Ok (mkTurn
          (setPacketState PACKET_SYNC_1 (setPacketStartFound true this))
          data i [])
  else Ok (mkTurn this data i []).

(** One turn of the loop: the body, then [this.streamIndex += 1] and
    [i += 1]. *)
Definition step (this : Parser) (data : Buffer) (i : Z) : Result Turn :=
  t <- onByte this data i ;;
  Ok (mkTurn
        (setStreamIndex (streamIndex (parser t) + 1) (parser t))
        (Backtrack.data t) (pos t + 1) (outputs t)).

(** [while (i < data.length) ...]: the loop can put bytes back, so it
    is not a recursion on [data]; [fuel] bounds the number of turns
    and [None] means that the bound was reached. *)
Fixpoint loop (fuel : nat) (this : Parser) (data : Buffer) (i : Z)
  : option (Result (Parser * list (Output Packet))) :=
  if i <? len data then
    match fuel with
    | O => None
    | S fuel' =>
        match step this data i with
        | Fail e => Some (Fail e)
        | Ok t =>
            prepend (outputs t)
              (loop fuel' (parser t) (Backtrack.data t) (pos t))
        end
    end
  else Some (Ok (this, [])).

(** Turns that are enough for [chunk] from the state [this]: every
    failed checksum takes the two sync bytes of its frame out of the
    bytes still to be read. *)
Definition turnsFor (this : Parser) (chunk : Buffer) : nat :=
  let n := (List.length chunk + 7 + Z.to_nat (payloadPosition this))%nat in
  S (n * n + List.length chunk).

(** [_transform(chunk, encoding, cb)] *)
Definition _transform (this : Parser) (chunk : Buffer)
  : option (Result (Parser * list (Output Packet))) :=
  loop (turnsFor this chunk) this chunk 0.

(** The chunks of a stream, written one after the other. *)
Fixpoint feed (this : Parser) (chunks : list Buffer)
  : option (Result (Parser * list (Output Packet))) :=
  match chunks with
  | [] => Some (Ok (this, []))
  | chunk :: more =>
      match _transform this chunk with
      | Some (Ok r) => prepend (snd r) (feed (fst r) more)
      | other => other
      end
  end.

End Transform.

(** The reaction of the decoder to one byte, whatever buffer it sits
    in: the turn of the loop on a buffer that holds this byte alone.
    [pos] is 1 afterwards, or 0 when bytes were put back, and then
    [data] is what was put back. *)
Definition react (table : LengthTable) (this : Parser) (b : byte)
  : Result Turn :=
  step table this [b] 0.

(** The shapes of the decoder between two bytes. *)
Inductive Inv (table : LengthTable) : Parser -> Prop :=
| InvIdle si m :
    Inv table (mkParser packetTemplate 0 false PACKET_SYNC_1 si m)
| InvSync1 si m :
    Inv table (mkParser packetTemplate 0 true PACKET_SYNC_1 si m)
| InvSync2 si m :
    Inv table (mkParser packetTemplate 0 true PACKET_SYNC_2 si m)
| InvClass c si m :
    isByte c ->
    Inv table
      (mkParser (mkPacket c 0 0 None 0 None None None None)
         0 true PACKET_CLASS si m)
| InvId c i si m :
    isByte c -> isByte i ->
    Inv table
      (mkParser (mkPacket c i 0 None 0 None None None None)
         0 true PACKET_ID si m)
| InvLength c i l1 si m :
    isByte c -> isByte i -> isByte l1 ->
    Inv table
      (mkParser (mkPacket c i 0 None 0 (Some l1) None None None)
         0 true PACKET_LENGTH si m)
| InvLength2 c i l1 l2 n payload position si m :
    isByte c -> isByte i -> isByte l1 -> isByte l2 ->
    n = l1 + l2 * 2 ^ 8 -> 0 < n ->
    accepts table m c i n = true ->
    (payload = None /\ position = 0
     \/ exists buf, payload = Some buf /\ len buf = n /\ 0 < position < n) ->
    Inv table
      (mkParser
         (mkPacket c i n payload 0 (Some l1) (Some l2) None None)
         position true PACKET_LENGTH_2 si m)
| InvPayload c i l1 l2 n buf position si m :
    isByte c -> isByte i -> isByte l1 -> isByte l2 ->
    n = l1 + l2 * 2 ^ 8 ->
    accepts table m c i n = true ->
    len buf = n -> position = n ->
    Inv table
      (mkParser
         (mkPacket c i n (Some buf) 0 (Some l1) (Some l2) None None)
         position true PACKET_PAYLOAD si m)
| InvChecksum c i l1 l2 n buf ck1 position si m :
    isByte c -> isByte i -> isByte l1 -> isByte l2 ->
    n = l1 + l2 * 2 ^ 8 ->
    accepts table m c i n = true ->
    len buf = n -> position = n -> isByte ck1 ->
    Inv table
      (mkParser
         (mkPacket c i n (Some buf) 0 (Some l1) (Some l2) (Some ck1) None)
         position true PACKET_CHECKSUM si m).

(** The decoders that a program can hold: built by the constructor,
    then any number of loop turns, on any buffer and position inside
    it, and flushes. *)
Inductive reachable (table : LengthTable) : Parser -> Prop :=
| reach_new options this :
    constructor options = Ok this -> reachable table this
| reach_step this data i t :
    reachable table this -> 0 <= i < len data ->
    step table this data i = Ok t ->
    reachable table (parser t)
| reach_flush this :
    reachable table this -> reachable table (_flush this).

(** The bytes of the frame in progress that were read so far, the two
    sync bytes included. *)
Definition frameBytes (this : Parser) : nat :=
  if packetStartFound this then
    match packetState this with
    | PACKET_SYNC_1 => 1
    | PACKET_SYNC_2 => 2
    | PACKET_CLASS => 3
    | PACKET_ID => 4
    | PACKET_LENGTH => 5
    | PACKET_LENGTH_2 => 6 + Z.to_nat (payloadPosition this)
    | PACKET_PAYLOAD => 6 + Z.to_nat (payloadPosition this)
    | PACKET_CHECKSUM => 7 + Z.to_nat (payloadPosition this)
    end
  else 0.

End Backtrack.

(** ** The two versions side by side *)

(** A packet object of the second version read through the five
    properties of [packetTemplate], which is all the first version has. *)
Definition erasePacket (k : Backtrack.Packet) : Plain.Packet :=
  {| Plain.packetClass := Backtrack.packetClass k;
     Plain.packetId := Backtrack.packetId k;
     Plain.packetLength := Backtrack.packetLength k;
     Plain.packetPayload := Backtrack.packetPayload k;
     Plain.packetChecksum := Backtrack.packetChecksum k |}.

Definition eraseOutput (o : Output Backtrack.Packet) : Output Plain.Packet :=
  match o with
  | Push c i payload => Push c i payload
  | PayloadTooLarge k m => PayloadTooLarge (erasePacket k) m
  | WrongPayloadLength k e => WrongPayloadLength (erasePacket k) e
  | PollingMessage k => PollingMessage (erasePacket k)
  | FailedChecksum k cs => FailedChecksum (erasePacket k) cs
  end.

Definition isFailedChecksum {Packet : Type} (o : Output Packet) : bool :=
  match o with
  | FailedChecksum _ _ => true
  | _ => false
  end.

(** The state of the first version that stands for a state of the second
    one: between the two length bytes the first version keeps the low
    byte in [length] where the second one keeps it in [length1], and
    between the two checksum bytes it keeps the low byte in [checksum]
    where the second one keeps it in [checksum1]. *)
Definition asPlain (this : Backtrack.Parser) : Plain.Parser :=
  let k := Backtrack.packet this in
  {| Plain.packet :=
       {| Plain.packetClass := Backtrack.packetClass k;
          Plain.packetId := Backtrack.packetId k;
          Plain.packetLength :=
            match Backtrack.packetState this, Backtrack.packetLength1 k with
            | PACKET_LENGTH, Some l1 => l1
            | _, _ => Backtrack.packetLength k
            end;
          Plain.packetPayload := Backtrack.packetPayload k;
          Plain.packetChecksum :=
            match Backtrack.packetState this, Backtrack.packetChecksum1 k with
            | PACKET_CHECKSUM, Some c1 => c1
            | _, _ => Backtrack.packetChecksum k
            end |};
     Plain.payloadPosition := Backtrack.payloadPosition this;
     Plain.packetStartFound := Backtrack.packetStartFound this;
     Plain.packetState := Backtrack.packetState this;
     Plain.streamIndex := Backtrack.streamIndex this;
     Plain.maxPacketPayloadLength := Backtrack.maxPacketPayloadLength this |}.

(** ** What outputs say, and frames for a payload *)

(** What an output says about the frame it comes from, for the maximum
    length [m] of the decoder: a packet has a class, an id and a payload
    of 1 to 65535 bytes whose length passed the length check; the two
    rejections are the two rejecting branches of that check; a polling
    event is a frame of length 0 with the right checksum; a failed
    checksum is a frame that passed the length check, with the checksum
    computed from it, which is not the received one. *)
Definition soundOutput (table : LengthTable) (m : Z)
  (o : Output Plain.Packet) : Prop :=
  match o with
  | Push c i payload =>
      exists buf,
        payload = Some buf /\ isByte c /\ isByte i
        /\ 0 < len buf <= 65535
        /\ accepts table m c i (len buf) = true
  | PayloadTooLarge k limit =>
      limit = m /\ m <> 0 /\ Plain.packetLength k > m
      /\ Plain.packetPayload k = None
  | WrongPayloadLength k expected =>
      table (Plain.packetClass k) (Plain.packetId k) = Some expected
      /\ Plain.packetLength k <> expected
      /\ Plain.packetLength k <> 0
      /\ (m = 0 \/ Plain.packetLength k <= m)
      /\ Plain.packetPayload k = None
  | PollingMessage k =>
      Plain.packetLength k = 0
      /\ Plain.packetPayload k = Some []
      /\ calcCheckSum (Plain.packetClass k) (Plain.packetId k) 0 (Some [])
         = Ok (Plain.packetChecksum k)
  | FailedChecksum k computed =>
      exists buf,
        Plain.packetPayload k = Some buf
        /\ len buf = Plain.packetLength k
        /\ accepts table m (Plain.packetClass k) (Plain.packetId k)
             (Plain.packetLength k) = true
        /\ calcCheckSum (Plain.packetClass k) (Plain.packetId k)
             (Plain.packetLength k) (Some buf) = Ok computed
        /\ computed <> Plain.packetChecksum k
  end.

(** The bytes of a frame that carries [payload] under a class and an id:
    the two sync bytes, class and id, the length of the payload and the
    checksum of [calcCheckSum], both written as [writeUInt16LE] writes
    them (low byte first, the order in which the [PACKET_ID],
    [PACKET_LENGTH], [PACKET_PAYLOAD] and [PACKET_CHECKSUM] cases read
    them back), with the payload in between. *)
Definition frameOf (messageClass id : byte) (payload : Buffer)
  : Result Buffer :=
  header <- writeUInt16LE (len payload) ;;
  checksum <- calcCheckSum (byteVal messageClass) (byteVal id)
                (len payload) (Some payload) ;;
  trailer <- writeUInt16LE checksum ;;
  Ok ([xb5; x62; messageClass; id] ++ header ++ payload ++ trailer).

(** ** Sample data *)

Definition noTable : LengthTable := fun _ _ => None.

(** The entry of the specification's example: class 2, id 1, 8 bytes. *)
Definition sampleTable : LengthTable :=
  fun c i => if (c =? 2) && (i =? 1) then Some 8 else None.

(** [new UBXProtocolParser()] *)
Definition freshPlain : Plain.Parser :=
  Plain.mkParser Plain.packetTemplate 0 false PACKET_SYNC_1 0
    DEFAULT_MAX_PACKET_PAYLOAD_LENGTH.

Definition freshBacktrack : Backtrack.Parser :=
  Backtrack.mkParser Backtrack.packetTemplate 0 false PACKET_SYNC_1 0
    DEFAULT_MAX_PACKET_PAYLOAD_LENGTH.

(** Class 10, id 11, one payload byte, right checksum. *)
Definition validFrame : Buffer :=
  [xb5; x62; x0a; x0b; x01; x00; xff; x15; x60].

(** The payload of a frame that holds a smaller valid frame (class 1,
    id 2, one payload byte). *)
Definition embeddingPayload : Buffer :=
  [xb5; x62; x01; x02; x01; x00; xff; x03; x0f].

(** * Properties *)

(** ** Bytes and buffers *)

Arguments byteVal : simpl never.
Arguments toUint8 : simpl never.

Lemma byteVal_range (b : byte) : isByte (byteVal b).
Proof.
  unfold isByte, byteVal.
  pose proof (Byte.to_N_bounded b) as H.
  lia.
Qed.

Lemma toUint8_byteVal (b : byte) : toUint8 (byteVal b) = b.
Proof.
  pose proof (byteVal_range b) as H. unfold isByte in H.
  unfold toUint8.
  rewrite Z.mod_small by exact H.
  unfold byteVal. rewrite N2Z.id, Byte.of_to_N. reflexivity.
Qed.

Lemma byteVal_toUint8 (v : Z) : byteVal (toUint8 v) = v mod 256.
Proof.
  assert (Hr : 0 <= v mod 256 < 256) by (apply Z.mod_pos_bound; lia).
  unfold toUint8.
  destruct (Byte.of_N (Z.to_N (v mod 256))) as [b|] eqn:E.
  - apply Byte.to_of_N in E. unfold byteVal. rewrite E. lia.
  - apply Byte.of_N_None_iff in E. lia.
Qed.

Lemma byteVal_inj (a b : byte) : byteVal a = byteVal b -> a = b.
Proof.
  intros H. rewrite <- (toUint8_byteVal a), <- (toUint8_byteVal b).
  now rewrite H.
Qed.

Lemma len_app (a b : Buffer) : len (a ++ b) = len a + len b.
Proof. unfold len. rewrite length_app. lia. Qed.

Lemma len_cons (x : byte) (a : Buffer) : len (x :: a) = len a + 1.
Proof. unfold len. simpl List.length. lia. Qed.

Lemma len_nonneg (a : Buffer) : 0 <= len a.
Proof. unfold len. lia. Qed.

Lemma at_head (b : byte) (rest : Buffer) : at_ (b :: rest) 0 = byteVal b.
Proof. reflexivity. Qed.

Lemma slice_head (b : byte) (rest : Buffer) : slice (b :: rest) (0 + 1) = rest.
Proof. reflexivity. Qed.

(** ** The checksum *)

Lemma fold_checkSumStep (buf : Buffer) (a b : Z) :
  fold_left checkSumStep buf (a, b) = runningSums (map byteVal buf) a b.
Proof.
  revert a b. induction buf as [|v buf IH]; intros a b; simpl.
  - reflexivity.
  - unfold checkSumStep at 2. simpl fst. simpl snd.
    rewrite !byteVal_toUint8. apply IH.
Qed.

Lemma writeUInt8_byte (v : Z) : isByte v -> writeUInt8 v = Ok [toUint8 v].
Proof.
  intros H. unfold isByte in H. unfold writeUInt8.
  replace ((0 <=? v) && (v <=? 255)) with true; [reflexivity|].
  symmetry. apply andb_true_iff. split; apply Z.leb_le; lia.
Qed.

Lemma writeUInt16LE_word (v : Z) :
  0 <= v <= 65535 ->
  writeUInt16LE v = Ok [toUint8 v; toUint8 (Z.shiftr v 8)].
Proof.
  intros H. unfold writeUInt16LE.
  replace ((0 <=? v) && (v <=? 65535)) with true; [reflexivity|].
  symmetry. apply andb_true_iff. split; apply Z.leb_le; lia.
Qed.

Lemma calcCheckSum_fletcher (c i n : Z) (payload : Buffer) :
  isByte c -> isByte i -> 0 <= n <= 65535 ->
  calcCheckSum c i n (Some payload)
  = Ok (fletcherChecksum (frameBody c i n payload)).
Proof.
  intros Hc Hi Hn. unfold calcCheckSum.
  rewrite (writeUInt8_byte c Hc), (writeUInt8_byte i Hi),
    (writeUInt16LE_word n Hn).
  cbv [bind nonNull]. f_equal.
  rewrite fold_checkSumStep. unfold fletcherChecksum, frameBody.
  rewrite !map_app. cbn [map app].
  rewrite !byteVal_toUint8.
  rewrite Z.shiftr_div_pow2 by lia.
  change (2 ^ 8) with 256.
  unfold isByte in Hc, Hi.
  rewrite (Z.mod_small c), (Z.mod_small i) by lia.
  rewrite (Z.mod_small (n / 256)); [reflexivity|].
  split; [apply Z.div_pos; lia | apply Z.div_lt_upper_bound; lia].
Qed.

Lemma length_setNth (buf : Buffer) (n : nat) (b : byte) :
  List.length (setNth buf n b) = List.length buf.
Proof.
  revert n. induction buf as [|h t IH]; intros [|n]; simpl; auto.
Qed.

Lemma len_bufSet (buf : Buffer) (i v : Z) : len (bufSet buf i v) = len buf.
Proof.
  unfold bufSet, len. destruct (i <? 0); [reflexivity|].
  now rewrite length_setNth.
Qed.

Lemma alloc_ok (n : Z) : 0 <= n -> alloc n = Ok (repeat x00 (Z.to_nat n)).
Proof.
  intros H. unfold alloc.
  destruct (n <? 0) eqn:E; [apply Z.ltb_lt in E; lia | reflexivity].
Qed.

Lemma len_repeat (n : Z) : 0 <= n -> len (repeat x00 (Z.to_nat n)) = n.
Proof. intros H. unfold len. rewrite repeat_length. lia. Qed.

(** ** The second version: one turn of the loop *)

Ltac byte_facts :=
  repeat match goal with
    | H : isByte _ |- _ => unfold isByte in H
    | |- isByte _ => unfold isByte
    end;
  change (2 ^ 8) with 256 in *.

Ltac bt_simpl :=
  cbv beta iota zeta delta
    [Backtrack.setPacket Backtrack.setPayloadPosition
     Backtrack.setPacketStartFound Backtrack.setPacketState
     Backtrack.setStreamIndex Backtrack.setClass Backtrack.setId
     Backtrack.setLength Backtrack.setPayload Backtrack.setChecksum
     Backtrack.setLength1 Backtrack.setLength2 Backtrack.setChecksum1
     Backtrack.setChecksum2 Backtrack.resetState Backtrack._flush
     Backtrack.packet Backtrack.payloadPosition Backtrack.packetStartFound
     Backtrack.packetState Backtrack.streamIndex
     Backtrack.maxPacketPayloadLength Backtrack.packetClass
     Backtrack.packetId Backtrack.packetLength Backtrack.packetPayload
     Backtrack.packetChecksum Backtrack.packetLength1
     Backtrack.packetLength2 Backtrack.packetChecksum1
     Backtrack.packetChecksum2 Backtrack.parser Backtrack.data
     Backtrack.pos Backtrack.outputs Backtrack.frameBytes
     bind number nonNull option_map fst snd].

Ltac one_byte_on := left; bt_simpl; repeat split; try reflexivity; lia.

Ltac turn_done inv :=
  bt_simpl; eexists; split; [reflexivity|]; split; [inv|one_byte_on].

Lemma bt_react_Inv (table : LengthTable) (this : Backtrack.Parser) (b : byte) :
  Backtrack.Inv table this ->
  exists t,
    Backtrack.react table this b = Ok t
    /\ Backtrack.Inv table (Backtrack.parser t)
    /\ (Backtrack.pos t = 1 /\ Backtrack.data t = [b]
        /\ (Backtrack.frameBytes (Backtrack.parser t)
            <= Backtrack.frameBytes this + 1)%nat
        \/ Backtrack.pos t = 0
           /\ Backtrack.packetStartFound (Backtrack.parser t) = false
           /\ (List.length (Backtrack.data t) + 1
               = Backtrack.frameBytes this)%nat).
Proof.
  intros H. pose proof (byteVal_range b) as Hb.
  inversion H; subst; unfold Backtrack.react, Backtrack.step, Backtrack.onByte;
    rewrite at_head; bt_simpl.
  - (* idle *)
    destruct (byteVal b =? 181) eqn:E; turn_done ltac:(constructor).
  - (* after 0xB5 *)
    destruct (byteVal b =? 98) eqn:E1; [|destruct (byteVal b =? 181) eqn:E2];
      turn_done ltac:(constructor).
  - turn_done ltac:(constructor; auto).
  - turn_done ltac:(constructor; auto).
  - turn_done ltac:(constructor; auto).
  - (* second length byte *)
    remember (l1 + byteVal b * 2 ^ 8) as n eqn:En.
    assert (Hn : 0 <= n) by (subst n; byte_facts; lia).
    destruct (negb (m =? 0) && (n >? m)) eqn:Emax.
    + turn_done ltac:(constructor).
    + destruct (n =? 0) eqn:Ezero.
      * assert (Hacc : accepts table m c i n = true)
          by (unfold accepts; rewrite Emax, Ezero; reflexivity).
        apply Z.eqb_eq in Ezero.
        unfold alloc. change (0 <? 0) with false.
        turn_done ltac:(eapply Backtrack.InvPayload
                          with (l1 := l1) (l2 := byteVal b);
                        eauto; try lia).
      * destruct (table c i) as [expected|] eqn:Et.
        -- destruct (negb (n =? expected)) eqn:Ee.
           ++ turn_done ltac:(constructor).
           ++ assert (Hacc : accepts table m c i n = true).
              { unfold accepts. rewrite Emax, Et.
                apply negb_false_iff in Ee. rewrite Ee. apply orb_true_r. }
              apply Z.eqb_neq in Ezero.
              turn_done ltac:(eapply Backtrack.InvLength2
                                with (l1 := l1) (l2 := byteVal b);
                              eauto; try lia).
        -- assert (Hacc : accepts table m c i n = true)
             by (unfold accepts; rewrite Emax, Et; apply orb_true_r).
           apply Z.eqb_neq in Ezero.
           turn_done ltac:(eapply Backtrack.InvLength2
                             with (l1 := l1) (l2 := byteVal b);
                           eauto; try lia).
  - (* a payload byte *)
    match goal with
    | Hp : _ \/ _ |- _ => destruct Hp as [[-> ->]|[buf [-> [Hlen Hpos]]]]
    end.
    + rewrite alloc_ok by lia. bt_simpl.
      destruct (0 + 1 >=? l1 + l2 * 2 ^ 8) eqn:E.
      * apply Z.geb_le in E. byte_facts.
        turn_done ltac:(eapply Backtrack.InvPayload
                          with (l1 := l1) (l2 := l2);
                        auto; try lia;
                        rewrite len_bufSet, len_repeat; lia).
      * rewrite Z.geb_leb in E. apply Z.leb_gt in E. byte_facts.
        turn_done ltac:(eapply Backtrack.InvLength2
                          with (l1 := l1) (l2 := l2);
                        auto; try lia;
                        right; eexists; split; [reflexivity|];
                        split; [|lia];
                        rewrite len_bufSet, len_repeat; lia).
    + destruct (position + 1 >=? l1 + l2 * 2 ^ 8) eqn:E.
      * apply Z.geb_le in E. byte_facts.
        turn_done ltac:(eapply Backtrack.InvPayload
                          with (l1 := l1) (l2 := l2);
                        auto; try lia; rewrite len_bufSet; lia).
      * rewrite Z.geb_leb in E. apply Z.leb_gt in E. byte_facts.
        turn_done ltac:(eapply Backtrack.InvLength2
                          with (l1 := l1) (l2 := l2);
                        auto; try lia;
                        right; eexists; split; [reflexivity|];
                        split; [|lia]; rewrite len_bufSet; lia).
  - (* first checksum byte *)
    turn_done ltac:(eapply Backtrack.InvChecksum with (l1 := l1) (l2 := l2);
                    auto).
  - (* second checksum byte *)
    assert (Hn : 0 <= l1 + l2 * 2 ^ 8 <= 65535) by (byte_facts; lia).
    rewrite calcCheckSum_fletcher by auto.
    bt_simpl.
    destruct (_ =? _) eqn:Eck.
    + destruct (_ >? _) eqn:Epos; turn_done ltac:(constructor).
    + rewrite !writeUInt8_byte by auto. bt_simpl.
      match goal with
      | Hl : len buf = _ |- _ =>
          rewrite writeUInt16LE_word by (rewrite Hl; exact Hn)
      end.
      bt_simpl.
      eexists; split; [reflexivity|]; split; [constructor|].
      right. bt_simpl. repeat split.
      rewrite slice_head, !length_app. cbn [List.length app].
      unfold len in *. lia.
Qed.
Lemma at_nth (data : Buffer) (i : Z) :
  at_ data i = at_ [nth (Z.to_nat i) data x00] 0.
Proof. reflexivity. Qed.

Lemma slice_slice (data : Buffer) (i : Z) :
  0 <= i -> slice (slice data i) (0 + 1) = slice data (i + 1).
Proof.
  intros H. unfold slice. rewrite skipn_skipn. f_equal. lia.
Qed.

(** A turn of the loop looks at [data] through the byte at [i] alone;
    [data] and [i] show in what it leaves behind. *)
Lemma bt_step_react (table : LengthTable) (this : Backtrack.Parser)
  (data : Buffer) (i : Z) :
  Backtrack.step table this data i
  = match Backtrack.react table this (nth (Z.to_nat i) data x00) with
    | Ok t =>
        Ok (Backtrack.mkTurn (Backtrack.parser t)
              (if Backtrack.pos t =? 0
               then Backtrack.data t ++ slice data (i + 1) else data)
              (if Backtrack.pos t =? 0 then 0 else i + 1)
              (Backtrack.outputs t))
    | Fail e => Fail e
    end.
Proof.
  unfold Backtrack.react, Backtrack.step, Backtrack.onByte.
  rewrite (at_nth data i).
  generalize (at_ [nth (Z.to_nat i) data x00] 0). intros v.
  generalize (nth (Z.to_nat i) data x00). intros b.
  destruct this as [[c id n pl ck l1 l2 c1 c2] p sf st si m].
  destruct sf; [destruct st|]; bt_simpl;
    repeat match goal with
      | |- context [0 + 1 =? 0] => change (0 + 1 =? 0) with false
      | |- context [-1 + 1 =? 0] => change (-1 + 1 =? 0) with true
      | |- context [if (?x =? ?y) then _ else _] => destruct (x =? y)
      | |- context [if (?x >? ?y) then _ else _] => destruct (x >? y)
      | |- context [if (?x >=? ?y) then _ else _] => destruct (x >=? y)
      | |- context [if (negb ?x && ?y) then _ else _] => destruct (negb x && y)
      | |- context [if (negb ?x) then _ else _] => destruct (negb x)
      | |- context [table ?x ?y] => destruct (table x y)
      | |- context [alloc ?x] => destruct (alloc x)
      | |- context [calcCheckSum ?x ?y ?z ?w] => destruct (calcCheckSum x y z w)
      | |- context [writeUInt8 ?x] => destruct (writeUInt8 x)
      | |- context [writeUInt16LE ?x] => destruct (writeUInt16LE x)
      | |- context [match ?x with Some _ => _ | None => _ end] =>
          is_var x; destruct x
      | _ => progress bt_simpl
      end;
    change (-1 + 1) with 0; try reflexivity;
    rewrite slice_head, <- !app_assoc; reflexivity.
Qed.

Lemma prepend_nil {P O : Type} (r : option (Result (P * list O))) :
  prepend [] r = r.
Proof. destruct r as [[[q o]|e]|]; reflexivity. Qed.

Lemma prepend_prepend {P O : Type} (o1 o2 : list O)
  (r : option (Result (P * list O))) :
  prepend o1 (prepend o2 r) = prepend (o1 ++ o2) r.
Proof.
  destruct r as [[[q o]|e]|]; simpl; try reflexivity.
  now rewrite app_assoc.
Qed.

Lemma len_slice_pos (data : Buffer) (i : Z) :
  0 <= i -> (i <? len data) = (0 <? len (slice data i)).
Proof.
  intros H. unfold len, slice. rewrite length_skipn.
  destruct (i <? _) eqn:E1; destruct (0 <? _) eqn:E2; try reflexivity;
    rewrite ?Z.ltb_lt, ?Z.ltb_ge in *; lia.
Qed.

Lemma nth_slice (data : Buffer) (i : Z) :
  0 <= i ->
  nth (Z.to_nat 0) (slice data i) x00 = nth (Z.to_nat i) data x00.
Proof.
  intros H. unfold slice. rewrite nth_skipn. f_equal. lia.
Qed.

(** The loop reads [data] from [i] on only. *)
Lemma bt_loop_slice (table : LengthTable) (fuel : nat) :
  forall (this : Backtrack.Parser) (data : Buffer) (i : Z),
    0 <= i ->
    Backtrack.loop table fuel this data i
    = Backtrack.loop table fuel this (slice data i) 0.
Proof.
  induction fuel as [|fuel IH]; intros this data i Hi; simpl;
    rewrite (len_slice_pos data i Hi).
  - reflexivity.
  - destruct (0 <? len (slice data i)); [|reflexivity].
    rewrite (bt_step_react table this data i),
      (bt_step_react table this (slice data i) 0).
    rewrite (nth_slice data i Hi).
    destruct (Backtrack.react table this _) as [t|e]; [|reflexivity].
    cbn [Backtrack.parser Backtrack.data Backtrack.pos Backtrack.outputs].
    rewrite (slice_slice data i Hi).
    destruct (Backtrack.pos t =? 0); [reflexivity|].
    f_equal.
    rewrite (IH _ data (i + 1)) by lia.
    rewrite (IH _ (slice data i) (0 + 1)) by lia.
    now rewrite (slice_slice data i Hi).
Qed.

(** The loop as a recursion on the bytes still to be read. *)
Lemma bt_loop_nil (table : LengthTable) (fuel : nat) (this : Backtrack.Parser) :
  Backtrack.loop table fuel this [] 0 = Some (Ok (this, [])).
Proof. destruct fuel; reflexivity. Qed.

Lemma bt_loop_cons (table : LengthTable) (fuel : nat)
  (this : Backtrack.Parser) (b : byte) (rest : Buffer) :
  Backtrack.loop table (S fuel) this (b :: rest) 0
  = match Backtrack.react table this b with
    | Ok t =>
        prepend (Backtrack.outputs t)
          (Backtrack.loop table fuel (Backtrack.parser t)
             (if Backtrack.pos t =? 0 then Backtrack.data t ++ rest else rest)
             0)
    | Fail e => Some (Fail e)
    end.
Proof.
  cbn [Backtrack.loop].
  replace (0 <? len (b :: rest)) with true
    by (symmetry; apply Z.ltb_lt; rewrite len_cons; pose proof (len_nonneg rest); lia).
  rewrite bt_step_react. cbn [Z.to_nat nth].
  destruct (Backtrack.react table this b) as [t|e]; [|reflexivity].
  cbn [Backtrack.parser Backtrack.data Backtrack.pos Backtrack.outputs].
  rewrite slice_head.
  destruct (Backtrack.pos t =? 0); [reflexivity|].
  f_equal. rewrite bt_loop_slice by lia. now rewrite slice_head.
Qed.

Lemma bt_loop_more (table : LengthTable) (fuel : nat) :
  forall (this : Backtrack.Parser) (rest : Buffer) r (extra : nat),
    Backtrack.loop table fuel this rest 0 = Some r ->
    Backtrack.loop table (fuel + extra) this rest 0 = Some r.
Proof.
  induction fuel as [|fuel IH]; intros this rest r extra H.
  - destruct rest as [|b rest].
    + rewrite bt_loop_nil in *. exact H.
    + cbn [Backtrack.loop] in H. rewrite len_cons in H.
      pose proof (len_nonneg rest).
      destruct (0 <? len rest + 1) eqn:E; [discriminate|].
      apply Z.ltb_ge in E. lia.
  - destruct rest as [|b rest].
    + rewrite bt_loop_nil in *. exact H.
    + change (S fuel + extra)%nat with (S (fuel + extra)).
      rewrite bt_loop_cons in *.
      destruct (Backtrack.react table this b) as [t|e]; [|exact H].
      destruct (Backtrack.loop table fuel _ _ 0) as [r'|] eqn:E;
        [|discriminate].
      now rewrite (IH _ _ _ extra E).
Qed.

Lemma bt_loop_agree (table : LengthTable) (f1 f2 : nat)
  (this : Backtrack.Parser) (rest : Buffer) r1 r2 :
  Backtrack.loop table f1 this rest 0 = Some r1 ->
  Backtrack.loop table f2 this rest 0 = Some r2 ->
  r1 = r2.
Proof.
  intros H1 H2.
  apply (bt_loop_more table f1 this rest r1 f2) in H1.
  apply (bt_loop_more table f2 this rest r2 f1) in H2.
  rewrite Nat.add_comm in H2. congruence.
Qed.
(** ** The second version: the loop ends *)

Lemma bt_frameBytes_bound (this : Backtrack.Parser) :
  (Backtrack.frameBytes this
   <= 7 + Z.to_nat (Backtrack.payloadPosition this))%nat.
Proof.
  unfold Backtrack.frameBytes.
  destruct (Backtrack.packetStartFound this); [|lia].
  destruct (Backtrack.packetState this); lia.
Qed.

Lemma bt_loop_ends (table : LengthTable) (fuel : nat) :
  forall (this : Backtrack.Parser) (rest : Buffer),
    Backtrack.Inv table this ->
    ((List.length rest + Backtrack.frameBytes this)
     * (List.length rest + Backtrack.frameBytes this)
     + List.length rest < fuel)%nat ->
    exists q outs,
      Backtrack.loop table fuel this rest 0 = Some (Ok (q, outs))
      /\ Backtrack.Inv table q.
Proof.
  induction fuel as [|fuel IH]; intros this rest HI Hf; [lia|].
  destruct rest as [|b rest].
  - rewrite bt_loop_nil. eauto.
  - rewrite bt_loop_cons.
    destruct (bt_react_Inv table this b HI) as [t [-> [HI' Hcases]]].
    destruct Hcases as [[Hp [_ Hfb]]|[Hp [Hsf Hlen]]]; rewrite Hp.
    + change (1 =? 0) with false. cbv iota.
      destruct (IH (Backtrack.parser t) rest HI') as [q [outs [-> HIq]]].
      * cbn [List.length] in Hf. nia.
      * simpl. eauto.
    + change (0 =? 0) with true. cbv iota.
      destruct (IH (Backtrack.parser t) (Backtrack.data t ++ rest) HI')
        as [q [outs [-> HIq]]].
      * assert (Hidle : Backtrack.frameBytes (Backtrack.parser t) = 0%nat).
        { unfold Backtrack.frameBytes. now rewrite Hsf. }
        rewrite Hidle, length_app. cbn [List.length] in Hf. nia.
      * simpl. eauto.
Qed.

Lemma bt_transform_ends (table : LengthTable) (this : Backtrack.Parser)
  (chunk : Buffer) :
  Backtrack.Inv table this ->
  exists q outs,
    Backtrack._transform table this chunk = Some (Ok (q, outs))
    /\ Backtrack.Inv table q.
Proof.
  intros HI. unfold Backtrack._transform. apply bt_loop_ends; [exact HI|].
  unfold Backtrack.turnsFor.
  pose proof (bt_frameBytes_bound this). nia.
Qed.

(** Whatever number of turns is enough gives the result of [_transform]. *)
Lemma bt_transform_loop (table : LengthTable) (this : Backtrack.Parser)
  (chunk : Buffer) (fuel : nat) r :
  Backtrack.Inv table this ->
  Backtrack.loop table fuel this chunk 0 = Some r ->
  Backtrack._transform table this chunk = Some r.
Proof.
  intros HI H.
  destruct (bt_transform_ends table this chunk HI) as [q [outs [E _]]].
  rewrite E. f_equal. unfold Backtrack._transform in E.
  exact (bt_loop_agree table _ _ this chunk _ _ E H).
Qed.

(** ** The second version: chunks *)

Lemma bt_loop_app (table : LengthTable) (f1 : nat) :
  forall (this : Backtrack.Parser) (a b : Buffer) q1 o1 (f2 : nat) r2,
    Backtrack.loop table f1 this a 0 = Some (Ok (q1, o1)) ->
    Backtrack.loop table f2 q1 b 0 = Some r2 ->
    Backtrack.loop table (f1 + f2) this (a ++ b) 0 = prepend o1 (Some r2).
Proof.
  induction f1 as [|f1 IH]; intros this a b q1 o1 f2 r2 H1 H2.
  - destruct a as [|x a].
    + rewrite bt_loop_nil in H1. injection H1 as <- <-.
      rewrite prepend_nil. exact H2.
    + cbn [Backtrack.loop] in H1. rewrite len_cons in H1.
      pose proof (len_nonneg a).
      destruct (0 <? len a + 1) eqn:E; [discriminate|].
      apply Z.ltb_ge in E. lia.
  - destruct a as [|x a].
    + rewrite bt_loop_nil in H1. injection H1 as <- <-.
      rewrite prepend_nil. cbn [app].
      rewrite Nat.add_comm. now apply bt_loop_more.
    + change (S f1 + f2)%nat with (S (f1 + f2)).
      cbn [app]. rewrite bt_loop_cons in *.
      destruct (Backtrack.react table this x) as [t|e]; [|discriminate].
      destruct (Backtrack.loop table f1 _ _ 0) as [[[q o]|e]|] eqn:E;
        try discriminate.
      cbn [prepend fst snd] in H1. injection H1 as <- <-.
      destruct (Backtrack.pos t =? 0);
        [rewrite app_assoc|]; rewrite (IH _ _ b _ _ f2 r2 E H2);
      now rewrite prepend_prepend.
Qed.

Lemma bt_transform_app (table : LengthTable) (this : Backtrack.Parser)
  (a b : Buffer) :
  Backtrack.Inv table this ->
  Backtrack._transform table this (a ++ b)
  = match Backtrack._transform table this a with
    | Some (Ok r) => prepend (snd r) (Backtrack._transform table (fst r) b)
    | other => other
    end.
Proof.
  intros HI.
  destruct (bt_transform_ends table this a HI) as [q1 [o1 [E1 HI1]]].
  destruct (bt_transform_ends table q1 b HI1) as [q2 [o2 [E2 _]]].
  rewrite E1. cbn [fst snd]. rewrite E2.
  apply (bt_transform_loop table this (a ++ b)
           (Backtrack.turnsFor this a + Backtrack.turnsFor q1 b)); [exact HI|].
  exact (bt_loop_app table _ this a b q1 o1 _ _ E1 E2).
Qed.

Lemma bt_feed_ends (table : LengthTable) (chunks : list Buffer) :
  forall this : Backtrack.Parser,
    Backtrack.Inv table this ->
    exists q outs,
      Backtrack.feed table this chunks = Some (Ok (q, outs))
      /\ Backtrack.Inv table q.
Proof.
  induction chunks as [|chunk more IH]; intros this HI.
  - simpl. eauto.
  - cbn [Backtrack.feed].
    destruct (bt_transform_ends table this chunk HI) as [q1 [o1 [-> HI1]]].
    destruct (IH q1 HI1) as [q2 [o2 [E HI2]]].
    cbn [fst snd]. rewrite E. simpl. eauto.
Qed.

Lemma bt_feed_concat (table : LengthTable) (chunks : list Buffer) :
  forall this : Backtrack.Parser,
    Backtrack.Inv table this ->
    Backtrack.feed table this chunks
    = Backtrack._transform table this (concat chunks).
Proof.
  induction chunks as [|chunk more IH]; intros this HI.
  - unfold Backtrack._transform. now rewrite bt_loop_nil.
  - cbn [Backtrack.feed concat].
    rewrite (bt_transform_app table this chunk (concat more) HI).
    destruct (bt_transform_ends table this chunk HI) as [q1 [o1 [-> HI1]]].
    cbn [fst snd]. now rewrite (IH q1 HI1).
Qed.

Lemma bt_new_Inv (table : LengthTable) (options : Options)
  (this : Backtrack.Parser) :
  Backtrack.constructor options = Ok this -> Backtrack.Inv table this.
Proof.
  unfold Backtrack.constructor.
  destruct (optionsMaxLength options) as [m|e]; [|discriminate].
  cbn [bind]. intros [= <-]. constructor.
Qed.

Lemma bt_reset_Inv (table : LengthTable) (this : Backtrack.Parser) :
  Backtrack.Inv table (Backtrack.resetState this).
Proof. destruct this. bt_simpl. constructor. Qed.

Lemma bt_step_Inv (table : LengthTable) (this : Backtrack.Parser)
  (data : Buffer) (i : Z) (t : Backtrack.Turn) :
  Backtrack.Inv table this ->
  Backtrack.step table this data i = Ok t ->
  Backtrack.Inv table (Backtrack.parser t).
Proof.
  intros HI H. rewrite bt_step_react in H.
  destruct (bt_react_Inv table this (nth (Z.to_nat i) data x00) HI)
    as [t' [E [HI' _]]].
  rewrite E in H. injection H as <-. exact HI'.
Qed.

Lemma bt_reachable_Inv (table : LengthTable) (this : Backtrack.Parser) :
  Backtrack.reachable table this -> Backtrack.Inv table this.
Proof.
  induction 1 as [options this H|this data i t _ IH _ H|this _ _].
  - exact (bt_new_Inv table options this H).
  - exact (bt_step_Inv table this data i t IH H).
  - apply bt_reset_Inv.
Qed.
(** ** [src/index.js]: one turn of the loop, chunks *)

Ltac pl_simpl :=
  cbv beta iota zeta delta
    [Plain.setPacket Plain.setPayloadPosition Plain.setPacketStartFound
     Plain.setPacketState Plain.setStreamIndex Plain.setClass Plain.setId
     Plain.setLength Plain.setPayload Plain.setChecksum Plain.resetState
     Plain._flush Plain.packet Plain.payloadPosition Plain.packetStartFound
     Plain.packetState Plain.streamIndex Plain.maxPacketPayloadLength
     Plain.packetClass Plain.packetId Plain.packetLength
     Plain.packetPayload Plain.packetChecksum
     bind number nonNull option_map fst snd].

Ltac byte_on inv :=
  pl_simpl; eexists; eexists; split; [reflexivity|]; inv.

Lemma pl_step_Inv (table : LengthTable) (this : Plain.Parser) (b : byte) :
  Plain.Inv table this ->
  exists q outs,
    Plain.step table this (byteVal b) = Ok (q, outs)
    /\ Plain.Inv table q.
Proof.
  intros H. pose proof (byteVal_range b) as Hb.
  inversion H; subst; unfold Plain.step, Plain.onByte; pl_simpl.
  - destruct (byteVal b =? 181) eqn:E; byte_on ltac:(constructor).
  - destruct (byteVal b =? 98) eqn:E1; [|destruct (byteVal b =? 181) eqn:E2];
      byte_on ltac:(constructor).
  - byte_on ltac:(constructor; auto).
  - byte_on ltac:(constructor; auto).
  - byte_on ltac:(constructor; auto).
  - (* second length byte *)
    remember (l1 + byteVal b * 2 ^ 8) as n eqn:En.
    assert (Hn : 0 <= n <= 65535) by (subst n; byte_facts; lia).
    destruct (negb (m =? 0) && (n >? m)) eqn:Emax.
    + byte_on ltac:(constructor).
    + destruct (n =? 0) eqn:Ezero.
      * assert (Hacc : accepts table m c i n = true)
          by (unfold accepts; rewrite Emax, Ezero; reflexivity).
        apply Z.eqb_eq in Ezero.
        unfold alloc. change (0 <? 0) with false.
        byte_on ltac:(eapply Plain.InvPayload; eauto; try lia).
      * destruct (table c i) as [expected|] eqn:Et.
        -- destruct (negb (n =? expected)) eqn:Ee.
           ++ byte_on ltac:(constructor).
           ++ assert (Hacc : accepts table m c i n = true).
              { unfold accepts. rewrite Emax, Et.
                apply negb_false_iff in Ee. rewrite Ee. apply orb_true_r. }
              apply Z.eqb_neq in Ezero.
              byte_on ltac:(eapply Plain.InvLength2; eauto; try lia).
        -- assert (Hacc : accepts table m c i n = true)
             by (unfold accepts; rewrite Emax, Et; apply orb_true_r).
           apply Z.eqb_neq in Ezero.
           byte_on ltac:(eapply Plain.InvLength2; eauto; try lia).
  - (* a payload byte *)
    match goal with
    | Hp : _ \/ _ |- _ => destruct Hp as [[-> ->]|[buf [-> [Hlen Hpos]]]]
    end.
    + rewrite alloc_ok by lia. pl_simpl.
      destruct (0 + 1 >=? n) eqn:E.
      * apply Z.geb_le in E.
        byte_on ltac:(eapply Plain.InvPayload; auto; try lia;
                      rewrite len_bufSet, len_repeat; lia).
      * rewrite Z.geb_leb in E. apply Z.leb_gt in E.
        byte_on ltac:(eapply Plain.InvLength2; auto; try lia;
                      right; eexists; split; [reflexivity|];
                      split; [|lia];
                      rewrite len_bufSet, len_repeat; lia).
    + destruct (position + 1 >=? n) eqn:E.
      * apply Z.geb_le in E.
        byte_on ltac:(eapply Plain.InvPayload; auto; try lia;
                      rewrite len_bufSet; lia).
      * rewrite Z.geb_leb in E. apply Z.leb_gt in E.
        byte_on ltac:(eapply Plain.InvLength2; auto; try lia;
                      right; eexists; split; [reflexivity|];
                      split; [|lia]; rewrite len_bufSet; lia).
  - (* first checksum byte *)
    byte_on ltac:(eapply Plain.InvChecksum; auto).
  - (* second checksum byte *)
    match goal with
    | Hn : 0 <= len buf <= 65535 |- _ =>
        rewrite calcCheckSum_fletcher by auto
    end.
    pl_simpl.
    destruct (_ =? _) eqn:Eck; [destruct (_ >? _) eqn:Epos|];
      byte_on ltac:(constructor).
Qed.

Lemma pl_loop_app (table : LengthTable) (a : Buffer) :
  forall (this : Plain.Parser) (b : Buffer),
    Plain.loop table this (a ++ b)
    = (r <- Plain.loop table this a ;;
       r' <- Plain.loop table (fst r) b ;;
       Ok (fst r', snd r ++ snd r')).
Proof.
  induction a as [|x a IH]; intros this b.
  - cbn [app Plain.loop bind fst snd].
    destruct (Plain.loop table this b) as [[q o]|e]; reflexivity.
  - cbn [app Plain.loop].
    destruct (Plain.step table this (byteVal x)) as [[q o]|e];
      [|reflexivity].
    cbn [bind fst snd]. rewrite IH.
    destruct (Plain.loop table q a) as [[q1 o1]|e]; [|reflexivity].
    cbn [bind fst snd].
    destruct (Plain.loop table q1 b) as [[q2 o2]|e]; [|reflexivity].
    cbn [bind fst snd]. now rewrite app_assoc.
Qed.

Lemma pl_loop_ends (table : LengthTable) (data : Buffer) :
  forall this : Plain.Parser,
    Plain.Inv table this ->
    exists q outs,
      Plain.loop table this data = Ok (q, outs) /\ Plain.Inv table q.
Proof.
  induction data as [|b data IH]; intros this HI.
  - simpl. eauto.
  - cbn [Plain.loop].
    destruct (pl_step_Inv table this b HI) as [q [o [-> HIq]]].
    cbn [bind fst snd].
    destruct (IH q HIq) as [q' [o' [-> HIq']]].
    cbn [bind fst snd]. eauto.
Qed.

Lemma pl_feed_concat (table : LengthTable) (chunks : list Buffer) :
  forall this : Plain.Parser,
    Plain.feed table this chunks
    = Plain._transform table this (concat chunks).
Proof.
  induction chunks as [|chunk more IH]; intros this.
  - reflexivity.
  - cbn [Plain.feed concat]. unfold Plain._transform at 2.
    rewrite pl_loop_app. unfold Plain._transform at 1.
    destruct (Plain.loop table this chunk) as [[q o]|e]; [|reflexivity].
    cbn [bind fst snd]. rewrite IH. reflexivity.
Qed.

Lemma pl_feed_ends (table : LengthTable) (chunks : list Buffer)
  (this : Plain.Parser) :
  Plain.Inv table this ->
  exists q outs,
    Plain.feed table this chunks = Ok (q, outs) /\ Plain.Inv table q.
Proof.
  intros HI. rewrite pl_feed_concat. now apply pl_loop_ends.
Qed.

Lemma pl_new_Inv (table : LengthTable) (options : Options)
  (this : Plain.Parser) :
  Plain.constructor options = Ok this -> Plain.Inv table this.
Proof.
  unfold Plain.constructor.
  destruct (optionsMaxLength options) as [m|e]; [|discriminate].
  cbn [bind]. intros [= <-]. constructor.
Qed.

Lemma pl_reset_Inv (table : LengthTable) (this : Plain.Parser) :
  Plain.Inv table (Plain.resetState this).
Proof. destruct this. pl_simpl. constructor. Qed.

Lemma pl_reachable_Inv (table : LengthTable) (this : Plain.Parser) :
  Plain.reachable table this -> Plain.Inv table this.
Proof.
  induction 1 as [options this H|this b r _ IH H|this _ _].
  - exact (pl_new_Inv table options this H).
  - destruct (pl_step_Inv table this b IH) as [q [o [E HI]]].
    rewrite E in H. injection H as <-. exact HI.
  - apply pl_reset_Inv.
Qed.
(** Every output of a turn comes with a reset, whatever the state. *)
Lemma pl_output_resets (table : LengthTable) (this : Plain.Parser) (v : Z)
  q outs :
  Plain.step table this v = Ok (q, outs) -> outs <> [] ->
  Plain.packet q = Plain.packetTemplate /\ Plain.payloadPosition q = 0
  /\ Plain.packetStartFound q = false /\ Plain.packetState q = PACKET_SYNC_1.
Proof.
  intros H Hne. unfold Plain.step, Plain.onByte in H.
  destruct this as [[c id n pl ck] p sf st si m].
  destruct sf; [destruct st|];
    revert H; pl_simpl;
    repeat match goal with
      | |- context [if (?x =? ?y) then _ else _] => destruct (x =? y)
      | |- context [if (?x >? ?y) then _ else _] => destruct (x >? y)
      | |- context [if (?x >=? ?y) then _ else _] => destruct (x >=? y)
      | |- context [if (negb ?x && ?y) then _ else _] => destruct (negb x && y)
      | |- context [if (negb ?x) then _ else _] => destruct (negb x)
      | |- context [table ?x ?y] => destruct (table x y)
      | |- context [alloc ?x] => destruct (alloc x)
      | |- context [calcCheckSum ?x ?y ?z ?w] => destruct (calcCheckSum x y z w)
      | |- context [match ?x with Some _ => _ | None => _ end] =>
          is_var x; destruct x
      | _ => progress pl_simpl
      end;
    intros [= <- <-] || discriminate;
    try (exfalso; apply Hne; reflexivity); pl_simpl; auto.
Qed.

Lemma bt_output_resets (table : LengthTable) (this : Backtrack.Parser)
  (data : Buffer) (i : Z) t :
  Backtrack.step table this data i = Ok t -> Backtrack.outputs t <> [] ->
  Backtrack.packet (Backtrack.parser t) = Backtrack.packetTemplate
  /\ Backtrack.payloadPosition (Backtrack.parser t) = 0
  /\ Backtrack.packetStartFound (Backtrack.parser t) = false
  /\ Backtrack.packetState (Backtrack.parser t) = PACKET_SYNC_1.
Proof.
  intros H Hne. unfold Backtrack.step, Backtrack.onByte in H.
  destruct this as [[c id n pl ck l1 l2 c1 c2] p sf st si m].
  destruct sf; [destruct st|];
    revert H; bt_simpl;
    repeat match goal with
      | |- context [if (?x =? ?y) then _ else _] => destruct (x =? y)
      | |- context [if (?x >? ?y) then _ else _] => destruct (x >? y)
      | |- context [if (?x >=? ?y) then _ else _] => destruct (x >=? y)
      | |- context [if (negb ?x && ?y) then _ else _] => destruct (negb x && y)
      | |- context [if (negb ?x) then _ else _] => destruct (negb x)
      | |- context [table ?x ?y] => destruct (table x y)
      | |- context [alloc ?x] => destruct (alloc x)
      | |- context [calcCheckSum ?x ?y ?z ?w] => destruct (calcCheckSum x y z w)
      | |- context [writeUInt8 ?x] => destruct (writeUInt8 x)
      | |- context [writeUInt16LE ?x] => destruct (writeUInt16LE x)
      | |- context [match ?x with Some _ => _ | None => _ end] =>
          is_var x; destruct x
      | _ => progress bt_simpl
      end;
    intros [= <-] || discriminate;
    try (exfalso; apply Hne; reflexivity); bt_simpl; auto.
Qed.

(** What the shapes say about the position and the payload buffer. *)
Lemma pl_Inv_fields (table : LengthTable) (this : Plain.Parser) :
  Plain.Inv table this ->
  0 <= Plain.payloadPosition this <= Plain.packetLength (Plain.packet this)
  /\ (Plain.packetPayload (Plain.packet this) <> None ->
      Plain.packetStartFound this = true
      /\ (Plain.packetState this = PACKET_LENGTH_2
          \/ Plain.packetState this = PACKET_PAYLOAD
          \/ Plain.packetState this = PACKET_CHECKSUM)
      /\ accepts table (Plain.maxPacketPayloadLength this)
           (Plain.packetClass (Plain.packet this))
           (Plain.packetId (Plain.packet this))
           (Plain.packetLength (Plain.packet this)) = true).
Proof.
  intros H. inversion H; subst; simpl; byte_facts;
    try (split; [lia | intros Hn; now elim Hn]).
  - split.
    + match goal with
      | Hp : _ \/ _ |- _ => destruct Hp as [[_ ->]|[buf [_ [_ Hpos]]]]; lia
      end.
    + intros _. auto.
  - split; [pose proof (len_nonneg buf); lia | intros _; auto].
  - split; [pose proof (len_nonneg buf); lia | intros _; auto].
Qed.

Lemma bt_Inv_fields (table : LengthTable) (this : Backtrack.Parser) :
  Backtrack.Inv table this ->
  0 <= Backtrack.payloadPosition this
    <= Backtrack.packetLength (Backtrack.packet this)
  /\ (Backtrack.packetPayload (Backtrack.packet this) <> None ->
      Backtrack.packetStartFound this = true
      /\ (Backtrack.packetState this = PACKET_LENGTH_2
          \/ Backtrack.packetState this = PACKET_PAYLOAD
          \/ Backtrack.packetState this = PACKET_CHECKSUM)
      /\ accepts table (Backtrack.maxPacketPayloadLength this)
           (Backtrack.packetClass (Backtrack.packet this))
           (Backtrack.packetId (Backtrack.packet this))
           (Backtrack.packetLength (Backtrack.packet this)) = true).
Proof.
  intros H. inversion H; subst; simpl; byte_facts;
    try (split; [lia | intros Hn; now elim Hn]).
  - split.
    + match goal with
      | Hp : _ \/ _ |- _ => destruct Hp as [[_ ->]|[buf [_ [_ Hpos]]]]; lia
      end.
    + intros _. auto.
  - split; [lia | intros _; auto].
  - split; [lia | intros _; auto].
Qed.

(** ** Decoders reached by feeding chunks *)

Lemma bt_step_pos (table : LengthTable) (this : Backtrack.Parser)
  (data : Buffer) (i : Z) t :
  0 <= i -> Backtrack.step table this data i = Ok t -> 0 <= Backtrack.pos t.
Proof.
  intros Hi H. rewrite bt_step_react in H.
  destruct (Backtrack.react table this _) as [t'|e]; [|discriminate].
  injection H as <-. cbn [Backtrack.pos].
  destruct (Backtrack.pos t' =? 0); lia.
Qed.

Lemma bt_reachable_loop (table : LengthTable) (fuel : nat) :
  forall (this : Backtrack.Parser) (data : Buffer) (i : Z) q outs,
    Backtrack.reachable table this -> 0 <= i ->
    Backtrack.loop table fuel this data i = Some (Ok (q, outs)) ->
    Backtrack.reachable table q.
Proof.
  induction fuel as [|fuel IH]; intros this data i q outs Hr Hi H;
    cbn [Backtrack.loop] in H;
    destruct (i <? len data) eqn:Ei; try discriminate;
    try (injection H as <- _; exact Hr).
  apply Z.ltb_lt in Ei.
  destruct (Backtrack.step table this data i) as [t|e] eqn:E; [|discriminate].
  destruct (Backtrack.loop table fuel _ _ _) as [[[q1 o1]|e]|] eqn:E1;
    try discriminate.
  cbn [prepend fst snd] in H. injection H as <- _.
  apply (IH _ _ _ _ _ (Backtrack.reach_step table this data i t Hr
                         (conj Hi Ei) E)
           (bt_step_pos table this data i t Hi E) E1).
Qed.

Lemma pl_reachable_loop (table : LengthTable) (data : Buffer) :
  forall (this : Plain.Parser) q outs,
    Plain.reachable table this ->
    Plain.loop table this data = Ok (q, outs) ->
    Plain.reachable table q.
Proof.
  induction data as [|b data IH]; intros this q outs Hr H.
  - injection H as <- _. exact Hr.
  - cbn [Plain.loop] in H.
    destruct (Plain.step table this (byteVal b)) as [r|e] eqn:E;
      [|discriminate].
    cbn [bind] in H.
    destruct (Plain.loop table (fst r) data) as [[q1 o1]|e] eqn:E1;
      [|discriminate].
    cbn [bind fst snd] in H. injection H as <- _.
    exact (IH _ _ _ (Plain.reach_step table this b r Hr E) E1).
Qed.

Lemma bt_reachable_transform (table : LengthTable) (this : Backtrack.Parser)
  (chunk : Buffer) q outs :
  Backtrack.reachable table this ->
  Backtrack._transform table this chunk = Some (Ok (q, outs)) ->
  Backtrack.reachable table q.
Proof.
  intros Hr H.
  apply (bt_reachable_loop table (Backtrack.turnsFor this chunk) this chunk 0
           q outs Hr); [lia | exact H].
Qed.

(** ** The second version: a whole frame *)

Lemma bt_loop_quiet (table : LengthTable) (fuel : nat)
  (this q : Backtrack.Parser) (b : byte) (rest : Buffer) :
  Backtrack.react table this b = Ok (Backtrack.mkTurn q [b] 1 []) ->
  Backtrack.loop table (S fuel) this (b :: rest) 0
  = Backtrack.loop table fuel q rest 0.
Proof.
  intros H. rewrite bt_loop_cons, H.
  cbn [Backtrack.parser Backtrack.data Backtrack.pos Backtrack.outputs].
  change (1 =? 0) with false. cbv iota. apply prepend_nil.
Qed.

Lemma setNth_app (done : Buffer) (b : byte) (k : nat) :
  setNth (done ++ repeat x00 (S k)) (List.length done) b
  = (done ++ [b]) ++ repeat x00 k.
Proof.
  induction done as [|d done IH].
  - reflexivity.
  - cbn [app List.length setNth]. f_equal. exact IH.
Qed.

(** The bytes of the payload after the first one. *)
Lemma bt_loop_payload (table : LengthTable) (c i l1 l2 m : Z) (todo : Buffer) :
  forall (done : Buffer) (si : Z) (fuel : nat) (rest : Buffer),
    done <> [] ->
    let n := len done + len todo in
    Backtrack.loop table (List.length todo + fuel)
      (Backtrack.mkParser
         (Backtrack.mkPacket c i n
            (Some (done ++ repeat x00 (List.length todo))) 0
            (Some l1) (Some l2) None None)
         (len done) true
         (match todo with [] => PACKET_PAYLOAD | _ => PACKET_LENGTH_2 end)
         si m)
      (todo ++ rest) 0
    = Backtrack.loop table fuel
        (Backtrack.mkParser
           (Backtrack.mkPacket c i n (Some (done ++ todo)) 0
              (Some l1) (Some l2) None None)
           n true PACKET_PAYLOAD (si + len todo) m)
        rest 0.
Proof.
  induction todo as [|b todo IH]; intros done si fuel rest Hdone n; subst n.
  - cbn [List.length repeat Nat.add app].
    rewrite !app_nil_r. change (len []) with 0. rewrite !Z.add_0_r.
    reflexivity.
  - cbn [List.length Nat.add app].
    assert (E1 : len (done ++ [b]) = len done + 1)
      by (rewrite len_app, len_cons; reflexivity).
    rewrite (len_cons b todo).
    rewrite (bt_loop_quiet table _ _
               (Backtrack.mkParser
                  (Backtrack.mkPacket c i (len (done ++ [b]) + len todo)
                     (Some ((done ++ [b]) ++ repeat x00 (List.length todo))) 0
                     (Some l1) (Some l2) None None)
                  (len (done ++ [b])) true
                  (match todo with
                   | [] => PACKET_PAYLOAD
                   | _ => PACKET_LENGTH_2
                   end)
                  (si + 1) m)).
    + rewrite (IH (done ++ [b]) (si + 1) fuel rest).
      * rewrite <- !app_assoc. cbn [app]. rewrite E1.
        replace (len done + 1 + len todo) with (len done + (len todo + 1))
          by lia.
        replace (si + 1 + len todo) with (si + (len todo + 1)) by lia.
        reflexivity.
      * intros E. apply app_eq_nil in E. destruct E; discriminate.
    + unfold Backtrack.react, Backtrack.step, Backtrack.onByte.
      rewrite at_head. bt_simpl.
      unfold bufSet.
      replace (len done <? 0) with false
        by (symmetry; apply Z.ltb_ge, len_nonneg).
      replace (Z.to_nat (len done)) with (List.length done)
        by (unfold len; lia).
      rewrite setNth_app, toUint8_byteVal.
      assert (Hpos : (len done + 1 >=? len done + (len todo + 1))
                     = match todo with [] => true | _ => false end).
      { pose proof (len_nonneg todo).
        destruct todo as [|x todo].
        - change (len []) with 0. apply Z.geb_le. lia.
        - rewrite Z.geb_leb. apply Z.leb_gt. rewrite len_cons.
          pose proof (len_nonneg todo). lia. }
      rewrite Hpos, E1.
      replace (len done + 1 + len todo) with (len done + (len todo + 1))
        by lia.
      destruct todo; reflexivity.
Qed.

Lemma bt_react_sync (table : LengthTable) (k : Backtrack.Packet)
  (p si m : Z) (sf : bool) :
  Backtrack.react table (Backtrack.mkParser k p sf PACKET_SYNC_1 si m) xb5
  = Ok (Backtrack.mkTurn
          (Backtrack.mkParser k p true PACKET_SYNC_1 (si + 1) m) [xb5] 1 []).
Proof. destruct sf; reflexivity. Qed.

Lemma bt_react_trailer (table : LengthTable) (k : Backtrack.Packet)
  (p si m : Z) :
  Backtrack.react table (Backtrack.mkParser k p true PACKET_SYNC_1 si m) x62
  = Ok (Backtrack.mkTurn
          (Backtrack.mkParser k p true PACKET_SYNC_2 (si + 1) m) [x62] 1 []).
Proof. reflexivity. Qed.

Lemma bt_react_length (table : LengthTable) (c i l1 si m : Z) (b : byte) :
  let n := l1 + byteVal b * 2 ^ 8 in
  accepts table m c i n = true ->
  Backtrack.react table
    (Backtrack.mkParser
       (Backtrack.mkPacket c i 0 None 0 (Some l1) None None None)
       0 true PACKET_LENGTH si m) b
  = Ok (Backtrack.mkTurn
          (Backtrack.mkParser
             (Backtrack.mkPacket c i n (if n =? 0 then Some [] else None) 0
                (Some l1) (Some (byteVal b)) None None)
             0 true (if n =? 0 then PACKET_PAYLOAD else PACKET_LENGTH_2)
             (si + 1) m)
          [b] 1 []).
Proof.
  intros n Hacc. unfold accepts in Hacc.
  apply andb_true_iff in Hacc. destruct Hacc as [Hmax Htab].
  apply negb_true_iff in Hmax.
  unfold Backtrack.react, Backtrack.step, Backtrack.onByte.
  rewrite at_head. bt_simpl. fold n. rewrite Hmax.
  destruct (n =? 0) eqn:Ez; [reflexivity|].
  cbn [orb] in Htab.
  destruct (table c i) as [expected|]; [|reflexivity].
  rewrite Htab. reflexivity.
Qed.

Lemma bt_react_first (table : LengthTable) (c i l1 l2 si m : Z) (b : byte)
  (todo : Buffer) :
  let n := len (b :: todo) in
  Backtrack.react table
    (Backtrack.mkParser
       (Backtrack.mkPacket c i n None 0 (Some l1) (Some l2) None None)
       0 true PACKET_LENGTH_2 si m) b
  = Ok (Backtrack.mkTurn
          (Backtrack.mkParser
             (Backtrack.mkPacket c i n
                (Some ([b] ++ repeat x00 (List.length todo))) 0
                (Some l1) (Some l2) None None)
             (len [b]) true
             (match todo with [] => PACKET_PAYLOAD | _ => PACKET_LENGTH_2 end)
             (si + 1) m)
          [b] 1 []).
Proof.
  intros n. subst n.
  unfold Backtrack.react, Backtrack.step, Backtrack.onByte.
  rewrite at_head. bt_simpl.
  pose proof (len_nonneg todo) as Hl.
  rewrite alloc_ok by (rewrite len_cons; lia). bt_simpl.
  replace (Z.to_nat (len (b :: todo))) with (S (List.length todo))
    by (unfold len; cbn [List.length]; lia).
  unfold bufSet. change (0 <? 0) with false. cbv iota.
  cbn [repeat Z.to_nat setNth]. rewrite toUint8_byteVal.
  assert (Hpos : (0 + 1 >=? len (b :: todo))
                 = match todo with [] => true | _ => false end).
  { rewrite len_cons. destruct todo as [|x todo].
    - reflexivity.
    - rewrite Z.geb_leb. apply Z.leb_gt. rewrite len_cons.
      pose proof (len_nonneg todo). lia. }
  rewrite Hpos. destruct todo; reflexivity.
Qed.

(** From the two sync bytes to the last payload byte of a frame whose
    length passes the check. *)
Lemma bt_loop_frame (table : LengthTable) (sf : bool) (si m : Z)
  (c i l1 l2 : byte) (payload rest : Buffer) (fuel : nat) :
  let n := byteVal l1 + byteVal l2 * 2 ^ 8 in
  accepts table m (byteVal c) (byteVal i) n = true ->
  len payload = n ->
  Backtrack.loop table (6 + (List.length payload + fuel))
    (Backtrack.mkParser Backtrack.packetTemplate 0 sf PACKET_SYNC_1 si m)
    ([xb5; x62; c; i; l1; l2] ++ payload ++ rest) 0
  = Backtrack.loop table fuel
      (Backtrack.mkParser
         (Backtrack.mkPacket (byteVal c) (byteVal i) n (Some payload) 0
            (Some (byteVal l1)) (Some (byteVal l2)) None None)
         n true PACKET_PAYLOAD (si + 6 + n) m)
      rest 0.
Proof.
  intros n Hacc Hlen.
  cbn [app Nat.add].
  rewrite (bt_loop_quiet table _ _ _ _ _ (bt_react_sync table _ _ _ _ _)).
  rewrite (bt_loop_quiet table _ _ _ _ _ (bt_react_trailer table _ _ _ _)).
  rewrite (bt_loop_quiet table _ _
             (Backtrack.mkParser
                (Backtrack.mkPacket (byteVal c) 0 0 None 0 None None None None)
                0 true PACKET_CLASS (si + 1 + 1 + 1) m)) by reflexivity.
  rewrite (bt_loop_quiet table _ _
             (Backtrack.mkParser
                (Backtrack.mkPacket (byteVal c) (byteVal i) 0 None 0
                   None None None None)
                0 true PACKET_ID (si + 1 + 1 + 1 + 1) m)) by reflexivity.
  rewrite (bt_loop_quiet table _ _
             (Backtrack.mkParser
                (Backtrack.mkPacket (byteVal c) (byteVal i) 0 None 0
                   (Some (byteVal l1)) None None None)
                0 true PACKET_LENGTH (si + 1 + 1 + 1 + 1 + 1) m))
    by reflexivity.
  rewrite (bt_loop_quiet table _ _ _ _ _
             (bt_react_length table _ _ _ _ _ l2 Hacc)).
  fold n.
  replace (si + 1 + 1 + 1 + 1 + 1 + 1) with (si + 6) by lia.
  destruct payload as [|b todo].
  - change (len []) with 0 in Hlen. rewrite <- Hlen.
    cbn [List.length Nat.add app]. change (0 =? 0) with true. cbv iota.
    rewrite Z.add_0_r. reflexivity.
  - assert (Hn : (n =? 0) = false).
    { apply Z.eqb_neq. rewrite <- Hlen, len_cons.
      pose proof (len_nonneg todo). lia. }
    rewrite Hn. rewrite <- Hlen.
    cbn [List.length Nat.add app].
    rewrite (bt_loop_quiet table _ _ _ _ _
               (bt_react_first table _ _ _ _ _ _ b todo)).
    pose proof (bt_loop_payload table (byteVal c) (byteVal i) (byteVal l1)
                  (byteVal l2) m todo [b] (si + 6 + 1) fuel rest) as Hp.
    cbv zeta in Hp.
    replace (len [b] + len todo) with (len (b :: todo)) in Hp
      by (rewrite !len_cons; change (len []) with 0; lia).
    rewrite Hp by discriminate.
    cbn [app].
    replace (si + 6 + 1 + len todo) with (si + 6 + len (b :: todo))
      by (rewrite len_cons; lia).
    reflexivity.
Qed.

Lemma toUint8_low (l1 l2 : byte) :
  toUint8 (byteVal l1 + byteVal l2 * 2 ^ 8) = l1.
Proof.
  apply byteVal_inj. rewrite byteVal_toUint8.
  pose proof (byteVal_range l1) as H1. unfold isByte in H1.
  change (2 ^ 8) with 256.
  rewrite Z.mod_add by lia. now apply Z.mod_small.
Qed.

Lemma toUint8_high (l1 l2 : byte) :
  toUint8 (Z.shiftr (byteVal l1 + byteVal l2 * 2 ^ 8) 8) = l2.
Proof.
  apply byteVal_inj. rewrite byteVal_toUint8.
  pose proof (byteVal_range l1) as H1. unfold isByte in H1.
  pose proof (byteVal_range l2) as H2. unfold isByte in H2.
  rewrite Z.shiftr_div_pow2 by lia. change (2 ^ 8) with 256.
  rewrite Z.div_add by lia. rewrite (Z.div_small (byteVal l1)) by lia.
  rewrite Z.add_0_l. now apply Z.mod_small.
Qed.

(** The two checksum bytes and the verdict. *)
Lemma bt_loop_verdict (table : LengthTable) (si m : Z)
  (c i l1 l2 k1 k2 : byte) (payload rest : Buffer) (fuel : nat) :
  let n := byteVal l1 + byteVal l2 * 2 ^ 8 in
  let received := byteVal k1 + byteVal k2 * 2 ^ 8 in
  let computed :=
    fletcherChecksum (frameBody (byteVal c) (byteVal i) n payload) in
  let k :=
    Backtrack.mkPacket (byteVal c) (byteVal i) n (Some payload) received
      (Some (byteVal l1)) (Some (byteVal l2))
      (Some (byteVal k1)) (Some (byteVal k2)) in
  len payload = n ->
  Backtrack.loop table (2 + fuel)
    (Backtrack.mkParser
       (Backtrack.mkPacket (byteVal c) (byteVal i) n (Some payload) 0
          (Some (byteVal l1)) (Some (byteVal l2)) None None)
       n true PACKET_PAYLOAD si m)
    (k1 :: k2 :: rest) 0
  = if computed =? received then
      prepend [if n >? 0 then Push (byteVal c) (byteVal i) (Some payload)
               else PollingMessage k]
        (Backtrack.loop table fuel
           (Backtrack.mkParser Backtrack.packetTemplate 0 false PACKET_SYNC_1
              (si + 2) m)
           rest 0)
    else
      prepend [FailedChecksum k computed]
        (Backtrack.loop table fuel
           (Backtrack.mkParser Backtrack.packetTemplate 0 false PACKET_SYNC_1
              (si + 2 - (n + 6)) m)
           ([c; i; l1; l2] ++ payload ++ [k1; k2] ++ rest) 0).
Proof.
  intros n received computed k Hlen.
  pose proof (byteVal_range c) as Hc. pose proof (byteVal_range i) as Hi.
  assert (Hn : 0 <= n <= 65535).
  { subst n. pose proof (byteVal_range l1). pose proof (byteVal_range l2).
    byte_facts. lia. }
  cbn [Nat.add].
  rewrite (bt_loop_quiet table _ _
             (Backtrack.mkParser
                (Backtrack.mkPacket (byteVal c) (byteVal i) n (Some payload) 0
                   (Some (byteVal l1)) (Some (byteVal l2))
                   (Some (byteVal k1)) None)
                n true PACKET_CHECKSUM (si + 1) m)) by reflexivity.
  rewrite bt_loop_cons.
  unfold Backtrack.react, Backtrack.step, Backtrack.onByte.
  rewrite at_head. bt_simpl.
  rewrite (calcCheckSum_fletcher _ _ _ payload Hc Hi Hn). bt_simpl.
  fold computed. fold received.
  destruct (computed =? received).
  - destruct (n >? 0); bt_simpl; change (0 + 1 =? 0) with false; cbv iota;
      replace (si + 1 + 1) with (si + 2) by lia; reflexivity.
  - rewrite !writeUInt8_byte by assumption. bt_simpl.
    rewrite writeUInt16LE_word by (rewrite Hlen; exact Hn). bt_simpl.
    change (-1 + 1 =? 0) with true. cbv iota.
    rewrite Hlen. subst n. rewrite toUint8_low, toUint8_high.
    rewrite !toUint8_byteVal. rewrite slice_head.
    rewrite <- !app_assoc. cbn [app].
    replace (si + 1 - (len [c; i; l1; l2]
                       + (byteVal l1 + byteVal l2 * 2 ^ 8) + 2) + 1)
      with (si + 2 - (byteVal l1 + byteVal l2 * 2 ^ 8 + 6))
      by (change (len [c; i; l1; l2]) with 4; lia).
    reflexivity.
Qed.

(** The turn on the second checksum byte of a frame whose checksum does
    not match: what it leaves in [data] and [i]. *)
Lemma bt_step_mismatch (table : LengthTable) (si m : Z)
  (c i l1 l2 k1 k2 : byte) (payload data : Buffer) (j : Z) :
  let n := byteVal l1 + byteVal l2 * 2 ^ 8 in
  let received := byteVal k1 + byteVal k2 * 2 ^ 8 in
  let computed :=
    fletcherChecksum (frameBody (byteVal c) (byteVal i) n payload) in
  let k :=
    Backtrack.mkPacket (byteVal c) (byteVal i) n (Some payload) received
      (Some (byteVal l1)) (Some (byteVal l2))
      (Some (byteVal k1)) (Some (byteVal k2)) in
  len payload = n ->
  computed <> received ->
  at_ data j = byteVal k2 ->
  Backtrack.step table
    (Backtrack.mkParser
       (Backtrack.mkPacket (byteVal c) (byteVal i) n (Some payload) 0
          (Some (byteVal l1)) (Some (byteVal l2)) (Some (byteVal k1)) None)
       n true PACKET_CHECKSUM si m)
    data j
  = Ok (Backtrack.mkTurn
          (Backtrack.mkParser Backtrack.packetTemplate 0 false PACKET_SYNC_1
             (si - (n + 6) + 1) m)
          (([c; i; l1; l2] ++ payload ++ [k1; k2]) ++ slice data (j + 1))
          0
          [FailedChecksum k computed]).
Proof.
  intros n received computed k Hlen Hck Hat.
  pose proof (byteVal_range c) as Hc. pose proof (byteVal_range i) as Hi.
  assert (Hn : 0 <= n <= 65535).
  { subst n. pose proof (byteVal_range l1). pose proof (byteVal_range l2).
    byte_facts. lia. }
  unfold Backtrack.step, Backtrack.onByte. rewrite Hat. bt_simpl.
  rewrite (calcCheckSum_fletcher _ _ _ payload Hc Hi Hn). bt_simpl.
  fold computed. fold received.
  apply Z.eqb_neq in Hck. rewrite Hck.
  rewrite !writeUInt8_byte by assumption. bt_simpl.
  rewrite writeUInt16LE_word by (rewrite Hlen; exact Hn). bt_simpl.
  rewrite Hlen. subst n. rewrite toUint8_low, toUint8_high.
  rewrite !toUint8_byteVal.
  rewrite <- !app_assoc. cbn [app].
  change (-1 + 1) with 0.
  replace (si - (len [c; i; l1; l2]
                 + (byteVal l1 + byteVal l2 * 2 ^ 8) + 2) + 1)
    with (si - (byteVal l1 + byteVal l2 * 2 ^ 8 + 6) + 1)
    by (change (len [c; i; l1; l2]) with 4; lia).
  reflexivity.
Qed.

(** A whole frame whose length passes the check, from a decoder that
    waits for a sync byte or for the sync trailer. *)
Lemma bt_transform_frame (table : LengthTable) (this : Backtrack.Parser)
  (c i l1 l2 k1 k2 : byte) (payload rest : Buffer) :
  let n := byteVal l1 + byteVal l2 * 2 ^ 8 in
  let received := byteVal k1 + byteVal k2 * 2 ^ 8 in
  let computed :=
    fletcherChecksum (frameBody (byteVal c) (byteVal i) n payload) in
  let k :=
    Backtrack.mkPacket (byteVal c) (byteVal i) n (Some payload) received
      (Some (byteVal l1)) (Some (byteVal l2))
      (Some (byteVal k1)) (Some (byteVal k2)) in
  let idle := fun si =>
    Backtrack.mkParser Backtrack.packetTemplate 0 false PACKET_SYNC_1 si
      (Backtrack.maxPacketPayloadLength this) in
  Backtrack.Inv table this ->
  Backtrack.packetState this = PACKET_SYNC_1 ->
  accepts table (Backtrack.maxPacketPayloadLength this)
    (byteVal c) (byteVal i) n = true ->
  len payload = n ->
  Backtrack._transform table this
    ([xb5; x62; c; i; l1; l2] ++ payload ++ [k1; k2] ++ rest)
  = if computed =? received then
      prepend [if n >? 0 then Push (byteVal c) (byteVal i) (Some payload)
               else PollingMessage k]
        (Backtrack._transform table
           (idle (Backtrack.streamIndex this + 8 + n)) rest)
    else
      prepend [FailedChecksum k computed]
        (Backtrack._transform table
           (idle (Backtrack.streamIndex this + 2))
           ([c; i; l1; l2] ++ payload ++ [k1; k2] ++ rest)).
Proof.
  intros n received computed k idle HI Hst Hacc Hlen.
  assert (Hshape : exists sf si m,
             this = Backtrack.mkParser Backtrack.packetTemplate 0 sf
                      PACKET_SYNC_1 si m).
  { inversion HI; subst; cbn in Hst; try discriminate; eauto. }
  destruct Hshape as [sf [si [m ->]]].
  cbn [Backtrack.maxPacketPayloadLength Backtrack.streamIndex] in *.
  subst idle. cbv beta.
  destruct (computed =? received) eqn:Eck.
  - destruct (bt_transform_ends table
                (Backtrack.mkParser Backtrack.packetTemplate 0 false
                   PACKET_SYNC_1 (si + 8 + n) m) rest
                (Backtrack.InvIdle table _ _)) as [q [o [E _]]].
    rewrite E.
    apply (bt_transform_loop table _ _
             (6 + (List.length payload
                   + (2 + Backtrack.turnsFor
                            (Backtrack.mkParser Backtrack.packetTemplate 0
                               false PACKET_SYNC_1 (si + 8 + n) m) rest))));
      [exact HI|].
    rewrite (bt_loop_frame table sf si m c i l1 l2 payload _ _ Hacc Hlen).
    fold n.
    rewrite (bt_loop_verdict table _ m c i l1 l2 k1 k2 payload rest _ Hlen).
    fold n. fold received. fold computed. rewrite Eck.
    replace (si + 6 + n + 2) with (si + 8 + n) by lia.
    unfold Backtrack._transform in E. rewrite E. reflexivity.
  - destruct (bt_transform_ends table
                (Backtrack.mkParser Backtrack.packetTemplate 0 false
                   PACKET_SYNC_1 (si + 2) m)
                ([c; i; l1; l2] ++ payload ++ [k1; k2] ++ rest)
                (Backtrack.InvIdle table _ _)) as [q [o [E _]]].
    rewrite E.
    apply (bt_transform_loop table _ _
             (6 + (List.length payload
                   + (2 + Backtrack.turnsFor
                            (Backtrack.mkParser Backtrack.packetTemplate 0
                               false PACKET_SYNC_1 (si + 2) m)
                            ([c; i; l1; l2] ++ payload ++ [k1; k2] ++ rest)))));
      [exact HI|].
    rewrite (bt_loop_frame table sf si m c i l1 l2 payload _ _ Hacc Hlen).
    fold n.
    rewrite (bt_loop_verdict table _ m c i l1 l2 k1 k2 payload rest _ Hlen).
    fold n. fold received. fold computed. rewrite Eck.
    replace (si + 6 + n + 2 - (n + 6)) with (si + 2) by lia.
    unfold Backtrack._transform in E. rewrite E. reflexivity.
Qed.

(** The maximum length is never written after the constructor. *)
Lemma bt_react_max (table : LengthTable) (this : Backtrack.Parser) (b : byte)
  t :
  Backtrack.react table this b = Ok t ->
  Backtrack.maxPacketPayloadLength (Backtrack.parser t)
  = Backtrack.maxPacketPayloadLength this.
Proof.
  unfold Backtrack.react, Backtrack.step, Backtrack.onByte.
  destruct this as [[c id n pl ck l1 l2 c1 c2] p sf st si m].
  destruct sf; [destruct st|]; bt_simpl;
    repeat match goal with
      | |- context [if (?x =? ?y) then _ else _] => destruct (x =? y)
      | |- context [if (?x >? ?y) then _ else _] => destruct (x >? y)
      | |- context [if (?x >=? ?y) then _ else _] => destruct (x >=? y)
      | |- context [if (negb ?x && ?y) then _ else _] => destruct (negb x && y)
      | |- context [if (negb ?x) then _ else _] => destruct (negb x)
      | |- context [table ?x ?y] => destruct (table x y)
      | |- context [alloc ?x] => destruct (alloc x)
      | |- context [calcCheckSum ?x ?y ?z ?w] => destruct (calcCheckSum x y z w)
      | |- context [writeUInt8 ?x] => destruct (writeUInt8 x)
      | |- context [writeUInt16LE ?x] => destruct (writeUInt16LE x)
      | |- context [match ?x with Some _ => _ | None => _ end] =>
          is_var x; destruct x
      | _ => progress bt_simpl
      end;
    intros [= <-] || discriminate; reflexivity.
Qed.

Lemma bt_loop_max (table : LengthTable) (fuel : nat) :
  forall (this : Backtrack.Parser) (rest : Buffer) q outs,
    Backtrack.loop table fuel this rest 0 = Some (Ok (q, outs)) ->
    Backtrack.maxPacketPayloadLength q
    = Backtrack.maxPacketPayloadLength this.
Proof.
  induction fuel as [|fuel IH]; intros this rest q outs H.
  - destruct rest as [|b rest].
    + rewrite bt_loop_nil in H. now injection H as <- _.
    + cbn [Backtrack.loop] in H. rewrite len_cons in H.
      pose proof (len_nonneg rest).
      destruct (0 <? len rest + 1) eqn:E; [discriminate|].
      apply Z.ltb_ge in E. lia.
  - destruct rest as [|b rest].
    + rewrite bt_loop_nil in H. now injection H as <- _.
    + rewrite bt_loop_cons in H.
      destruct (Backtrack.react table this b) as [t|e] eqn:E; [|discriminate].
      destruct (Backtrack.loop table fuel _ _ 0) as [[[q1 o1]|e]|] eqn:E1;
        try discriminate.
      cbn [prepend fst snd] in H. injection H as <- _.
      rewrite (IH _ _ _ _ E1). exact (bt_react_max table this b t E).
Qed.

(** What a turn leaves in [data] and [i]: the next byte of the same
    buffer, or, with [FailedChecksum], the bytes of the frame in front of
    the unread rest. *)
Lemma bt_step_rewind (table : LengthTable) (this : Backtrack.Parser)
  (data : Buffer) (i : Z) t :
  Backtrack.Inv table this ->
  Backtrack.step table this data i = Ok t ->
  (Backtrack.data t = data /\ Backtrack.pos t = i + 1
   /\ forall k cs, ~ In (FailedChecksum k cs) (Backtrack.outputs t))
  \/ (exists k cs body,
         Backtrack.outputs t = [FailedChecksum k cs]
         /\ Backtrack.pos t = 0
         /\ Backtrack.data t = body ++ slice data (i + 1)
         /\ len body = Backtrack.packetLength k + 6).
Proof.
  intros HI.
  inversion HI; subst; unfold Backtrack.step, Backtrack.onByte;
    set (v := at_ data i); clearbody v; bt_simpl.
  9: {
    assert (Hn : 0 <= l1 + l2 * 2 ^ 8 <= 65535) by (byte_facts; lia).
    rewrite calcCheckSum_fletcher by auto. bt_simpl.
    destruct (_ =? _).
    - destruct (_ >? _); intros [= <-]; left; bt_simpl;
        (repeat split; try reflexivity);
        intros k cs [E|[]]; discriminate.
    - rewrite !writeUInt8_byte by auto. bt_simpl.
      match goal with
      | Hl : len buf = _ |- _ =>
          rewrite writeUInt16LE_word by (rewrite Hl; exact Hn)
      end.
      bt_simpl. intros [= <-]. right. bt_simpl.
      eexists. eexists.
      exists ([toUint8 c; toUint8 i0;
               toUint8 (len buf); toUint8 (Z.shiftr (len buf) 8)]
                ++ buf ++ [toUint8 ck1; toUint8 v]).
      split; [reflexivity|]. split; [reflexivity|]. split.
      + rewrite <- !app_assoc. reflexivity.
      + rewrite !len_app. bt_simpl.
        match goal with Hl : len buf = _ |- _ => rewrite Hl end.
        change (len [toUint8 c; toUint8 i0; toUint8 (l1 + l2 * 2 ^ 8);
                     toUint8 (Z.shiftr (l1 + l2 * 2 ^ 8) 8)]) with 4.
        change (len [toUint8 ck1; toUint8 v]) with 2. lia. }
  all: repeat match goal with
         | |- context [if (?x =? ?y) then _ else _] => destruct (x =? y)
         | |- context [if (?x >=? ?y) then _ else _] => destruct (x >=? y)
         | |- context [if (negb ?x && ?y) then _ else _] =>
             destruct (negb x && y)
         | |- context [if (negb ?x) then _ else _] => destruct (negb x)
         | |- context [match ?f ?x ?y with Some _ => _ | None => _ end] =>
             destruct (f x y)
         | |- context [alloc ?x] => destruct (alloc x)
         | |- context [match ?x with Some _ => _ | None => _ end] =>
             is_var x; destruct x
         | _ => progress bt_simpl
         end;
    intros [= <-] || discriminate; left; bt_simpl;
    (repeat split; try reflexivity);
    intros k cs Hin; simpl in Hin; intuition discriminate.
Qed.

(** ** The two versions, turn by turn *)

Lemma sim_react (table : LengthTable) (this : Backtrack.Parser) (b : byte) :
  Backtrack.Inv table this ->
  exists t,
    Backtrack.react table this b = Ok t
    /\ Plain.step table (asPlain this) (byteVal b)
       = Ok (Plain.setStreamIndex (Backtrack.streamIndex this + 1)
               (asPlain (Backtrack.parser t)),
             map eraseOutput (Backtrack.outputs t))
    /\ (Backtrack.pos t = 1
        /\ Backtrack.streamIndex (Backtrack.parser t)
           = Backtrack.streamIndex this + 1
        /\ existsb isFailedChecksum (Backtrack.outputs t) = false
        \/ Backtrack.pos t = 0
           /\ exists k cs, Backtrack.outputs t = [FailedChecksum k cs]).
Proof.
  intros HI.
  inversion HI; subst;
    unfold Backtrack.react, Backtrack.step, Backtrack.onByte,
      Plain.step, Plain.onByte, asPlain;
    rewrite at_head; bt_simpl; pl_simpl.
  9: {
    assert (Hn : 0 <= l1 + l2 * 2 ^ 8 <= 65535) by (byte_facts; lia).
    rewrite calcCheckSum_fletcher by auto. bt_simpl. pl_simpl.
    destruct (_ =? _).
    - destruct (_ >? _); eexists; (split; [reflexivity|]);
        (split; [reflexivity|]); left; repeat split; reflexivity.
    - rewrite !writeUInt8_byte by auto. bt_simpl.
      match goal with
      | Hl : len buf = _ |- _ =>
          rewrite writeUInt16LE_word by (rewrite Hl; exact Hn)
      end.
      bt_simpl. eexists. split; [reflexivity|]. split; [reflexivity|].
      right. split; [reflexivity|]. eauto. }
  all: repeat match goal with
         | |- context [if (?x =? ?y) then _ else _] => destruct (x =? y)
         | |- context [if (?x >=? ?y) then _ else _] => destruct (x >=? y)
         | |- context [if (negb ?x && ?y) then _ else _] =>
             destruct (negb x && y)
         | |- context [if (negb ?x) then _ else _] => destruct (negb x)
         | |- context [match ?f ?x ?y with Some _ => _ | None => _ end] =>
             destruct (f x y)
         | |- context [alloc 0] => change (alloc 0) with (Ok (@nil byte))
         | |- context [alloc ?x] => rewrite (alloc_ok x) by lia
         | H : _ \/ _ |- _ => destruct H as [[-> ->]|[? [-> [? ?]]]]
         | _ => progress (bt_simpl; pl_simpl)
         end;
    try (eexists; (split; [reflexivity|]); (split; [reflexivity|]);
         left; repeat split; reflexivity).
Qed.

Lemma asPlain_streamIndex (this : Backtrack.Parser) :
  Plain.setStreamIndex (Backtrack.streamIndex this) (asPlain this)
  = asPlain this.
Proof. destruct this. reflexivity. Qed.

Lemma isFailedChecksum_erase (outs : list (Output Backtrack.Packet)) :
  existsb isFailedChecksum (map eraseOutput outs)
  = existsb isFailedChecksum outs.
Proof.
  induction outs as [|o outs IH]; [reflexivity|].
  cbn [map existsb]. rewrite IH. now destruct o.
Qed.

(** Without a failed checksum the second version reads the bytes as the
    first one does. *)
Lemma sim_loop_second (table : LengthTable) (fuel : nat) :
  forall (this : Backtrack.Parser) (rest : Buffer) q outs,
    Backtrack.Inv table this ->
    Backtrack.loop table fuel this rest 0 = Some (Ok (q, outs)) ->
    existsb isFailedChecksum outs = false ->
    Plain.loop table (asPlain this) rest
    = Ok (asPlain q, map eraseOutput outs).
Proof.
  induction fuel as [|fuel IH]; intros this rest q outs HI H Hno;
    destruct rest as [|b rest];
    try (rewrite bt_loop_nil in H; injection H as <- <-; reflexivity).
  - cbn [Backtrack.loop] in H. rewrite len_cons in H.
    pose proof (len_nonneg rest).
    destruct (0 <? len rest + 1) eqn:E; [discriminate|].
    apply Z.ltb_ge in E. lia.
  - rewrite bt_loop_cons in H.
    destruct (sim_react table this b HI) as [t [Et [EA Hcase]]].
    destruct (bt_react_Inv table this b HI) as [t' [Et' [HI' _]]].
    rewrite Et in Et'. injection Et' as <-.
    rewrite Et in H.
    destruct (Backtrack.loop table fuel _ _ 0) as [[[q1 o1]|e]|] eqn:E1;
      try discriminate.
    cbn [prepend fst snd] in H. injection H as <- <-.
    rewrite existsb_app in Hno. apply orb_false_iff in Hno.
    destruct Hno as [Hno0 Hno1].
    destruct Hcase as [[Hp [Hsi _]]|[_ [k [cs Ho]]]].
    + rewrite Hp in E1. change (1 =? 0) with false in E1. cbv iota in E1.
      cbn [Plain.loop]. rewrite EA. cbn [bind fst snd].
      rewrite <- Hsi, asPlain_streamIndex.
      rewrite (IH _ _ _ _ HI' E1 Hno1). cbn [bind fst snd].
      now rewrite map_app.
    + rewrite Ho in Hno0. discriminate.
Qed.

Lemma sim_loop_first (table : LengthTable) (rest : Buffer) :
  forall (this : Backtrack.Parser) qA oA,
    Backtrack.Inv table this ->
    Plain.loop table (asPlain this) rest = Ok (qA, oA) ->
    existsb isFailedChecksum oA = false ->
    exists q outs,
      Backtrack.loop table (List.length rest) this rest 0
      = Some (Ok (q, outs))
      /\ qA = asPlain q /\ oA = map eraseOutput outs.
Proof.
  induction rest as [|b rest IH]; intros this qA oA HI H Hno.
  - injection H as <- <-. exists this, []. rewrite bt_loop_nil. auto.
  - cbn [Plain.loop] in H.
    destruct (sim_react table this b HI) as [t [Et [EA Hcase]]].
    destruct (bt_react_Inv table this b HI) as [t' [Et' [HI' _]]].
    rewrite Et in Et'. injection Et' as <-.
    rewrite EA in H. cbn [bind fst snd] in H.
    destruct (Plain.loop table _ rest) as [[q1 o1]|e] eqn:E1;
      [|discriminate].
    cbn [bind fst snd] in H. injection H as <- <-.
    rewrite existsb_app in Hno. apply orb_false_iff in Hno.
    destruct Hno as [Hno0 Hno1]. rewrite isFailedChecksum_erase in Hno0.
    destruct Hcase as [[Hp [Hsi _]]|[_ [k [cs Ho]]]].
    + rewrite <- Hsi, asPlain_streamIndex in E1.
      destruct (IH _ _ _ HI' E1 Hno1) as [q [outs [E [-> ->]]]].
      exists q, (Backtrack.outputs t ++ outs).
      cbn [List.length]. rewrite bt_loop_cons, Et, Hp.
      change (1 =? 0) with false. cbv iota. rewrite E.
      cbn [prepend fst snd]. rewrite map_app. auto.
    + rewrite Ho in Hno0. discriminate.
Qed.

(** * The claims *)

(** C1, as amended.  In the second version a frame whose length passed
    the check and whose checksum does not match gives [FailedChecksum]
    with the frame and the computed checksum; the turn that reads the
    second checksum byte puts [class, id, lengthLow, lengthHigh,
    payload..., checksumLow, checksumHigh] in front of the unread input,
    sets the read position to the first of these bytes and resets the
    decoder; so the run goes on as that of an idle decoder over these
    bytes and the unread input, with the stream index two past where the
    frame began.  A valid frame with a payload inside these bytes is
    handed out as a packet when the bytes in front of it leave the
    decoder waiting for a sync byte or for the sync trailer. *)
Theorem C1_failed_checksum_rescans (table : LengthTable)
  (this : Backtrack.Parser) (c i l1 l2 k1 k2 : byte) (payload rest : Buffer) :
  let n := byteVal l1 + byteVal l2 * 2 ^ 8 in
  let received := byteVal k1 + byteVal k2 * 2 ^ 8 in
  let computed :=
    fletcherChecksum (frameBody (byteVal c) (byteVal i) n payload) in
  let k :=
    Backtrack.mkPacket (byteVal c) (byteVal i) n (Some payload) received
      (Some (byteVal l1)) (Some (byteVal l2))
      (Some (byteVal k1)) (Some (byteVal k2)) in
  let m := Backtrack.maxPacketPayloadLength this in
  let idle :=
    Backtrack.mkParser Backtrack.packetTemplate 0 false PACKET_SYNC_1
      (Backtrack.streamIndex this + 2) m in
  let body := [c; i; l1; l2] ++ payload ++ [k1; k2] in
  Backtrack.reachable table this ->
  Backtrack.packetState this = PACKET_SYNC_1 ->
  accepts table m (byteVal c) (byteVal i) n = true ->
  len payload = n ->
  computed <> received ->
  (forall (data : Buffer) (j si : Z),
      at_ data j = byteVal k2 ->
      Backtrack.step table
        (Backtrack.mkParser
           (Backtrack.mkPacket (byteVal c) (byteVal i) n (Some payload) 0
              (Some (byteVal l1)) (Some (byteVal l2))
              (Some (byteVal k1)) None)
           n true PACKET_CHECKSUM si m)
        data j
      = Ok (Backtrack.mkTurn
              (Backtrack.mkParser Backtrack.packetTemplate 0 false
                 PACKET_SYNC_1 (si - (n + 6) + 1) m)
              (body ++ slice data (j + 1)) 0
              [FailedChecksum k computed]))
  /\ (exists q o,
        Backtrack._transform table idle (body ++ rest) = Some (Ok (q, o))
        /\ Backtrack._transform table this ([xb5; x62] ++ body ++ rest)
           = Some (Ok (q, FailedChecksum k computed :: o)))
  /\ (forall (pre post payload' : Buffer) (c' i' l1' l2' k1' k2' : byte)
             (q : Backtrack.Parser) (o1 : list (Output Backtrack.Packet)),
         let n' := byteVal l1' + byteVal l2' * 2 ^ 8 in
         body ++ rest
         = pre ++ ([xb5; x62; c'; i'; l1'; l2'] ++ payload' ++ [k1'; k2'])
               ++ post ->
         Backtrack._transform table idle pre = Some (Ok (q, o1)) ->
         Backtrack.packetState q = PACKET_SYNC_1 ->
         accepts table m (byteVal c') (byteVal i') n' = true ->
         len payload' = n' -> 0 < n' ->
         fletcherChecksum (frameBody (byteVal c') (byteVal i') n' payload')
         = byteVal k1' + byteVal k2' * 2 ^ 8 ->
         exists q' o2,
           Backtrack._transform table this ([xb5; x62] ++ body ++ rest)
           = Some (Ok (q',
                       FailedChecksum k computed
                         :: o1
                         ++ Push (byteVal c') (byteVal i') (Some payload')
                         :: o2))).
Proof.
  intros n received computed k m idle body Hr Hst Hacc Hlen Hck.
  apply bt_reachable_Inv in Hr.
  assert (Hfirst :
            Backtrack._transform table this ([xb5; x62] ++ body ++ rest)
            = prepend [FailedChecksum k computed]
                (Backtrack._transform table idle (body ++ rest))).
  { pose proof (bt_transform_frame table this c i l1 l2 k1 k2 payload rest
                  Hr Hst Hacc Hlen) as H.
    cbv zeta in H. fold n in H. fold received in H. fold computed in H.
    apply Z.eqb_neq in Hck. rewrite Hck in H.
    subst body. cbn [app] in *. rewrite <- !app_assoc. cbn [app].
    exact H. }
  assert (HIidle : Backtrack.Inv table idle) by constructor.
  split.
  { intros data j si Hat.
    exact (bt_step_mismatch table si m c i l1 l2 k1 k2 payload data j
             Hlen Hck Hat). }
  split.
  { destruct (bt_transform_ends table idle (body ++ rest) HIidle)
      as [q [o [E _]]].
    exists q, o. split; [exact E|]. rewrite Hfirst, E. reflexivity. }
  intros pre post payload' c' i' l1' l2' k1' k2' q o1 n' Hsplit Hpre Hq
    Hacc' Hlen' Hpos' Hck'.
  rewrite Hfirst, Hsplit.
  rewrite (bt_transform_app table idle pre _ HIidle), Hpre.
  cbn [fst snd].
  assert (HIq : Backtrack.Inv table q).
  { destruct (bt_transform_ends table idle pre HIidle) as [q0 [o0 [E HI0]]].
    rewrite E in Hpre. injection Hpre as <- _. exact HI0. }
  assert (Hm : Backtrack.maxPacketPayloadLength q = m)
    by exact (bt_loop_max table _ idle pre q o1 Hpre).
  rewrite <- Hm in Hacc'.
  rewrite <- !app_assoc.
  pose proof (bt_transform_frame table q c' i' l1' l2' k1' k2' payload' post
                HIq Hq Hacc' Hlen') as H.
  cbv zeta in H. fold n' in H.
  apply Z.eqb_eq in Hck'. rewrite Hck' in H.
  replace (n' >? 0) with true in H by (symmetry; apply Z.gtb_lt; lia).
  cbn [app] in H. cbn [app]. rewrite H.
  destruct (bt_transform_ends table
              (Backtrack.mkParser Backtrack.packetTemplate 0 false
                 PACKET_SYNC_1 (Backtrack.streamIndex q + 8 + n')
                 (Backtrack.maxPacketPayloadLength q)) post
              (Backtrack.InvIdle table _ _)) as [q' [o2 [E _]]].
  rewrite E. cbn [prepend fst snd app]. eauto.
Qed.

Lemma C1_witness :
  exists q' o2,
    Backtrack._transform noTable freshBacktrack
      ([xb5; x62] ++ ([x01; x02; x09; x00] ++ embeddingPayload ++ [x00; x00])
         ++ [])
    = Some (Ok (q',
                FailedChecksum
                  (Backtrack.mkPacket 1 2 9 (Some embeddingPayload) 0
                     (Some 9) (Some 0) (Some 0) (Some 0))
                  7992
                  :: [] ++ Push 1 2 (Some [xff]) :: o2)).
Proof.
  assert (Hr : Backtrack.reachable noTable freshBacktrack)
    by (apply (Backtrack.reach_new noTable NoOptions); reflexivity).
  assert (Hne : fletcherChecksum (frameBody 1 2 9 embeddingPayload) <> 0)
    by (vm_compute; discriminate).
  destruct (C1_failed_checksum_rescans noTable freshBacktrack
              x01 x02 x09 x00 x00 x00 embeddingPayload []
              Hr eq_refl eq_refl eq_refl Hne) as [_ [_ Hb]].
  assert (Hpos : 0 < 1) by lia.
  exact (Hb [x01; x02; x09; x00] [x00; x00] [xff] x01 x02 x01 x00 x03 x0f
           (Backtrack.mkParser Backtrack.packetTemplate 0 false
              PACKET_SYNC_1 6 300)
           [] eq_refl eq_refl eq_refl eq_refl eq_refl Hpos eq_refl).
Defined.

(** C1 as it is written fails: the payload of the corrupt frame holds
    [0xB5 0x62] and then a whole valid frame, which on its own is handed
    out as a packet; scanned again, the first [0xB5 0x62] opens a frame
    whose length is over the maximum, and dropping that one takes the
    start of the valid frame with it. *)
Lemma C1_counterexample :
  (exists q,
      Backtrack._transform noTable freshBacktrack validFrame
      = Some (Ok (q, [Push 10 11 (Some [xff])])))
  /\ (exists q,
        Backtrack._transform noTable freshBacktrack
          ([xb5; x62; x01; x02; x0b; x00]
             ++ ([xb5; x62] ++ validFrame) ++ [x00; x00])
        = Some (Ok (q,
                    [FailedChecksum
                       (Backtrack.mkPacket 1 2 11
                          (Some ([xb5; x62] ++ validFrame)) 0
                          (Some 11) (Some 0) (Some 0) (Some 0))
                       54982;
                     PayloadTooLarge
                       (Backtrack.mkPacket 181 98 2826 None 0
                          (Some 10) (Some 11) None None)
                       300]))).
Proof.
  split; eexists; vm_compute; reflexivity.
Qed.

(** C2. From any state that a decoder can be in, the chunks of a stream
    written one after the other give the same outputs in the same order,
    and leave the same decoder, as their bytes written as one chunk.  In
    both versions. *)
Theorem C2_chunking_invariance (table : LengthTable)
  (thisA : Plain.Parser) (thisB : Backtrack.Parser) (chunks : list Buffer) :
  Plain.reachable table thisA ->
  Backtrack.reachable table thisB ->
  (exists q outs,
      Plain.feed table thisA chunks = Ok (q, outs)
      /\ Plain._transform table thisA (concat chunks) = Ok (q, outs))
  /\ (exists q outs,
        Backtrack.feed table thisB chunks = Some (Ok (q, outs))
        /\ Backtrack._transform table thisB (concat chunks)
           = Some (Ok (q, outs))).
Proof.
  intros HA HB.
  apply pl_reachable_Inv in HA. apply bt_reachable_Inv in HB.
  split.
  - destruct (pl_feed_ends table chunks thisA HA) as [q [outs [E _]]].
    exists q, outs. split; [exact E|].
    rewrite <- pl_feed_concat. exact E.
  - destruct (bt_feed_ends table chunks thisB HB) as [q [outs [E _]]].
    exists q, outs. split; [exact E|].
    rewrite <- (bt_feed_concat table chunks thisB HB). exact E.
Qed.

Lemma C2_witness :
  (exists q outs,
      Plain.feed noTable freshPlain
        [[xb5]; [x62; x0a; x0b; x01]; []; [x00; xff; x15]; [x60]]
      = Ok (q, outs)
      /\ Plain._transform noTable freshPlain validFrame = Ok (q, outs))
  /\ (exists q outs,
        Backtrack.feed noTable freshBacktrack
          [[xb5]; [x62; x0a; x0b; x01]; []; [x00; xff; x15]; [x60]]
        = Some (Ok (q, outs))
        /\ Backtrack._transform noTable freshBacktrack validFrame
           = Some (Ok (q, outs))).
Proof.
  apply (C2_chunking_invariance noTable freshPlain freshBacktrack
           [[xb5]; [x62; x0a; x0b; x01]; []; [x00; xff; x15]; [x60]]).
  - apply (Plain.reach_new noTable NoOptions). reflexivity.
  - apply (Backtrack.reach_new noTable NoOptions). reflexivity.
Defined.

(** C3. For a class, an id, a 16-bit length and a payload,
    [calcCheckSum] is the two running sums of the specification over
    [class, id, lengthLow, lengthHigh, payload...], with value
    [(b << 8) | a]; and on the second checksum byte both versions
    compare this value with [checksumLow + checksumHigh * 256] and hand
    out the packet, the polling event or the failure event
    accordingly. *)
Theorem C3_checksum_is_fletcher (table : LengthTable) (c i n : Z)
  (payload : Buffer) :
  isByte c -> isByte i -> 0 <= n <= 65535 -> len payload = n ->
  calcCheckSum c i n (Some payload)
  = Ok (fletcherChecksum (frameBody c i n payload))
  /\ (forall (ck1 position si m : Z) (b2 : byte),
        Plain.step table
          (Plain.mkParser (Plain.mkPacket c i n (Some payload) ck1)
             position true PACKET_CHECKSUM si m)
          (byteVal b2)
        = Ok (Plain.mkParser Plain.packetTemplate 0 false PACKET_SYNC_1
                (si + 1) m,
              [let received := ck1 + byteVal b2 * 2 ^ 8 in
               let k := Plain.mkPacket c i n (Some payload) received in
               let computed := fletcherChecksum (frameBody c i n payload) in
               if computed =? received then
                 if n >? 0 then Push c i (Some payload) else PollingMessage k
               else FailedChecksum k computed]))
  /\ (forall (ck0 ck1 position si m : Z) (l1 l2 c2 : option Z)
             (data : Buffer) (j : Z),
        exists t,
          Backtrack.step table
            (Backtrack.mkParser
               (Backtrack.mkPacket c i n (Some payload) ck0 l1 l2
                  (Some ck1) c2)
               position true PACKET_CHECKSUM si m)
            data j
          = Ok t
          /\ Backtrack.outputs t
             = [let received := ck1 + at_ data j * 2 ^ 8 in
                let k :=
                  Backtrack.mkPacket c i n (Some payload) received l1 l2
                    (Some ck1) (Some (at_ data j)) in
                let computed := fletcherChecksum (frameBody c i n payload) in
                if computed =? received then
                  if n >? 0 then Push c i (Some payload) else PollingMessage k
                else FailedChecksum k computed]).
Proof.
  intros Hc Hi Hn Hlen.
  pose proof (calcCheckSum_fletcher c i n payload Hc Hi Hn) as Hcs.
  split; [exact Hcs|]. split.
  - intros ck1 position si m b2.
    unfold Plain.step, Plain.onByte. pl_simpl. rewrite Hcs. pl_simpl.
    destruct (_ =? _); [destruct (_ >? _)|]; reflexivity.
  - intros ck0 ck1 position si m l1 l2 c2 data j.
    unfold Backtrack.step, Backtrack.onByte. bt_simpl. rewrite Hcs. bt_simpl.
    destruct (_ =? _); [destruct (_ >? _)|].
    + eexists. split; reflexivity.
    + eexists. split; reflexivity.
    + rewrite !writeUInt8_byte by assumption. bt_simpl.
      rewrite writeUInt16LE_word by (rewrite Hlen; exact Hn). bt_simpl.
      eexists. split; reflexivity.
Qed.

Lemma C3_witness :
  calcCheckSum 1 2 1 (Some [xff]) = Ok 3843
  /\ fletcherChecksum (frameBody 1 2 1 [xff]) = 3843.
Proof.
  assert (H1 : isByte 1) by (unfold isByte; lia).
  assert (H2 : isByte 2) by (unfold isByte; lia).
  assert (H3 : 0 <= 1 <= 65535) by lia.
  destruct (C3_checksum_is_fletcher (fun _ _ => None) 1 2 1 [xff]
              H1 H2 H3 eq_refl) as [H _].
  split; [exact H | reflexivity].
Defined.



(** C5, as amended.  In the second version the loop over a chunk ends,
    from every state that the decoder can be in: [turnsFor] turns, or
    more, give the result.  A turn reads the next byte of the buffer,
    except after a failed checksum, when it puts [length + 6] bytes in
    front of the unread rest (class, id, two length bytes, the payload
    and two checksum bytes) and reads on from the first of them. *)
Theorem C5_loop_ends (table : LengthTable) (this : Backtrack.Parser) :
  Backtrack.reachable table this ->
  (forall chunk : Buffer,
      exists q outs,
        Backtrack._transform table this chunk = Some (Ok (q, outs))
        /\ forall fuel : nat,
            (Backtrack.turnsFor this chunk <= fuel)%nat ->
            Backtrack.loop table fuel this chunk 0 = Some (Ok (q, outs)))
  /\ (forall (data : Buffer) (i : Z) t,
         Backtrack.step table this data i = Ok t ->
         (Backtrack.data t = data /\ Backtrack.pos t = i + 1
          /\ forall k cs, ~ In (FailedChecksum k cs) (Backtrack.outputs t))
         \/ (exists k cs body,
                Backtrack.outputs t = [FailedChecksum k cs]
                /\ Backtrack.pos t = 0
                /\ Backtrack.data t = body ++ slice data (i + 1)
                /\ len body = Backtrack.packetLength k + 6)).
Proof.
  intros Hr. apply bt_reachable_Inv in Hr. split.
  - intros chunk.
    destruct (bt_transform_ends table this chunk Hr) as [q [outs [E _]]].
    exists q, outs. split; [exact E|].
    intros fuel Hf. unfold Backtrack._transform in E.
    replace fuel
      with (Backtrack.turnsFor this chunk
            + (fuel - Backtrack.turnsFor this chunk))%nat by lia.
    now apply bt_loop_more.
  - intros data i t H. exact (bt_step_rewind table this data i t Hr H).
Qed.

Lemma C5_witness :
  exists q outs,
    Backtrack._transform noTable freshBacktrack
      ([xb5; x62; x01; x02; x09; x00] ++ embeddingPayload ++ [x00; x00])
    = Some (Ok (q, outs)).
Proof.
  assert (Hr : Backtrack.reachable noTable freshBacktrack)
    by (apply (Backtrack.reach_new noTable NoOptions); reflexivity).
  destruct (proj1 (C5_loop_ends noTable freshBacktrack Hr)
              ([xb5; x62; x01; x02; x09; x00] ++ embeddingPayload
                 ++ [x00; x00])) as [q [outs [E _]]].
  exists q, outs. exact E.
Defined.

(** C5 as it is written fails: after a failed checksum on a frame with
    one payload byte, seven bytes are in front of the unread rest, two
    more than [length + 4]. *)
Lemma C5_counterexample :
  exists this t,
    Backtrack._transform noTable freshBacktrack
      [xb5; x62; x01; x02; x01; x00; xff; x03]
    = Some (Ok (this, []))
    /\ Backtrack.packetLength (Backtrack.packet this) = 1
    /\ Backtrack.step noTable this [x0c; x07] 0 = Ok t
    /\ Backtrack.pos t = 0
    /\ Backtrack.data t = [x01; x02; x01; x00; xff; x03; x0c] ++ [x07]
    /\ ~ (len [x01; x02; x01; x00; xff; x03; x0c]
          <= Backtrack.packetLength (Backtrack.packet this) + 4).
Proof.
  eexists. eexists.
  split; [vm_compute; reflexivity|].
  split; [reflexivity|].
  split; [vm_compute; reflexivity|].
  split; [reflexivity|].
  split; [reflexivity|].
  vm_compute. intros H. apply H. reflexivity.
Qed.

(** C6. When the second checksum byte arrives and the received checksum
    is the computed one, the decoder hands out exactly the polling event
    for a length of 0 and exactly the packet (class, id, payload, the
    payload as long as the length says) for a greater length; the length
    is never negative; the decoder is then the idle one, one byte
    further.  In every state that the decoder can be in, in both
    versions. *)
Theorem C6_matching_checksum (table : LengthTable) :
  (forall (this : Plain.Parser) (b : byte),
      let k := Plain.packet this in
      let received := Plain.packetChecksum k + byteVal b * 2 ^ 8 in
      Plain.reachable table this ->
      Plain.packetStartFound this = true ->
      Plain.packetState this = PACKET_CHECKSUM ->
      calcCheckSum (Plain.packetClass k) (Plain.packetId k)
        (Plain.packetLength k) (Plain.packetPayload k) = Ok received ->
      let idle :=
        Plain.mkParser Plain.packetTemplate 0 false PACKET_SYNC_1
          (Plain.streamIndex this + 1) (Plain.maxPacketPayloadLength this) in
      exists payload,
        Plain.packetPayload k = Some payload
        /\ len payload = Plain.packetLength k
        /\ 0 <= Plain.packetLength k
        /\ (Plain.packetLength k = 0 ->
            Plain.step table this (byteVal b)
            = Ok (idle, [PollingMessage (Plain.setChecksum received k)]))
        /\ (0 < Plain.packetLength k ->
            Plain.step table this (byteVal b)
            = Ok (idle, [Push (Plain.packetClass k) (Plain.packetId k)
                           (Some payload)])))
  /\ (forall (this : Backtrack.Parser) (data : Buffer) (i ck1 : Z),
        let k := Backtrack.packet this in
        let received := ck1 + at_ data i * 2 ^ 8 in
        Backtrack.reachable table this ->
        Backtrack.packetStartFound this = true ->
        Backtrack.packetState this = PACKET_CHECKSUM ->
        Backtrack.packetChecksum1 k = Some ck1 ->
        calcCheckSum (Backtrack.packetClass k) (Backtrack.packetId k)
          (Backtrack.packetLength k) (Backtrack.packetPayload k)
        = Ok received ->
        let idle :=
          Backtrack.mkParser Backtrack.packetTemplate 0 false PACKET_SYNC_1
            (Backtrack.streamIndex this + 1)
            (Backtrack.maxPacketPayloadLength this) in
        exists payload,
          Backtrack.packetPayload k = Some payload
          /\ len payload = Backtrack.packetLength k
          /\ 0 <= Backtrack.packetLength k
          /\ (Backtrack.packetLength k = 0 ->
              Backtrack.step table this data i
              = Ok (Backtrack.mkTurn idle data (i + 1)
                      [PollingMessage
                         (Backtrack.setChecksum received
                            (Backtrack.setChecksum2 (at_ data i) k))]))
          /\ (0 < Backtrack.packetLength k ->
              Backtrack.step table this data i
              = Ok (Backtrack.mkTurn idle data (i + 1)
                      [Push (Backtrack.packetClass k) (Backtrack.packetId k)
                         (Some payload)]))).
Proof.
  split.
  - intros this b k received Hr Hs Hst Hck idle.
    apply pl_reachable_Inv in Hr.
    inversion Hr; subst; cbn in Hst; try discriminate.
    subst k received idle. cbn in Hck |- *.
    exists buf.
    split; [reflexivity|]. split; [reflexivity|]. split; [lia|].
    unfold Plain.step, Plain.onByte. pl_simpl. rewrite Hck. pl_simpl.
    rewrite Z.eqb_refl. split.
    + intros ->. reflexivity.
    + intros Hpos.
      replace (len buf >? 0) with true by (symmetry; apply Z.gtb_lt; lia).
      reflexivity.
  - intros this data i ck1' k received Hr Hs Hst Hck1 Hck idle.
    apply bt_reachable_Inv in Hr.
    inversion Hr; subst; cbn in Hst; try discriminate.
    subst k received idle. cbn in Hck1, Hck |- *.
    injection Hck1 as ->.
    exists buf.
    assert (Hn : 0 <= l1 + l2 * 256) by (byte_facts; lia).
    split; [reflexivity|]. split; [assumption|]. split; [exact Hn|].
    unfold Backtrack.step, Backtrack.onByte. bt_simpl.
    change (2 ^ 8) with 256. rewrite Hck. bt_simpl.
    rewrite Z.eqb_refl. split.
    + intros ->. reflexivity.
    + intros Hpos.
      replace (l1 + l2 * 256 >? 0) with true
        by (symmetry; apply Z.gtb_lt; lia).
      reflexivity.
Qed.

Lemma C6_witness :
  (Plain.step noTable
     (Plain.mkParser (Plain.mkPacket 10 11 1 (Some [xff]) 21)
        1 true PACKET_CHECKSUM 8 300)
     (byteVal x60)
   = Ok (Plain.mkParser Plain.packetTemplate 0 false PACKET_SYNC_1 (8 + 1) 300,
         [Push 10 11 (Some [xff])])
   /\ Plain.step noTable
        (Plain.mkParser (Plain.mkPacket 10 11 0 (Some []) 21)
           0 true PACKET_CHECKSUM 7 300)
        (byteVal x49)
      = Ok (Plain.mkParser Plain.packetTemplate 0 false PACKET_SYNC_1
              (7 + 1) 300,
            [PollingMessage
               (Plain.mkPacket 10 11 0 (Some []) (21 + 73 * 2 ^ 8))]))
  /\ Backtrack.step noTable
       (Backtrack.mkParser
          (Backtrack.mkPacket 10 11 1 (Some [xff]) 0
             (Some 1) (Some 0) (Some 21) None)
          1 true PACKET_CHECKSUM 8 300)
       [x60] 0
     = Ok (Backtrack.mkTurn
             (Backtrack.mkParser Backtrack.packetTemplate 0 false
                PACKET_SYNC_1 (8 + 1) 300)
             [x60] (0 + 1) [Push 10 11 (Some [xff])]).
Proof.
  assert (HrA : Plain.reachable noTable
                  (Plain.mkParser (Plain.mkPacket 10 11 1 (Some [xff]) 21)
                     1 true PACKET_CHECKSUM 8 300)).
  { apply (pl_reachable_loop noTable
             [xb5; x62; x0a; x0b; x01; x00; xff; x15] freshPlain _ []).
    - apply (Plain.reach_new noTable NoOptions). reflexivity.
    - vm_compute. reflexivity. }
  assert (HrA0 : Plain.reachable noTable
                   (Plain.mkParser (Plain.mkPacket 10 11 0 (Some []) 21)
                      0 true PACKET_CHECKSUM 7 300)).
  { apply (pl_reachable_loop noTable
             [xb5; x62; x0a; x0b; x00; x00; x15] freshPlain _ []).
    - apply (Plain.reach_new noTable NoOptions). reflexivity.
    - vm_compute. reflexivity. }
  assert (HrB : Backtrack.reachable noTable
                  (Backtrack.mkParser
                     (Backtrack.mkPacket 10 11 1 (Some [xff]) 0
                        (Some 1) (Some 0) (Some 21) None)
                     1 true PACKET_CHECKSUM 8 300)).
  { apply (bt_reachable_transform noTable freshBacktrack
             [xb5; x62; x0a; x0b; x01; x00; xff; x15] _ []).
    - apply (Backtrack.reach_new noTable NoOptions). reflexivity.
    - vm_compute. reflexivity. }
  split; [split|].
  - destruct (proj1 (C6_matching_checksum noTable) _ x60 HrA
                eq_refl eq_refl eq_refl)
      as [payload [Hp [_ [_ [_ Hpush]]]]].
    injection Hp as <-. apply Hpush. reflexivity.
  - destruct (proj1 (C6_matching_checksum noTable) _ x49 HrA0
                eq_refl eq_refl eq_refl)
      as [payload [Hp [_ [_ [Hpoll _]]]]].
    apply Hpoll. reflexivity.
  - destruct (proj2 (C6_matching_checksum noTable) _ [x60] 0 21 HrB
                eq_refl eq_refl eq_refl eq_refl)
      as [payload [Hp [_ [_ [_ Hpush]]]]].
    injection Hp as <-. apply Hpush. reflexivity.
Defined.



(** C8. In every state that the decoder can be in, the write position
    is at most the length; the payload buffer is there only in the three
    states after the length check, for a length that passed it; and
    every turn that hands something out (a packet, a polling event or
    one of the three rejections), like the end of the stream, leaves the
    frame in progress as [packetTemplate], position 0, no start found.
    In both versions. *)
Theorem C8_frame_in_progress (table : LengthTable) :
  (forall this : Plain.Parser,
      Plain.reachable table this ->
      0 <= Plain.payloadPosition this <= Plain.packetLength (Plain.packet this)
      /\ (Plain.packetPayload (Plain.packet this) <> None ->
          Plain.packetStartFound this = true
          /\ (Plain.packetState this = PACKET_LENGTH_2
              \/ Plain.packetState this = PACKET_PAYLOAD
              \/ Plain.packetState this = PACKET_CHECKSUM)
          /\ accepts table (Plain.maxPacketPayloadLength this)
               (Plain.packetClass (Plain.packet this))
               (Plain.packetId (Plain.packet this))
               (Plain.packetLength (Plain.packet this)) = true)
      /\ (forall (b : byte) q outs,
             Plain.step table this (byteVal b) = Ok (q, outs) ->
             outs <> [] ->
             Plain.packet q = Plain.packetTemplate
             /\ Plain.payloadPosition q = 0
             /\ Plain.packetStartFound q = false
             /\ Plain.packetState q = PACKET_SYNC_1)
      /\ Plain._flush this
         = Plain.mkParser Plain.packetTemplate 0 false PACKET_SYNC_1
             (Plain.streamIndex this) (Plain.maxPacketPayloadLength this))
  /\ (forall this : Backtrack.Parser,
        Backtrack.reachable table this ->
        0 <= Backtrack.payloadPosition this
          <= Backtrack.packetLength (Backtrack.packet this)
        /\ (Backtrack.packetPayload (Backtrack.packet this) <> None ->
            Backtrack.packetStartFound this = true
            /\ (Backtrack.packetState this = PACKET_LENGTH_2
                \/ Backtrack.packetState this = PACKET_PAYLOAD
                \/ Backtrack.packetState this = PACKET_CHECKSUM)
            /\ accepts table (Backtrack.maxPacketPayloadLength this)
                 (Backtrack.packetClass (Backtrack.packet this))
                 (Backtrack.packetId (Backtrack.packet this))
                 (Backtrack.packetLength (Backtrack.packet this)) = true)
        /\ (forall (data : Buffer) (i : Z) t,
               Backtrack.step table this data i = Ok t ->
               Backtrack.outputs t <> [] ->
               Backtrack.packet (Backtrack.parser t) = Backtrack.packetTemplate
               /\ Backtrack.payloadPosition (Backtrack.parser t) = 0
               /\ Backtrack.packetStartFound (Backtrack.parser t) = false
               /\ Backtrack.packetState (Backtrack.parser t) = PACKET_SYNC_1)
        /\ Backtrack._flush this
           = Backtrack.mkParser Backtrack.packetTemplate 0 false PACKET_SYNC_1
               (Backtrack.streamIndex this)
               (Backtrack.maxPacketPayloadLength this)).
Proof.
  split.
  - intros this Hr. apply pl_reachable_Inv in Hr.
    destruct (pl_Inv_fields table this Hr) as [Hpos Hpay].
    split; [exact Hpos|]. split; [exact Hpay|]. split.
    + intros b q outs H Hne.
      exact (pl_output_resets table this _ q outs H Hne).
    + destruct this. reflexivity.
  - intros this Hr. apply bt_reachable_Inv in Hr.
    destruct (bt_Inv_fields table this Hr) as [Hpos Hpay].
    split; [exact Hpos|]. split; [exact Hpay|]. split.
    + intros data i t H Hne.
      exact (bt_output_resets table this data i t H Hne).
    + destruct this. reflexivity.
Qed.

Lemma C8_witness :
  0 <= 1 <= 2
  /\ Backtrack._flush
       (Backtrack.mkParser
          (Backtrack.mkPacket 10 11 2 (Some [xff; x00]) 0
             (Some 2) (Some 0) None None)
          1 true PACKET_LENGTH_2 7 300)
     = Backtrack.mkParser Backtrack.packetTemplate 0 false PACKET_SYNC_1 7 300.
Proof.
  assert (Hr : Backtrack.reachable noTable
                 (Backtrack.mkParser
                    (Backtrack.mkPacket 10 11 2 (Some [xff; x00]) 0
                       (Some 2) (Some 0) None None)
                    1 true PACKET_LENGTH_2 7 300)).
  { apply (bt_reachable_transform noTable freshBacktrack
             [xb5; x62; x0a; x0b; x02; x00; xff] _ []).
    - apply (Backtrack.reach_new noTable NoOptions). reflexivity.
    - vm_compute. reflexivity. }
  destruct (proj2 (C8_frame_in_progress noTable) _ Hr)
    as [Hpos [_ [_ Hflush]]].
  split; [exact Hpos | exact Hflush].
Defined.

(** C9, as amended.  The constructor takes any number as the maximum
    payload length and keeps it, a negative one as well; a negative
    maximum shows while decoding, where every frame is dropped with
    [PayloadTooLarge] on its second length byte.  Whatever the options
    the decoder was built from, and whatever the chunks, decoding throws
    nothing (and, in the second version, the loop ends).  In both
    versions. *)
Theorem C9_any_maximum_is_kept (table : LengthTable) :
  (forall n : Z,
      Plain.constructor (OptionsObject (Some n))
      = Ok (Plain.mkParser Plain.packetTemplate 0 false PACKET_SYNC_1 0 n)
      /\ Backtrack.constructor (OptionsObject (Some n))
         = Ok (Backtrack.mkParser Backtrack.packetTemplate 0 false
                 PACKET_SYNC_1 0 n))
  /\ (forall (options : Options) (this : Plain.Parser) (chunks : list Buffer),
         Plain.constructor options = Ok this ->
         exists q outs, Plain.feed table this chunks = Ok (q, outs))
  /\ (forall (options : Options) (this : Backtrack.Parser)
             (chunks : list Buffer),
         Backtrack.constructor options = Ok this ->
         exists q outs,
           Backtrack.feed table this chunks = Some (Ok (q, outs)))
  /\ (forall (this : Plain.Parser) (b : byte),
         Plain.reachable table this ->
         Plain.maxPacketPayloadLength this < 0 ->
         Plain.packetStartFound this = true ->
         Plain.packetState this = PACKET_LENGTH ->
         exists q k,
           Plain.step table this (byteVal b)
           = Ok (q, [PayloadTooLarge k (Plain.maxPacketPayloadLength this)]))
  /\ (forall (this : Backtrack.Parser) (data : Buffer) (i : Z),
         Backtrack.reachable table this ->
         Backtrack.maxPacketPayloadLength this < 0 ->
         Backtrack.packetStartFound this = true ->
         Backtrack.packetState this = PACKET_LENGTH ->
         exists q k,
           Backtrack.step table this data i
           = Ok (Backtrack.mkTurn q data (i + 1)
                   [PayloadTooLarge k
                      (Backtrack.maxPacketPayloadLength this)])).
Proof.
  split; [intros n; split; reflexivity|].
  split.
  { intros options this chunks H.
    destruct (pl_feed_ends table chunks this (pl_new_Inv table options this H))
      as [q [outs [E _]]].
    eauto. }
  split.
  { intros options this chunks H.
    destruct (bt_feed_ends table chunks this (bt_new_Inv table options this H))
      as [q [outs [E _]]].
    eauto. }
  assert (Hsize : forall m n : Z,
             m < 0 -> 0 <= n -> negb (m =? 0) && (n >? m) = true).
  { intros m n Hm Hn. apply andb_true_iff. split.
    - apply negb_true_iff, Z.eqb_neq. lia.
    - apply Z.gtb_lt. lia. }
  split.
  - intros this b Hr Hm Hs Hst. apply pl_reachable_Inv in Hr.
    pose proof (byteVal_range b) as Hb.
    inversion Hr; subst; cbn in Hst; try discriminate.
    cbn in Hm. unfold Plain.step, Plain.onByte. pl_simpl.
    rewrite Hsize by (byte_facts; lia). pl_simpl. eauto.
  - intros this data i Hr Hm Hs Hst. apply bt_reachable_Inv in Hr.
    inversion Hr; subst; cbn in Hst; try discriminate.
    cbn in Hm. unfold Backtrack.step, Backtrack.onByte.
    pose proof (byteVal_range (nth (Z.to_nat i) data x00)) as Hb.
    fold (at_ data i) in Hb. bt_simpl.
    rewrite Hsize by (byte_facts; lia). bt_simpl. eauto.
Qed.

Lemma C9_witness :
  exists q k,
    Backtrack.step noTable
      (Backtrack.mkParser
         (Backtrack.mkPacket 10 11 0 None 0 (Some 1) None None None)
         0 true PACKET_LENGTH 5 (-1))
      [x00] 0
    = Ok (Backtrack.mkTurn q [x00] (0 + 1) [PayloadTooLarge k (-1)]).
Proof.
  assert (Hr : Backtrack.reachable noTable
                 (Backtrack.mkParser
                    (Backtrack.mkPacket 10 11 0 None 0 (Some 1) None None None)
                    0 true PACKET_LENGTH 5 (-1))).
  { apply (bt_reachable_transform noTable
             (Backtrack.mkParser Backtrack.packetTemplate 0 false
                PACKET_SYNC_1 0 (-1))
             [xb5; x62; x0a; x0b; x01] _ []).
    - apply (Backtrack.reach_new noTable (OptionsObject (Some (-1)))).
      reflexivity.
    - vm_compute. reflexivity. }
  assert (Hm : -1 < 0) by lia.
  exact (proj2 (proj2 (proj2 (proj2 (C9_any_maximum_is_kept noTable))))
           _ [x00] 0 Hr Hm eq_refl eq_refl).
Defined.

(** C9 as it is written fails: the constructor takes a maximum of -1,
    and the decoder built from it rejects a valid frame while decoding. *)
Lemma C9_counterexample :
  Plain.constructor (OptionsObject (Some (-1)))
  = Ok (Plain.mkParser Plain.packetTemplate 0 false PACKET_SYNC_1 0 (-1))
  /\ Backtrack.constructor (OptionsObject (Some (-1)))
     = Ok (Backtrack.mkParser Backtrack.packetTemplate 0 false
             PACKET_SYNC_1 0 (-1))
  /\ Plain._transform noTable
       (Plain.mkParser Plain.packetTemplate 0 false PACKET_SYNC_1 0 (-1))
       validFrame
     = Ok (Plain.mkParser Plain.packetTemplate 0 false PACKET_SYNC_1 9 (-1),
           [PayloadTooLarge (Plain.mkPacket 10 11 1 None 0) (-1)])
  /\ Backtrack._transform noTable
       (Backtrack.mkParser Backtrack.packetTemplate 0 false
          PACKET_SYNC_1 0 (-1))
       validFrame
     = Some (Ok (Backtrack.mkParser Backtrack.packetTemplate 0 false
                   PACKET_SYNC_1 9 (-1),
                 [PayloadTooLarge
                    (Backtrack.mkPacket 10 11 1 None 0
                       (Some 1) (Some 0) None None)
                    (-1)])).
Proof.
  repeat split; vm_compute; reflexivity.
Qed.

(** C10. Built from the same options and fed the same chunks, the two
    versions hand out the same outputs in the same order whenever no
    [FailedChecksum] is among them (in either run), the packet objects
    of the second version read through the five properties that both
    versions have; they end in the same state then.  Turn by turn the
    second version does what the first does on the same byte, outputs
    included; it differs in the stream index and in the bytes it reads
    next, and that only in a turn that hands out [FailedChecksum]. *)
Theorem C10_versions_agree (table : LengthTable) (options : Options)
  (thisA : Plain.Parser) (thisB : Backtrack.Parser) (chunks : list Buffer) :
  Plain.constructor options = Ok thisA ->
  Backtrack.constructor options = Ok thisB ->
  (exists qA outsA qB outsB,
      Plain.feed table thisA chunks = Ok (qA, outsA)
      /\ Backtrack.feed table thisB chunks = Some (Ok (qB, outsB))
      /\ (existsb isFailedChecksum outsA = false
          \/ existsb isFailedChecksum outsB = false ->
          outsA = map eraseOutput outsB /\ qA = asPlain qB))
  /\ (forall (this : Backtrack.Parser) (b : byte),
         Backtrack.reachable table this ->
         exists t,
           Backtrack.step table this [b] 0 = Ok t
           /\ Plain.step table (asPlain this) (byteVal b)
              = Ok (Plain.setStreamIndex (Backtrack.streamIndex this + 1)
                      (asPlain (Backtrack.parser t)),
                    map eraseOutput (Backtrack.outputs t))
           /\ (Backtrack.pos t = 1
               /\ Backtrack.streamIndex (Backtrack.parser t)
                  = Backtrack.streamIndex this + 1
               /\ existsb isFailedChecksum (Backtrack.outputs t) = false
               \/ Backtrack.pos t = 0
                  /\ exists k cs,
                      Backtrack.outputs t = [FailedChecksum k cs])).
Proof.
  intros HA HB. split.
  - pose proof (pl_new_Inv table options thisA HA) as HIA.
    pose proof (bt_new_Inv table options thisB HB) as HIB.
    assert (Hsame : thisA = asPlain thisB).
    { unfold Plain.constructor in HA. unfold Backtrack.constructor in HB.
      destruct (optionsMaxLength options) as [m|e]; [|discriminate].
      cbn [bind] in HA, HB. injection HA as <-. injection HB as <-.
      reflexivity. }
    destruct (pl_feed_ends table chunks thisA HIA) as [qA [outsA [EA _]]].
    destruct (bt_feed_ends table chunks thisB HIB) as [qB [outsB [EB _]]].
    exists qA, outsA, qB, outsB. split; [exact EA|]. split; [exact EB|].
    rewrite pl_feed_concat in EA. unfold Plain._transform in EA.
    rewrite (bt_feed_concat table chunks thisB HIB) in EB.
    unfold Backtrack._transform in EB. subst thisA.
    intros [Hno|Hno].
    + destruct (sim_loop_first table (concat chunks) thisB qA outsA HIB EA Hno)
        as [q [outs [E [-> ->]]]].
      pose proof (bt_loop_agree table _ _ thisB (concat chunks) _ _ E EB)
        as Heq.
      injection Heq as -> ->. auto.
    + pose proof (sim_loop_second table _ thisB (concat chunks) qB outsB
                    HIB EB Hno) as E.
      rewrite E in EA. injection EA as <- <-. auto.
  - intros this b Hr. apply bt_reachable_Inv in Hr.
    exact (sim_react table this b Hr).
Qed.

Lemma C10_witness :
  exists qA outsA qB outsB,
    Plain.feed sampleTable freshPlain
      [[x00; xb5; x62; x02; x01; x06; x00]; validFrame] = Ok (qA, outsA)
    /\ Backtrack.feed sampleTable freshBacktrack
         [[x00; xb5; x62; x02; x01; x06; x00]; validFrame]
       = Some (Ok (qB, outsB))
    /\ outsA = map eraseOutput outsB /\ qA = asPlain qB.
Proof.
  destruct (proj1 (C10_versions_agree sampleTable NoOptions
                     freshPlain freshBacktrack
                     [[x00; xb5; x62; x02; x01; x06; x00]; validFrame]
                     eq_refl eq_refl))
    as [qA [outsA [qB [outsB [EA [EB H]]]]]].
  exists qA, outsA, qB, outsB.
  split; [exact EA|]. split; [exact EB|].
  apply H. left.
  assert (E : Plain.feed sampleTable freshPlain
                [[x00; xb5; x62; x02; x01; x06; x00]; validFrame]
              = Ok (Plain.mkParser Plain.packetTemplate 0 false PACKET_SYNC_1
                      16 300,
                    [WrongPayloadLength (Plain.mkPacket 2 1 6 None 0) 8;
                     Push 10 11 (Some [xff])]))
    by (vm_compute; reflexivity).
  rewrite E in EA. injection EA as <- <-. reflexivity.
Defined.

(** * Further properties *)

(** ** The stream index and the maximum length *)

Lemma pl_step_index (table : LengthTable) (this : Plain.Parser) (v : Z)
  q outs :
  Plain.step table this v = Ok (q, outs) ->
  Plain.streamIndex q = Plain.streamIndex this + 1
  /\ Plain.maxPacketPayloadLength q = Plain.maxPacketPayloadLength this.
Proof.
  unfold Plain.step, Plain.onByte.
  destruct this as [[c id n pl ck] p sf st si m].
  destruct sf; [destruct st|]; pl_simpl;
    repeat match goal with
      | |- context [if (?x =? ?y) then _ else _] => destruct (x =? y)
      | |- context [if (?x >? ?y) then _ else _] => destruct (x >? y)
      | |- context [if (?x >=? ?y) then _ else _] => destruct (x >=? y)
      | |- context [if (negb ?x && ?y) then _ else _] => destruct (negb x && y)
      | |- context [if (negb ?x) then _ else _] => destruct (negb x)
      | |- context [table ?x ?y] => destruct (table x y)
      | |- context [alloc ?x] => destruct (alloc x)
      | |- context [calcCheckSum ?x ?y ?z ?w] => destruct (calcCheckSum x y z w)
      | |- context [match ?x with Some _ => _ | None => _ end] =>
          is_var x; destruct x
      | _ => progress pl_simpl
      end;
    intros [= <- <-] || discriminate; split; reflexivity.
Qed.

Lemma pl_loop_index (table : LengthTable) (data : Buffer) :
  forall (this : Plain.Parser) q outs,
    Plain.loop table this data = Ok (q, outs) ->
    Plain.streamIndex q = Plain.streamIndex this + len data
    /\ Plain.maxPacketPayloadLength q = Plain.maxPacketPayloadLength this.
Proof.
  induction data as [|b data IH]; intros this q outs H.
  - injection H as <- _. change (len []) with 0. split; [lia | reflexivity].
  - cbn [Plain.loop] in H.
    destruct (Plain.step table this (byteVal b)) as [[q1 o1]|e] eqn:E;
      [|discriminate].
    cbn [bind fst snd] in H.
    destruct (Plain.loop table q1 data) as [[q2 o2]|e] eqn:E2;
      [|discriminate].
    cbn [bind fst snd] in H. injection H as <- _.
    destruct (pl_step_index table this _ q1 o1 E) as [H1 H2].
    destruct (IH q1 q2 o2 E2) as [H3 H4].
    rewrite len_cons. split; [lia | congruence].
Qed.

Lemma len_slice (data : Buffer) (i : Z) :
  0 <= i <= len data -> len (slice data i) = len data - i.
Proof.
  intros H. unfold len, slice in *. rewrite length_skipn. lia.
Qed.

(** A turn keeps the stream index plus the number of bytes still to be
    read in step with each other, also when it puts bytes back. *)
Lemma bt_step_index (table : LengthTable) (this : Backtrack.Parser)
  (data : Buffer) (i : Z) t :
  0 <= i < len data ->
  Backtrack.step table this data i = Ok t ->
  Backtrack.streamIndex (Backtrack.parser t)
  + (len (Backtrack.data t) - Backtrack.pos t)
  = Backtrack.streamIndex this + (len data - i)
  /\ 0 <= Backtrack.pos t <= len (Backtrack.data t).
Proof.
  intros Hi.
  unfold Backtrack.step, Backtrack.onByte.
  destruct this as [[c id n pl ck l1 l2 c1 c2] p sf st si m].
  destruct sf; [destruct st|]; bt_simpl;
    repeat match goal with
      | |- context [if (?x =? ?y) then _ else _] => destruct (x =? y)
      | |- context [if (?x >? ?y) then _ else _] => destruct (x >? y)
      | |- context [if (?x >=? ?y) then _ else _] => destruct (x >=? y)
      | |- context [if (negb ?x && ?y) then _ else _] => destruct (negb x && y)
      | |- context [if (negb ?x) then _ else _] => destruct (negb x)
      | |- context [table ?x ?y] => destruct (table x y)
      | |- context [alloc ?x] => destruct (alloc x)
      | |- context [calcCheckSum ?x ?y ?z ?w] => destruct (calcCheckSum x y z w)
      | |- context [writeUInt8 ?x] => destruct (writeUInt8 x)
      | |- context [writeUInt16LE ?x] => destruct (writeUInt16LE x)
      | |- context [match ?x with Some _ => _ | None => _ end] =>
          is_var x; destruct x
      | _ => progress bt_simpl
      end;
    intros [= <-] || discriminate; bt_simpl;
    try (split; lia).
  all: rewrite !len_app, !len_cons, (len_slice data (i + 1)) by lia;
    pose proof (len_nonneg a0); pose proof (len_nonneg a1);
    pose proof (len_nonneg a2); pose proof (len_nonneg b); split; lia.
Qed.

Lemma bt_loop_index (table : LengthTable) (fuel : nat) :
  forall (this : Backtrack.Parser) (data : Buffer) (i : Z) q outs,
    0 <= i <= len data ->
    Backtrack.loop table fuel this data i = Some (Ok (q, outs)) ->
    Backtrack.streamIndex q = Backtrack.streamIndex this + (len data - i).
Proof.
  induction fuel as [|fuel IH]; intros this data i q outs Hi H;
    cbn [Backtrack.loop] in H;
    destruct (i <? len data) eqn:Ei; try discriminate;
    try (apply Z.ltb_ge in Ei; injection H as <- _; lia).
  apply Z.ltb_lt in Ei.
  destruct (Backtrack.step table this data i) as [t|e] eqn:E; [|discriminate].
  destruct (Backtrack.loop table fuel _ _ _) as [[[q1 o1]|e]|] eqn:E1;
    try discriminate.
  cbn [prepend fst snd] in H. injection H as <- _.
  destruct (bt_step_index table this data i t (conj (proj1 Hi) Ei) E)
    as [Hsum Hpos].
  rewrite (IH _ _ _ _ _ Hpos E1). lia.
Qed.

Lemma bt_feed_index (table : LengthTable) (chunks : list Buffer) :
  forall (this : Backtrack.Parser) q outs,
    Backtrack.feed table this chunks = Some (Ok (q, outs)) ->
    Backtrack.streamIndex q = Backtrack.streamIndex this + len (concat chunks)
    /\ Backtrack.maxPacketPayloadLength q
       = Backtrack.maxPacketPayloadLength this.
Proof.
  induction chunks as [|chunk more IH]; intros this q outs H.
  - injection H as <- _. change (len (concat [])) with 0.
    split; [lia | reflexivity].
  - cbn [Backtrack.feed] in H.
    destruct (Backtrack._transform table this chunk) as [[[q1 o1]|e]|] eqn:E;
      try discriminate.
    cbn [fst snd] in H.
    destruct (Backtrack.feed table q1 more) as [[[q2 o2]|e]|] eqn:E2;
      try discriminate.
    cbn [prepend fst snd] in H. injection H as <- _.
    destruct (IH q1 q2 o2 E2) as [H1 H2].
    unfold Backtrack._transform in E.
    pose proof (bt_loop_index table _ this chunk 0 q1 o1
                  (conj (Z.le_refl 0) (len_nonneg chunk)) E) as H3.
    pose proof (bt_loop_max table _ this chunk q1 o1 E) as H4.
    cbn [concat]. rewrite len_app. split; [lia | congruence].
Qed.

(** ** Bytes without a sync byte *)

Lemma byteVal_b5 (b : byte) : b <> xb5 -> (byteVal b =? 0xB5) = false.
Proof.
  intros H. apply Z.eqb_neq. intros E. apply H.
  apply byteVal_inj. exact E.
Qed.

Lemma pl_loop_noise (table : LengthTable) (chunk : Buffer) :
  forall this : Plain.Parser,
    Plain.packetStartFound this = false ->
    Forall (fun b => b <> xb5) chunk ->
    Plain.loop table this chunk
    = Ok (Plain.setStreamIndex (Plain.streamIndex this + len chunk) this, []).
Proof.
  induction chunk as [|b chunk IH]; intros this Hs Hall.
  - destruct this. cbn. rewrite Z.add_0_r. reflexivity.
  - inversion Hall as [|? ? Hb Hrest]; subst.
    cbn [Plain.loop]. unfold Plain.step, Plain.onByte.
    rewrite Hs, (byteVal_b5 b Hb). cbn [bind fst snd].
    rewrite IH by (destruct this; cbn in *; assumption).
    cbn [bind fst snd app]. rewrite len_cons.
    destruct this. pl_simpl. do 3 f_equal. lia.
Qed.

Lemma bt_loop_noise (table : LengthTable) (chunk : Buffer) :
  forall (this : Backtrack.Parser) (fuel : nat),
    (List.length chunk <= fuel)%nat ->
    Backtrack.packetStartFound this = false ->
    Forall (fun b => b <> xb5) chunk ->
    Backtrack.loop table fuel this chunk 0
    = Some (Ok (Backtrack.setStreamIndex
                  (Backtrack.streamIndex this + len chunk) this, [])).
Proof.
  induction chunk as [|b chunk IH]; intros this fuel Hf Hs Hall.
  - rewrite bt_loop_nil. destruct this. cbn. rewrite Z.add_0_r. reflexivity.
  - inversion Hall as [|? ? Hb Hrest]; subst.
    destruct fuel as [|fuel]; [cbn in Hf; lia|].
    rewrite (bt_loop_quiet table fuel this
               (Backtrack.setStreamIndex (Backtrack.streamIndex this + 1) this)).
    + rewrite IH; [|cbn in Hf; lia|destruct this; cbn in *; assumption|assumption].
      rewrite len_cons. destruct this. bt_simpl.
      do 4 f_equal. lia.
    + unfold Backtrack.react, Backtrack.step, Backtrack.onByte.
      rewrite at_head, Hs, (byteVal_b5 b Hb). reflexivity.
Qed.

(** ** What the outputs say *)

Lemma asPlain_Inv (table : LengthTable) (this : Backtrack.Parser) :
  Backtrack.Inv table this -> Plain.Inv table (asPlain this).
Proof.
  intros H. inversion H; subst; unfold asPlain; bt_simpl.
  - apply Plain.InvIdle.
  - apply Plain.InvSync1.
  - apply Plain.InvSync2.
  - now apply Plain.InvClass.
  - now apply Plain.InvId.
  - now apply Plain.InvLength.
  - apply Plain.InvLength2; auto. byte_facts. lia.
  - apply Plain.InvPayload; auto. byte_facts. lia.
  - apply Plain.InvChecksum; auto. byte_facts. lia.
Qed.

Lemma len_nil_inv (buf : Buffer) : len buf = 0 -> buf = [].
Proof.
  destruct buf; [reflexivity|].
  rewrite len_cons. pose proof (len_nonneg buf). lia.
Qed.

Lemma pl_step_sound (table : LengthTable) (this : Plain.Parser) (b : byte)
  q outs :
  Plain.Inv table this ->
  Plain.step table this (byteVal b) = Ok (q, outs) ->
  Forall (soundOutput table (Plain.maxPacketPayloadLength this)) outs.
Proof.
  intros H. pose proof (byteVal_range b) as Hb.
  inversion H; subst; unfold Plain.step, Plain.onByte; pl_simpl.
  6: {
    remember (l1 + byteVal b * 2 ^ 8) as n eqn:En.
    destruct (negb (m =? 0) && (n >? m)) eqn:Emax.
    - intros [= <- <-]. constructor; [|constructor]. unfold soundOutput. pl_simpl.
      apply andb_true_iff in Emax. destruct Emax as [E1 E2].
      apply negb_true_iff, Z.eqb_neq in E1. apply Z.gtb_lt in E2.
      repeat split; auto. lia.
    - destruct (n =? 0) eqn:Ezero.
      + unfold alloc. change (0 <? 0) with false. pl_simpl.
        intros [= <- <-]. constructor.
      + destruct (table c i) as [expected|] eqn:Et.
        * destruct (negb (n =? expected)) eqn:Ee.
          -- intros [= <- <-]. constructor; [|constructor]. unfold soundOutput. pl_simpl.
             apply negb_true_iff, Z.eqb_neq in Ee. apply Z.eqb_neq in Ezero.
             apply andb_false_iff in Emax.
             repeat split; auto.
             destruct Emax as [E1|E2].
             ++ left. apply negb_false_iff, Z.eqb_eq in E1. exact E1.
             ++ right. rewrite Z.gtb_ltb in E2. apply Z.ltb_ge in E2. exact E2.
          -- intros [= <- <-]. constructor.
        * intros [= <- <-]. constructor. }
  8: {
    match goal with
    | Hn : 0 <= len buf <= 65535 |- _ =>
        rewrite calcCheckSum_fletcher by auto;
        pose proof (calcCheckSum_fletcher c i (len buf) buf
                      ltac:(assumption) ltac:(assumption) Hn) as Hcs
    end.
    pl_simpl.
    destruct (_ =? _) eqn:Eck.
    - apply Z.eqb_eq in Eck.
      destruct (len buf >? 0) eqn:Epos.
      + intros [= <- <-]. constructor; [|constructor]. unfold soundOutput. pl_simpl.
        apply Z.gtb_lt in Epos. exists buf.
        split; [reflexivity|]. split; [assumption|]. split; [assumption|].
        split; [lia | assumption].
      + intros [= <- <-]. constructor; [|constructor]. unfold soundOutput. pl_simpl.
        rewrite Z.gtb_ltb in Epos. apply Z.ltb_ge in Epos.
        assert (Hz : len buf = 0) by lia.
        pose proof (len_nil_inv buf Hz) as ->.
        change (len []) with 0 in *.
        split; [reflexivity|]. split; [reflexivity|]. 
        refine (eq_trans Hcs _). f_equal. exact Eck.
    - apply Z.eqb_neq in Eck.
      intros [= <- <-]. constructor; [|constructor]. unfold soundOutput. pl_simpl.
      exists buf. split; [reflexivity|]. split; [reflexivity|].
      split; [assumption|]. split; [exact Hcs | exact Eck]. }
  all: repeat match goal with
         | |- context [if (?x =? ?y) then _ else _] => destruct (x =? y)
         | |- context [if (?x >=? ?y) then _ else _] => destruct (x >=? y)
         | |- context [alloc ?x] => destruct (alloc x)
         | |- context [match ?x with Some _ => _ | None => _ end] =>
             is_var x; destruct x
         | _ => progress pl_simpl
         end;
    intros [= <- <-] || discriminate; constructor.
Qed.

Lemma pl_loop_sound (table : LengthTable) (data : Buffer) :
  forall (this : Plain.Parser) q outs,
    Plain.Inv table this ->
    Plain.loop table this data = Ok (q, outs) ->
    Forall (soundOutput table (Plain.maxPacketPayloadLength this)) outs.
Proof.
  induction data as [|b data IH]; intros this q outs HI H.
  - injection H as _ <-. constructor.
  - cbn [Plain.loop] in H.
    destruct (pl_step_Inv table this b HI) as [q1 [o1 [E HI1]]].
    rewrite E in H. cbn [bind fst snd] in H.
    destruct (Plain.loop table q1 data) as [[q2 o2]|e] eqn:E2;
      [|discriminate].
    cbn [bind fst snd] in H. injection H as _ <-.
    apply Forall_app. split.
    + exact (pl_step_sound table this b q1 o1 HI E).
    + rewrite <- (proj2 (pl_step_index table this _ q1 o1 E)).
      exact (IH q1 q2 o2 HI1 E2).
Qed.

Lemma bt_loop_sound (table : LengthTable) (fuel : nat) :
  forall (this : Backtrack.Parser) (rest : Buffer) q outs,
    Backtrack.Inv table this ->
    Backtrack.loop table fuel this rest 0 = Some (Ok (q, outs)) ->
    Forall (soundOutput table (Backtrack.maxPacketPayloadLength this))
      (map eraseOutput outs).
Proof.
  induction fuel as [|fuel IH]; intros this rest q outs HI H;
    destruct rest as [|b rest];
    try (rewrite bt_loop_nil in H; injection H as _ <-; constructor).
  - cbn [Backtrack.loop] in H. rewrite len_cons in H.
    pose proof (len_nonneg rest).
    destruct (0 <? len rest + 1) eqn:E; [discriminate|].
    apply Z.ltb_ge in E. lia.
  - rewrite bt_loop_cons in H.
    destruct (sim_react table this b HI) as [t [Et [EA _]]].
    destruct (bt_react_Inv table this b HI) as [t' [Et' [HI' _]]].
    rewrite Et in Et'. injection Et' as <-.
    rewrite Et in H.
    destruct (Backtrack.loop table fuel _ _ 0) as [[[q1 o1]|e]|] eqn:E1;
      try discriminate.
    cbn [prepend fst snd] in H. injection H as _ <-.
    rewrite map_app. apply Forall_app. split.
    + exact (pl_step_sound table (asPlain this) b _ _
               (asPlain_Inv table this HI) EA).
    + rewrite <- (bt_react_max table this b t Et).
      exact (IH _ _ _ _ HI' E1).
Qed.

(** ** Whole frames, in both versions *)

(** The second version up to the first checksum byte of a frame whose
    length passes the check. *)
Lemma bt_loop_frame_head (table : LengthTable) (sf : bool) (si m : Z)
  (c i l1 l2 k1 : byte) (payload : Buffer) :
  let n := byteVal l1 + byteVal l2 * 2 ^ 8 in
  accepts table m (byteVal c) (byteVal i) n = true ->
  len payload = n ->
  Backtrack.loop table (6 + (List.length payload + 1))
    (Backtrack.mkParser Backtrack.packetTemplate 0 sf PACKET_SYNC_1 si m)
    ([xb5; x62; c; i; l1; l2] ++ payload ++ [k1]) 0
  = Some (Ok (Backtrack.mkParser
                (Backtrack.mkPacket (byteVal c) (byteVal i) n (Some payload) 0
                   (Some (byteVal l1)) (Some (byteVal l2))
                   (Some (byteVal k1)) None)
                n true PACKET_CHECKSUM (si + 7 + n) m,
              [])).
Proof.
  intros n Hacc Hlen.
  rewrite (bt_loop_frame table sf si m c i l1 l2 payload [k1] 1 Hacc Hlen).
  fold n.
  rewrite (bt_loop_quiet table _ _
             (Backtrack.mkParser
                (Backtrack.mkPacket (byteVal c) (byteVal i) n (Some payload) 0
                   (Some (byteVal l1)) (Some (byteVal l2))
                   (Some (byteVal k1)) None)
                n true PACKET_CHECKSUM (si + 6 + n + 1) m)) by reflexivity.
  rewrite bt_loop_nil. do 4 f_equal. lia.
Qed.

(** The first version up to the first checksum byte. *)
Lemma pl_loop_frame_head (table : LengthTable) (sf : bool) (si m : Z)
  (c i l1 l2 k1 : byte) (payload : Buffer) :
  let n := byteVal l1 + byteVal l2 * 2 ^ 8 in
  accepts table m (byteVal c) (byteVal i) n = true ->
  len payload = n ->
  Plain.loop table
    (Plain.mkParser Plain.packetTemplate 0 sf PACKET_SYNC_1 si m)
    ([xb5; x62; c; i; l1; l2] ++ payload ++ [k1])
  = Ok (Plain.mkParser
          (Plain.mkPacket (byteVal c) (byteVal i) n (Some payload)
             (byteVal k1))
          n true PACKET_CHECKSUM (si + 7 + n) m,
        []).
Proof.
  intros n Hacc Hlen.
  assert (HI : Backtrack.Inv table
                 (Backtrack.mkParser Backtrack.packetTemplate 0 sf
                    PACKET_SYNC_1 si m))
    by (destruct sf; constructor).
  exact (sim_loop_second table _ _ _ _ _ HI
           (bt_loop_frame_head table sf si m c i l1 l2 k1 payload Hacc Hlen)
           eq_refl).
Qed.

(** The first version on a whole frame whose length passes the check:
    one output, and the bytes after the frame are read by an idle
    decoder, whatever the checksum. *)
Lemma pl_loop_frame (table : LengthTable) (sf : bool) (si m : Z)
  (c i l1 l2 k1 k2 : byte) (payload rest : Buffer) :
  let n := byteVal l1 + byteVal l2 * 2 ^ 8 in
  let received := byteVal k1 + byteVal k2 * 2 ^ 8 in
  let computed :=
    fletcherChecksum (frameBody (byteVal c) (byteVal i) n payload) in
  let k := Plain.mkPacket (byteVal c) (byteVal i) n (Some payload) received in
  accepts table m (byteVal c) (byteVal i) n = true ->
  len payload = n ->
  Plain.loop table
    (Plain.mkParser Plain.packetTemplate 0 sf PACKET_SYNC_1 si m)
    ([xb5; x62; c; i; l1; l2] ++ payload ++ [k1; k2] ++ rest)
  = (r <- Plain.loop table
            (Plain.mkParser Plain.packetTemplate 0 false PACKET_SYNC_1
               (si + 8 + n) m) rest ;;
     Ok (fst r,
         (if computed =? received then
            if n >? 0 then Push (byteVal c) (byteVal i) (Some payload)
            else PollingMessage k
          else FailedChecksum k computed) :: snd r)).
Proof.
  intros n received computed k Hacc Hlen.
  pose proof (byteVal_range c) as Hc. pose proof (byteVal_range i) as Hi.
  assert (Hn : 0 <= n <= 65535).
  { subst n. pose proof (byteVal_range l1). pose proof (byteVal_range l2).
    byte_facts. lia. }
  replace ([xb5; x62; c; i; l1; l2] ++ payload ++ [k1; k2] ++ rest)
    with (([xb5; x62; c; i; l1; l2] ++ payload ++ [k1]) ++ k2 :: rest)
    by (rewrite <- !app_assoc; reflexivity).
  rewrite pl_loop_app,
    (pl_loop_frame_head table sf si m c i l1 l2 k1 payload Hacc Hlen).
  fold n. cbn [bind fst snd Plain.loop app].
  unfold Plain.step, Plain.onByte. pl_simpl.
  rewrite (calcCheckSum_fletcher _ _ _ payload Hc Hi Hn). pl_simpl.
  fold computed. fold received. fold k.
  destruct (computed =? received); [destruct (n >? 0)|]; pl_simpl;
    replace (si + 7 + n + 1) with (si + 8 + n) by lia;
    destruct (Plain.loop table _ rest) as [[q o]|e]; reflexivity.
Qed.

(** The header of a frame whose length does not pass the check, in the
    second version: the rejection, and the bytes after the second length
    byte are read by an idle decoder. *)
Lemma bt_loop_rejected (table : LengthTable) (sf : bool) (si m : Z)
  (c i l1 l2 : byte) (rest : Buffer) (fuel : nat) :
  let n := byteVal l1 + byteVal l2 * 2 ^ 8 in
  let k :=
    Backtrack.mkPacket (byteVal c) (byteVal i) n None 0
      (Some (byteVal l1)) (Some (byteVal l2)) None None in
  let run := fun o =>
    Backtrack.loop table (6 + fuel)
      (Backtrack.mkParser Backtrack.packetTemplate 0 sf PACKET_SYNC_1 si m)
      ([xb5; x62; c; i; l1; l2] ++ rest) 0
    = prepend [o]
        (Backtrack.loop table fuel
           (Backtrack.mkParser Backtrack.packetTemplate 0 false PACKET_SYNC_1
              (si + 6) m)
           rest 0) in
  (m <> 0 -> n > m -> run (PayloadTooLarge k m))
  /\ (forall expected,
         m = 0 \/ n <= m -> n <> 0 ->
         table (byteVal c) (byteVal i) = Some expected -> n <> expected ->
         run (WrongPayloadLength k expected)).
Proof.
  intros n k run. subst run. cbv beta.
  assert (Hhead : forall fuel' r,
             Backtrack.loop table (6 + fuel')
               (Backtrack.mkParser Backtrack.packetTemplate 0 sf
                  PACKET_SYNC_1 si m)
               ([xb5; x62; c; i; l1; l2] ++ r) 0
             = Backtrack.loop table (S fuel')
                 (Backtrack.mkParser
                    (Backtrack.mkPacket (byteVal c) (byteVal i) 0 None 0
                       (Some (byteVal l1)) None None None)
                    0 true PACKET_LENGTH (si + 5) m)
                 (l2 :: r) 0).
  { intros fuel' r. cbn [app Nat.add].
    rewrite (bt_loop_quiet table _ _ _ _ _ (bt_react_sync table _ _ _ _ _)).
    rewrite (bt_loop_quiet table _ _ _ _ _ (bt_react_trailer table _ _ _ _)).
    rewrite (bt_loop_quiet table _ _
               (Backtrack.mkParser
                  (Backtrack.mkPacket (byteVal c) 0 0 None 0
                     None None None None)
                  0 true PACKET_CLASS (si + 1 + 1 + 1) m)) by reflexivity.
    rewrite (bt_loop_quiet table _ _
               (Backtrack.mkParser
                  (Backtrack.mkPacket (byteVal c) (byteVal i) 0 None 0
                     None None None None)
                  0 true PACKET_ID (si + 1 + 1 + 1 + 1) m)) by reflexivity.
    rewrite (bt_loop_quiet table _ _
               (Backtrack.mkParser
                  (Backtrack.mkPacket (byteVal c) (byteVal i) 0 None 0
                     (Some (byteVal l1)) None None None)
                  0 true PACKET_LENGTH (si + 1 + 1 + 1 + 1 + 1) m))
      by reflexivity.
    replace (si + 1 + 1 + 1 + 1 + 1) with (si + 5) by lia. reflexivity. }
  split.
  - intros Hm Hlarge. rewrite Hhead, bt_loop_cons.
    unfold Backtrack.react, Backtrack.step, Backtrack.onByte.
    rewrite at_head. bt_simpl. fold n.
    replace (negb (m =? 0) && (n >? m)) with true.
    + bt_simpl. change (0 + 1 =? 0) with false. cbv iota.
      replace (si + 5 + 1) with (si + 6) by lia. reflexivity.
    + symmetry. apply andb_true_iff. split.
      * apply negb_true_iff, Z.eqb_neq, Hm.
      * apply Z.gtb_lt. lia.
  - intros expected Hsmall Hnz Ht Hne. rewrite Hhead, bt_loop_cons.
    unfold Backtrack.react, Backtrack.step, Backtrack.onByte.
    rewrite at_head. bt_simpl. fold n.
    replace (negb (m =? 0) && (n >? m)) with false.
    + apply Z.eqb_neq in Hnz, Hne. rewrite Hnz, Ht, Hne. cbn [negb]. bt_simpl.
      change (0 + 1 =? 0) with false. cbv iota.
      replace (si + 5 + 1) with (si + 6) by lia. reflexivity.
    + symmetry. destruct Hsmall as [->|Hle]; [reflexivity|].
      apply andb_false_iff. right. rewrite Z.gtb_ltb. apply Z.ltb_ge. lia.
Qed.

(** The states in which the decoder waits for a sync byte or for the
    sync trailer. *)
Lemma pl_sync_shape (table : LengthTable) (this : Plain.Parser) :
  Plain.Inv table this -> Plain.packetState this = PACKET_SYNC_1 ->
  exists sf,
    this = Plain.mkParser Plain.packetTemplate 0 sf PACKET_SYNC_1
             (Plain.streamIndex this) (Plain.maxPacketPayloadLength this).
Proof.
  intros HI Hst. inversion HI; subst; cbn in Hst; try discriminate; eauto.
Qed.

Lemma bt_sync_shape (table : LengthTable) (this : Backtrack.Parser) :
  Backtrack.Inv table this -> Backtrack.packetState this = PACKET_SYNC_1 ->
  exists sf,
    this = Backtrack.mkParser Backtrack.packetTemplate 0 sf PACKET_SYNC_1
             (Backtrack.streamIndex this)
             (Backtrack.maxPacketPayloadLength this).
Proof.
  intros HI Hst. inversion HI; subst; cbn in Hst; try discriminate; eauto.
Qed.

(** A run that starts with outputs in front. *)
Lemma pl_loop_then (table : LengthTable) (this idle : Plain.Parser)
  (head rest : Buffer) (o : Output Plain.Packet) :
  Plain.Inv table idle ->
  Plain.loop table this (head ++ rest)
  = (r <- Plain.loop table idle rest ;; Ok (fst r, o :: snd r)) ->
  exists q outs,
    Plain._transform table idle rest = Ok (q, outs)
    /\ Plain._transform table this (head ++ rest) = Ok (q, o :: outs).
Proof.
  intros HI H. unfold Plain._transform.
  destruct (pl_loop_ends table rest idle HI) as [q [outs [E _]]].
  exists q, outs. split; [exact E|]. rewrite H, E. reflexivity.
Qed.

Lemma bt_loop_then (table : LengthTable) (this idle : Backtrack.Parser)
  (head rest : Buffer) (o : Output Backtrack.Packet) :
  Backtrack.Inv table this -> Backtrack.Inv table idle ->
  (forall fuel,
      Backtrack.loop table (6 + fuel) this (head ++ rest) 0
      = prepend [o] (Backtrack.loop table fuel idle rest 0)) ->
  exists q outs,
    Backtrack._transform table idle rest = Some (Ok (q, outs))
    /\ Backtrack._transform table this (head ++ rest)
       = Some (Ok (q, o :: outs)).
Proof.
  intros HI HIidle H.
  destruct (bt_transform_ends table idle rest HIidle) as [q [outs [E _]]].
  exists q, outs. split; [exact E|].
  apply (bt_transform_loop table this _
           (6 + Backtrack.turnsFor idle rest) _ HI).
  rewrite H. unfold Backtrack._transform in E. rewrite E. reflexivity.
Qed.

(** The header of a frame whose length does not pass the check, in the
    first version. *)
Lemma pl_loop_rejected (table : LengthTable) (sf : bool) (si m : Z)
  (c i l1 l2 : byte) (rest : Buffer) :
  let n := byteVal l1 + byteVal l2 * 2 ^ 8 in
  let k := Plain.mkPacket (byteVal c) (byteVal i) n None 0 in
  let run := fun o =>
    Plain.loop table
      (Plain.mkParser Plain.packetTemplate 0 sf PACKET_SYNC_1 si m)
      ([xb5; x62; c; i; l1; l2] ++ rest)
    = (r <- Plain.loop table
              (Plain.mkParser Plain.packetTemplate 0 false PACKET_SYNC_1
                 (si + 6) m) rest ;;
       Ok (fst r, o :: snd r)) in
  (m <> 0 -> n > m -> run (PayloadTooLarge k m))
  /\ (forall expected,
         m = 0 \/ n <= m -> n <> 0 ->
         table (byteVal c) (byteVal i) = Some expected -> n <> expected ->
         run (WrongPayloadLength k expected)).
Proof.
  intros n k run. subst run. cbv beta.
  assert (HI : Backtrack.Inv table
                 (Backtrack.mkParser Backtrack.packetTemplate 0 sf
                    PACKET_SYNC_1 si m))
    by (destruct sf; constructor).
  destruct (bt_loop_rejected table sf si m c i l1 l2 [] 0) as [Hlarge Hwrong].
  cbv zeta in Hlarge, Hwrong. fold n in Hlarge, Hwrong.
  rewrite bt_loop_nil in Hlarge, Hwrong.
  cbn [prepend fst snd app] in Hlarge, Hwrong.
  split.
  - intros Hm Hn.
    assert (E : Plain.loop table
                  (Plain.mkParser Plain.packetTemplate 0 sf PACKET_SYNC_1
                     si m)
                  [xb5; x62; c; i; l1; l2]
                = Ok (Plain.mkParser Plain.packetTemplate 0 false
                        PACKET_SYNC_1 (si + 6) m,
                      [PayloadTooLarge k m]))
      by exact (sim_loop_second table _ _ _ _ _ HI (Hlarge Hm Hn) eq_refl).
    rewrite pl_loop_app, E. cbn [bind fst snd].
    destruct (Plain.loop table _ rest) as [[q o]|e]; reflexivity.
  - intros expected Hsmall Hnz Ht Hne.
    assert (E : Plain.loop table
                  (Plain.mkParser Plain.packetTemplate 0 sf PACKET_SYNC_1
                     si m)
                  [xb5; x62; c; i; l1; l2]
                = Ok (Plain.mkParser Plain.packetTemplate 0 false
                        PACKET_SYNC_1 (si + 6) m,
                      [WrongPayloadLength k expected]))
      by exact (sim_loop_second table _ _ _ _ _ HI
                  (Hwrong expected Hsmall Hnz Ht Hne) eq_refl).
    rewrite pl_loop_app, E. cbn [bind fst snd].
    destruct (Plain.loop table _ rest) as [[q o]|e]; reflexivity.
Qed.

(** A run without outputs has no outputs on any part of its input read
    first. *)
Lemma pl_loop_prefix_quiet (table : LengthTable) (this q : Plain.Parser)
  (a b : Buffer) :
  Plain.loop table this (a ++ b) = Ok (q, []) ->
  exists q', Plain.loop table this a = Ok (q', []).
Proof.
  rewrite pl_loop_app.
  destruct (Plain.loop table this a) as [[q1 o1]|e]; [|discriminate].
  cbn [bind fst snd].
  destruct (Plain.loop table q1 b) as [[q2 o2]|e]; [|discriminate].
  cbn [bind fst snd]. intros H. injection H as _ H.
  apply app_eq_nil in H. destruct H as [-> _]. eauto.
Qed.

Lemma bt_transform_prefix_quiet (table : LengthTable)
  (this q : Backtrack.Parser) (a b : Buffer) :
  Backtrack.Inv table this ->
  Backtrack._transform table this (a ++ b) = Some (Ok (q, [])) ->
  exists q', Backtrack._transform table this a = Some (Ok (q', [])).
Proof.
  intros HI. rewrite (bt_transform_app table this a b HI).
  destruct (bt_transform_ends table this a HI) as [q1 [o1 [-> HI1]]].
  cbn [fst snd].
  destruct (bt_transform_ends table q1 b HI1) as [q2 [o2 [-> _]]].
  cbn [prepend fst snd]. intros H. injection H as _ H.
  apply app_eq_nil in H. destruct H as [-> _]. eauto.
Qed.

(** A part of a list that ends before its last element. *)
Lemma strict_prefix_split {A : Type} (pre suf body : list A) (x : A) :
  pre ++ suf = body ++ [x] -> suf <> [] ->
  exists suf', body = pre ++ suf'.
Proof.
  intros H Hne.
  destruct (exists_last Hne) as [suf' [y ->]].
  rewrite app_assoc in H. apply app_inj_tail in H.
  destruct H as [H _]. eauto.
Qed.

(** ** Frames built for a payload *)

Lemma lor_shiftl_add (a b : Z) :
  0 <= a < 256 -> 0 <= b -> Z.lor (Z.shiftl b 8) a = a + b * 2 ^ 8.
Proof.
  intros Ha Hb.
  assert (Hland : Z.land (Z.shiftl b 8) a = 0).
  { apply Z.bits_inj'. intros k Hk.
    rewrite Z.land_spec, Z.bits_0.
    destruct (Z.ltb_spec k 8) as [Hlt|Hge].
    - rewrite Z.shiftl_spec_low by exact Hlt. reflexivity.
    - replace (Z.testbit a k) with false; [apply andb_false_r|].
      symmetry. destruct (Z.eq_dec a 0) as [->|Hnz]; [apply Z.bits_0|].
      apply Z.bits_above_log2; [lia|].
      apply Z.log2_lt_pow2; [lia|].
      apply Z.lt_le_trans with (2 ^ 8); [change (2 ^ 8) with 256; lia|].
      apply Z.pow_le_mono_r; lia. }
  rewrite <- Z.lxor_lor by exact Hland.
  rewrite <- Z.add_nocarry_lxor by exact Hland.
  rewrite Z.shiftl_mul_pow2 by lia. lia.
Qed.

Lemma runningSums_range (bytes : list Z) :
  forall a b,
    0 <= a < 256 -> 0 <= b < 256 ->
    0 <= fst (runningSums bytes a b) < 256
    /\ 0 <= snd (runningSums bytes a b) < 256.
Proof.
  induction bytes as [|v bytes IH]; intros a b Ha Hb.
  - simpl. lia.
  - cbn [runningSums]. apply IH; apply Z.mod_pos_bound; lia.
Qed.

Lemma fletcherChecksum_range (bytes : list Z) :
  0 <= fletcherChecksum bytes <= 65535.
Proof.
  unfold fletcherChecksum. cbv zeta.
  destruct (runningSums_range bytes 0 0) as [Ha Hb]; try lia.
  rewrite lor_shiftl_add by lia. change (2 ^ 8) with 256. lia.
Qed.

Lemma word_bytes (v : Z) :
  0 <= v <= 65535 ->
  byteVal (toUint8 v) + byteVal (toUint8 (Z.shiftr v 8)) * 2 ^ 8 = v.
Proof.
  intros H. rewrite !byteVal_toUint8, Z.shiftr_div_pow2 by lia.
  change (2 ^ 8) with 256.
  rewrite (Z.mod_small (v / 256)).
  - pose proof (Z.div_mod v 256). lia.
  - split; [apply Z.div_pos; lia|apply Z.div_lt_upper_bound; lia].
Qed.

Lemma writeUInt16LE_inv (v : Z) (buf : Buffer) :
  writeUInt16LE v = Ok buf ->
  0 <= v <= 65535 /\ buf = [toUint8 v; toUint8 (Z.shiftr v 8)].
Proof.
  unfold writeUInt16LE.
  destruct ((0 <=? v) && (v <=? 65535)) eqn:E; [|discriminate].
  apply andb_true_iff in E. destruct E as [E1 E2].
  apply Z.leb_le in E1, E2. intros H. injection H as <-. split; [lia|easy].
Qed.

(** The layout of a frame built for a payload. *)
Lemma frameOf_shape (c i : byte) (payload frame : Buffer) :
  frameOf c i payload = Ok frame ->
  exists l1 l2 k1 k2,
    frame = [xb5; x62; c; i; l1; l2] ++ payload ++ [k1; k2]
    /\ byteVal l1 + byteVal l2 * 2 ^ 8 = len payload
    /\ fletcherChecksum
         (frameBody (byteVal c) (byteVal i) (len payload) payload)
       = byteVal k1 + byteVal k2 * 2 ^ 8.
Proof.
  unfold frameOf.
  destruct (writeUInt16LE (len payload)) as [header|e] eqn:Eh;
    [|discriminate].
  apply writeUInt16LE_inv in Eh. destruct Eh as [Hn ->].
  rewrite (calcCheckSum_fletcher _ _ _ payload
             (byteVal_range c) (byteVal_range i) Hn).
  cbn [bind].
  destruct (writeUInt16LE (fletcherChecksum _)) as [trailer|e] eqn:Et;
    [|discriminate].
  apply writeUInt16LE_inv in Et. destruct Et as [Hk ->].
  intros H. injection H as <-.
  exists (toUint8 (len payload)), (toUint8 (Z.shiftr (len payload) 8)).
  eexists. eexists. split; [reflexivity|].
  split; [exact (word_bytes _ Hn)|].
  symmetry. exact (word_bytes _ Hk).
Qed.

(** Every payload of at most 65535 bytes has a frame. *)
Lemma frameOf_ok (c i : byte) (payload : Buffer) :
  len payload <= 65535 -> exists frame, frameOf c i payload = Ok frame.
Proof.
  intros H. pose proof (len_nonneg payload) as H0.
  unfold frameOf.
  rewrite (writeUInt16LE_word (len payload)) by lia.
  rewrite (calcCheckSum_fletcher _ _ _ payload
             (byteVal_range c) (byteVal_range i)) by lia.
  cbn [bind].
  rewrite (writeUInt16LE_word _ (fletcherChecksum_range _)).
  cbn [bind]. eauto.
Qed.

(** ** A stream of frames *)

Lemma pl_loop_frames (table : LengthTable)
  (msgs : list (byte * byte * Buffer)) (frames : list Buffer) :
  Forall2 (fun msg frame =>
             frameOf (fst (fst msg)) (snd (fst msg)) (snd msg) = Ok frame)
    msgs frames ->
  forall this : Plain.Parser,
    Plain.Inv table this ->
    Plain.packetState this = PACKET_SYNC_1 ->
    Forall (fun msg =>
              0 < len (snd msg)
              /\ accepts table (Plain.maxPacketPayloadLength this)
                   (byteVal (fst (fst msg))) (byteVal (snd (fst msg)))
                   (len (snd msg)) = true) msgs ->
    exists q,
      Plain.loop table this (concat frames)
      = Ok (q, map (fun msg =>
                      Push (byteVal (fst (fst msg))) (byteVal (snd (fst msg)))
                        (Some (snd msg))) msgs)
      /\ Plain.packetState q = PACKET_SYNC_1
      /\ Plain.streamIndex q = Plain.streamIndex this + len (concat frames).
Proof.
  induction 1 as [|[[c i] payload] frame msgs frames Hf _ IH];
    intros this HI Hst Hacc.
  - exists this. cbn [concat map Plain.loop]. unfold len. cbn [List.length].
    repeat split; [exact Hst|lia].
  - cbn [fst snd] in Hf.
    inversion Hacc as [|? ? [Hpos Ha] Hacc']; subst. cbn [fst snd] in Hpos, Ha.
    destruct (frameOf_shape c i payload frame Hf)
      as [l1 [l2 [k1 [k2 [-> [Hn Hck]]]]]].
    destruct (pl_sync_shape table this HI Hst) as [sf Hshape].
    set (m := Plain.maxPacketPayloadLength this) in *.
    set (si := Plain.streamIndex this) in *.
    clearbody m si. subst this.
    destruct (IH (Plain.mkParser Plain.packetTemplate 0 false PACKET_SYNC_1
                    (si + 8 + len payload) m)
                (Plain.InvIdle table _ _) eq_refl Hacc')
      as [q [E [Hq Hsi]]].
    exists q. cbn [concat map fst snd].
    rewrite <- !app_assoc.
    rewrite <- Hn in Ha.
    rewrite (pl_loop_frame table sf si m c i l1 l2 k1 k2 payload
               (concat frames) Ha (eq_sym Hn)).
    rewrite Hn, Hck, Z.eqb_refl.
    replace (len payload >? 0) with true by (symmetry; apply Z.gtb_lt; lia).
    rewrite E. cbn [bind fst snd].
    split; [reflexivity|]. split; [exact Hq|].
    rewrite Hsi. cbn [Plain.streamIndex].
    rewrite !len_app.
    change (len [xb5; x62; c; i; l1; l2]) with 6.
    change (len [k1; k2]) with 2. lia.
Qed.

Lemma bt_transform_frames (table : LengthTable)
  (msgs : list (byte * byte * Buffer)) (frames : list Buffer) :
  Forall2 (fun msg frame =>
             frameOf (fst (fst msg)) (snd (fst msg)) (snd msg) = Ok frame)
    msgs frames ->
  forall this : Backtrack.Parser,
    Backtrack.Inv table this ->
    Backtrack.packetState this = PACKET_SYNC_1 ->
    Forall (fun msg =>
              0 < len (snd msg)
              /\ accepts table (Backtrack.maxPacketPayloadLength this)
                   (byteVal (fst (fst msg))) (byteVal (snd (fst msg)))
                   (len (snd msg)) = true) msgs ->
    exists q,
      Backtrack._transform table this (concat frames)
      = Some (Ok (q, map (fun msg =>
                            Push (byteVal (fst (fst msg)))
                              (byteVal (snd (fst msg))) (Some (snd msg)))
                       msgs))
      /\ Backtrack.packetState q = PACKET_SYNC_1
      /\ Backtrack.streamIndex q
         = Backtrack.streamIndex this + len (concat frames).
Proof.
  induction 1 as [|[[c i] payload] frame msgs frames Hf _ IH];
    intros this HI Hst Hacc.
  - exists this. cbn [concat map]. unfold Backtrack._transform.
    rewrite bt_loop_nil. unfold len. cbn [List.length].
    repeat split; [exact Hst|lia].
  - cbn [fst snd] in Hf.
    inversion Hacc as [|? ? [Hpos Ha] Hacc']; subst. cbn [fst snd] in Hpos, Ha.
    destruct (frameOf_shape c i payload frame Hf)
      as [l1 [l2 [k1 [k2 [-> [Hn Hck]]]]]].
    destruct (IH (Backtrack.mkParser Backtrack.packetTemplate 0 false
                    PACKET_SYNC_1
                    (Backtrack.streamIndex this + 8 + len payload)
                    (Backtrack.maxPacketPayloadLength this))
                (Backtrack.InvIdle table _ _) eq_refl Hacc')
      as [q [E [Hq Hsi]]].
    exists q. cbn [concat map fst snd].
    rewrite <- !app_assoc.
    rewrite <- Hn in Ha.
    rewrite (bt_transform_frame table this c i l1 l2 k1 k2 payload
               (concat frames) HI Hst Ha (eq_sym Hn)).
    rewrite Hn, Hck, Z.eqb_refl.
    replace (len payload >? 0) with true by (symmetry; apply Z.gtb_lt; lia).
    rewrite E. cbn [prepend fst snd].
    split; [reflexivity|]. split; [exact Hq|].
    rewrite Hsi. cbn [Backtrack.streamIndex].
    rewrite !len_app.
    change (len [xb5; x62; c; i; l1; l2]) with 6.
    change (len [k1; k2]) with 2. lia.
Qed.

(** ** The checksum: range and changed bytes *)

Lemma runningSums_fst (bytes : list Z) :
  forall a b,
    fst (runningSums bytes a b) = (a + fold_right Z.add 0 bytes) mod 256
    \/ bytes = [].
Proof.
  induction bytes as [|v bytes IH]; intros a b; [right; reflexivity|left].
  cbn [runningSums fold_right].
  destruct (IH ((a + v) mod 256) ((b + (a + v) mod 256) mod 256)) as [->| ->].
  - rewrite Z.add_mod_idemp_l by lia. f_equal. lia.
  - cbn [runningSums fold_right fst]. f_equal. lia.
Qed.

Lemma fletcherChecksum_low (bytes : list Z) :
  fletcherChecksum bytes mod 256 = fold_right Z.add 0 bytes mod 256.
Proof.
  unfold fletcherChecksum. cbv zeta.
  destruct (runningSums_range bytes 0 0) as [Ha Hb]; try lia.
  rewrite lor_shiftl_add by lia. change (2 ^ 8) with 256.
  rewrite Z.mod_add by lia. rewrite Z.mod_small by exact Ha.
  destruct (runningSums_fst bytes 0 0) as [->| ->]; reflexivity.
Qed.

Lemma fold_right_add_app (a b : list Z) :
  fold_right Z.add 0 (a ++ b) = fold_right Z.add 0 a + fold_right Z.add 0 b.
Proof.
  induction a as [|v a IH]; cbn [app fold_right]; lia.
Qed.

(** Two sequences that differ in one place, by less than 256, have
    different checksums. *)
Lemma fletcherChecksum_one_change (before after : list Z) (v w : Z) :
  0 <= v < 256 -> 0 <= w < 256 -> v <> w ->
  fletcherChecksum (before ++ v :: after)
  <> fletcherChecksum (before ++ w :: after).
Proof.
  intros Hv Hw Hne H.
  apply (f_equal (fun z => z mod 256)) in H.
  rewrite !fletcherChecksum_low, !fold_right_add_app in H.
  cbn [fold_right] in H.
  set (s := fold_right Z.add 0 before) in H.
  set (s' := fold_right Z.add 0 after) in H.
  pose proof (Z.div_mod (s + (v + s')) 256).
  pose proof (Z.div_mod (s + (w + s')) 256).
  lia.
Qed.

(** ** The stream index never falls below the frame in progress *)

Lemma bt_react_index (table : LengthTable) (this : Backtrack.Parser)
  (b : byte) t :
  Backtrack.react table this b = Ok t ->
  Backtrack.streamIndex (Backtrack.parser t)
  + (len (Backtrack.data t) - Backtrack.pos t)
  = Backtrack.streamIndex this + 1.
Proof.
  intros H. unfold Backtrack.react in H.
  destruct (bt_step_index table this [b] 0 t) as [E _];
    [unfold len; cbn [List.length]; lia|exact H|].
  rewrite E. unfold len. cbn [List.length]. lia.
Qed.

Lemma bt_reachable_index (table : LengthTable) (this : Backtrack.Parser) :
  Backtrack.reachable table this ->
  Z.of_nat (Backtrack.frameBytes this) <= Backtrack.streamIndex this.
Proof.
  induction 1 as [options this H|this data i t Hr IH Hi H|this Hr IH].
  - unfold Backtrack.constructor in H.
    destruct (optionsMaxLength options) as [m|e]; [|discriminate].
    injection H as <-. cbn. lia.
  - apply bt_reachable_Inv in Hr.
    rewrite bt_step_react in H.
    destruct (bt_react_Inv table this (nth (Z.to_nat i) data x00) Hr)
      as [t' [Et [_ Hcase]]].
    pose proof (bt_react_index table this _ t' Et) as Hidx.
    rewrite Et in H. injection H as <-. cbn [Backtrack.parser].
    destruct Hcase as [[Hp [Hd Hfb]]|[Hp [Hsf Hfb]]].
    + rewrite Hp, Hd in Hidx. change (len [_]) with 1 in Hidx. lia.
    + rewrite Hp in Hidx. unfold len in Hidx.
      unfold Backtrack.frameBytes at 1. rewrite Hsf. lia.
  - pose proof (Nat2Z.is_nonneg (Backtrack.frameBytes this)).
    destruct this as [k p sf st si m]. cbn in *. lia.
Qed.

Lemma pl_reachable_index (table : LengthTable) (this : Plain.Parser) :
  Plain.reachable table this -> 0 <= Plain.streamIndex this.
Proof.
  induction 1 as [options this H|this b r Hr IH H|this Hr IH].
  - unfold Plain.constructor in H.
    destruct (optionsMaxLength options) as [m|e]; [|discriminate].
    injection H as <-. cbn. lia.
  - destruct r as [q o].
    destruct (pl_step_index table this _ q o H) as [E _].
    cbn [fst]. lia.
  - destruct this as [k p sf st si m]. exact IH.
Qed.

(** ** The properties *)

(** X1.  A whole frame whose length passes the check, read by the first
    version from a state in which it waits for a sync byte or the sync
    trailer: exactly one output, the packet, the polling event or the
    failed checksum event; whatever the checksum, the decoder is then
    idle, eight bytes and the payload further in the stream, and reads
    the bytes after the frame: the bytes of a failed frame are not read
    a second time. *)
Theorem X1_first_version_reads_a_frame_once (table : LengthTable)
  (this : Plain.Parser) (c i l1 l2 k1 k2 : byte) (payload rest : Buffer) :
  let n := byteVal l1 + byteVal l2 * 2 ^ 8 in
  let received := byteVal k1 + byteVal k2 * 2 ^ 8 in
  let computed :=
    fletcherChecksum (frameBody (byteVal c) (byteVal i) n payload) in
  let k := Plain.mkPacket (byteVal c) (byteVal i) n (Some payload) received in
  let idle :=
    Plain.mkParser Plain.packetTemplate 0 false PACKET_SYNC_1
      (Plain.streamIndex this + 8 + n) (Plain.maxPacketPayloadLength this) in
  Plain.reachable table this ->
  Plain.packetState this = PACKET_SYNC_1 ->
  accepts table (Plain.maxPacketPayloadLength this)
    (byteVal c) (byteVal i) n = true ->
  len payload = n ->
  exists q o,
    Plain._transform table idle rest = Ok (q, o)
    /\ Plain._transform table this
         ([xb5; x62; c; i; l1; l2] ++ payload ++ [k1; k2] ++ rest)
       = Ok (q,
             (if computed =? received then
                if n >? 0 then Push (byteVal c) (byteVal i) (Some payload)
                else PollingMessage k
              else FailedChecksum k computed) :: o).
Proof.
  intros n received computed k idle Hr Hst Hacc Hlen.
  apply pl_reachable_Inv in Hr.
  destruct (pl_sync_shape table this Hr Hst) as [sf Hshape].
  unfold Plain._transform.
  destruct (pl_loop_ends table rest idle (Plain.InvIdle table _ _))
    as [q [o [E _]]].
  exists q, o. split; [exact E|].
  rewrite Hshape at 1.
  rewrite (pl_loop_frame table sf _ _ c i l1 l2 k1 k2 payload rest Hacc Hlen).
  fold n. fold idle. rewrite E. reflexivity.
Qed.

Lemma X1_witness :
  exists q o,
    Plain._transform noTable
      (Plain.mkParser Plain.packetTemplate 0 false PACKET_SYNC_1
         (0 + 8 + 9) 300)
      validFrame
    = Ok (q, o)
    /\ Plain._transform noTable freshPlain
         ([xb5; x62; x01; x02; x09; x00] ++ embeddingPayload ++ [x00; x00]
            ++ validFrame)
       = Ok (q,
             FailedChecksum (Plain.mkPacket 1 2 9 (Some embeddingPayload) 0)
               7992 :: o).
Proof.
  assert (Hr : Plain.reachable noTable freshPlain)
    by (apply (Plain.reach_new noTable NoOptions); reflexivity).
  exact (X1_first_version_reads_a_frame_once noTable freshPlain
           x01 x02 x09 x00 x00 x00 embeddingPayload validFrame
           Hr eq_refl eq_refl eq_refl).
Defined.

(** X2.  A whole frame with a length that passes the check and the right
    checksum, read by the second version from a state in which it waits
    for a sync byte or the sync trailer: exactly one output, the packet
    or, for length 0, the polling event; then the decoder is idle, eight
    bytes and the payload further in the stream, and reads the rest. *)
Theorem X2_valid_frame_is_decoded (table : LengthTable)
  (this : Backtrack.Parser) (c i l1 l2 k1 k2 : byte) (payload rest : Buffer) :
  let n := byteVal l1 + byteVal l2 * 2 ^ 8 in
  let received := byteVal k1 + byteVal k2 * 2 ^ 8 in
  let k :=
    Backtrack.mkPacket (byteVal c) (byteVal i) n (Some payload) received
      (Some (byteVal l1)) (Some (byteVal l2))
      (Some (byteVal k1)) (Some (byteVal k2)) in
  let idle :=
    Backtrack.mkParser Backtrack.packetTemplate 0 false PACKET_SYNC_1
      (Backtrack.streamIndex this + 8 + n)
      (Backtrack.maxPacketPayloadLength this) in
  Backtrack.reachable table this ->
  Backtrack.packetState this = PACKET_SYNC_1 ->
  accepts table (Backtrack.maxPacketPayloadLength this)
    (byteVal c) (byteVal i) n = true ->
  len payload = n ->
  fletcherChecksum (frameBody (byteVal c) (byteVal i) n payload) = received ->
  exists q o,
    Backtrack._transform table idle rest = Some (Ok (q, o))
    /\ Backtrack._transform table this
         ([xb5; x62; c; i; l1; l2] ++ payload ++ [k1; k2] ++ rest)
       = Some (Ok (q,
                   (if n >? 0 then Push (byteVal c) (byteVal i) (Some payload)
                    else PollingMessage k) :: o)).
Proof.
  intros n received k idle Hr Hst Hacc Hlen Hck.
  apply bt_reachable_Inv in Hr.
  pose proof (bt_transform_frame table this c i l1 l2 k1 k2 payload rest
                Hr Hst Hacc Hlen) as H.
  cbv zeta in H. fold n in H. fold received in H.
  apply Z.eqb_eq in Hck. rewrite Hck in H. fold idle in H.
  destruct (bt_transform_ends table idle rest (Backtrack.InvIdle table _ _))
    as [q [o [E _]]].
  exists q, o. split; [exact E|]. rewrite H, E. reflexivity.
Qed.

Lemma X2_witness :
  exists q o,
    Backtrack._transform noTable
      (Backtrack.mkParser Backtrack.packetTemplate 0 false PACKET_SYNC_1
         (0 + 8 + 1) 300)
      validFrame
    = Some (Ok (q, o))
    /\ Backtrack._transform noTable freshBacktrack
         ([xb5; x62; x0a; x0b; x01; x00] ++ [xff] ++ [x15; x60] ++ validFrame)
       = Some (Ok (q, Push 10 11 (Some [xff]) :: o)).
Proof.
  assert (Hr : Backtrack.reachable noTable freshBacktrack)
    by (apply (Backtrack.reach_new noTable NoOptions); reflexivity).
  exact (X2_valid_frame_is_decoded noTable freshBacktrack
           x0a x0b x01 x00 x15 x60 [xff] validFrame
           Hr eq_refl eq_refl eq_refl eq_refl).
Defined.

(** X3.  The header of a frame whose length does not pass the check,
    read from a state in which the decoder waits for a sync byte or the
    sync trailer, in both versions: one event, [payload_too_large] with
    the maximum when the maximum is not 0 and the length is above it,
    else [wrong_payload_length] with the length of the table when the
    length is not 0 and differs from it; the packet of the event has no
    payload; the decoder is then idle, six bytes further, and reads the
    bytes after the second length byte. *)
Theorem X3_rejected_header (table : LengthTable)
  (thisA : Plain.Parser) (thisB : Backtrack.Parser)
  (c i l1 l2 : byte) (rest : Buffer) :
  let n := byteVal l1 + byteVal l2 * 2 ^ 8 in
  let mA := Plain.maxPacketPayloadLength thisA in
  let mB := Backtrack.maxPacketPayloadLength thisB in
  let kA := Plain.mkPacket (byteVal c) (byteVal i) n None 0 in
  let kB :=
    Backtrack.mkPacket (byteVal c) (byteVal i) n None 0
      (Some (byteVal l1)) (Some (byteVal l2)) None None in
  let runA := fun o =>
    exists q outs,
      Plain._transform table
        (Plain.mkParser Plain.packetTemplate 0 false PACKET_SYNC_1
           (Plain.streamIndex thisA + 6) mA) rest
      = Ok (q, outs)
      /\ Plain._transform table thisA ([xb5; x62; c; i; l1; l2] ++ rest)
         = Ok (q, o :: outs) in
  let runB := fun o =>
    exists q outs,
      Backtrack._transform table
        (Backtrack.mkParser Backtrack.packetTemplate 0 false PACKET_SYNC_1
           (Backtrack.streamIndex thisB + 6) mB) rest
      = Some (Ok (q, outs))
      /\ Backtrack._transform table thisB ([xb5; x62; c; i; l1; l2] ++ rest)
         = Some (Ok (q, o :: outs)) in
  Plain.reachable table thisA ->
  Backtrack.reachable table thisB ->
  Plain.packetState thisA = PACKET_SYNC_1 ->
  Backtrack.packetState thisB = PACKET_SYNC_1 ->
  (mA <> 0 -> n > mA -> runA (PayloadTooLarge kA mA))
  /\ (forall expected,
         mA = 0 \/ n <= mA -> n <> 0 ->
         table (byteVal c) (byteVal i) = Some expected -> n <> expected ->
         runA (WrongPayloadLength kA expected))
  /\ (mB <> 0 -> n > mB -> runB (PayloadTooLarge kB mB))
  /\ (forall expected,
         mB = 0 \/ n <= mB -> n <> 0 ->
         table (byteVal c) (byteVal i) = Some expected -> n <> expected ->
         runB (WrongPayloadLength kB expected)).
Proof.
  intros n mA mB kA kB runA runB HrA HrB HstA HstB.
  apply pl_reachable_Inv in HrA. apply bt_reachable_Inv in HrB.
  destruct (pl_sync_shape table thisA HrA HstA) as [sfA HshapeA].
  destruct (bt_sync_shape table thisB HrB HstB) as [sfB HshapeB].
  fold mA in HshapeA. fold mB in HshapeB.
  destruct (pl_loop_rejected table sfA (Plain.streamIndex thisA) mA
              c i l1 l2 rest) as [HlargeA HwrongA].
  cbv zeta in HlargeA, HwrongA. fold n in HlargeA, HwrongA.
  fold kA in HlargeA, HwrongA. rewrite <- HshapeA in HlargeA, HwrongA.
  pose proof (fun fuel =>
                bt_loop_rejected table sfB (Backtrack.streamIndex thisB) mB
                  c i l1 l2 rest fuel) as HB.
  cbv zeta in HB. fold n in HB. fold kB in HB. rewrite <- HshapeB in HB.
  subst runA runB. cbv beta.
  split; [|split; [|split]].
  - intros Hm Hn.
    exact (pl_loop_then table thisA _ _ rest _ (Plain.InvIdle table _ _)
             (HlargeA Hm Hn)).
  - intros expected Hsmall Hnz Ht Hne.
    exact (pl_loop_then table thisA _ _ rest _ (Plain.InvIdle table _ _)
             (HwrongA expected Hsmall Hnz Ht Hne)).
  - intros Hm Hn.
    exact (bt_loop_then table thisB _ _ rest _ HrB
             (Backtrack.InvIdle table _ _)
             (fun fuel => proj1 (HB fuel) Hm Hn)).
  - intros expected Hsmall Hnz Ht Hne.
    exact (bt_loop_then table thisB _ _ rest _ HrB
             (Backtrack.InvIdle table _ _)
             (fun fuel => proj2 (HB fuel) expected Hsmall Hnz Ht Hne)).
Qed.

Lemma X3_witness :
  (exists q outs,
      Plain._transform sampleTable
        (Plain.mkParser Plain.packetTemplate 0 false PACKET_SYNC_1 (0 + 6) 300)
        validFrame
      = Ok (q, outs)
      /\ Plain._transform sampleTable freshPlain
           ([xb5; x62; x0a; x0b; x00; x02] ++ validFrame)
         = Ok (q, PayloadTooLarge (Plain.mkPacket 10 11 512 None 0) 300
                  :: outs))
  /\ (exists q outs,
         Backtrack._transform sampleTable
           (Backtrack.mkParser Backtrack.packetTemplate 0 false PACKET_SYNC_1
              (0 + 6) 300)
           validFrame
         = Some (Ok (q, outs))
         /\ Backtrack._transform sampleTable freshBacktrack
              ([xb5; x62; x02; x01; x04; x00] ++ validFrame)
            = Some (Ok (q,
                        WrongPayloadLength
                          (Backtrack.mkPacket 2 1 4 None 0 (Some 4) (Some 0)
                             None None) 8
                        :: outs))).
Proof.
  assert (HrA : Plain.reachable sampleTable freshPlain)
    by (apply (Plain.reach_new sampleTable NoOptions); reflexivity).
  assert (HrB : Backtrack.reachable sampleTable freshBacktrack)
    by (apply (Backtrack.reach_new sampleTable NoOptions); reflexivity).
  split.
  - assert (Hm : 300 <> 0) by lia.
    assert (Hn : 0 + 2 * 2 ^ 8 > 300) by reflexivity.
    exact (proj1 (X3_rejected_header sampleTable freshPlain freshBacktrack
                    x0a x0b x00 x02 validFrame HrA HrB eq_refl eq_refl)
             Hm Hn).
  - assert (Hsmall : 300 = 0 \/ 4 + 0 * 2 ^ 8 <= 300) by (right; lia).
    assert (Hnz : 4 + 0 * 2 ^ 8 <> 0) by lia.
    assert (Hne : 4 + 0 * 2 ^ 8 <> 8) by lia.
    exact (proj2 (proj2 (proj2
             (X3_rejected_header sampleTable freshPlain freshBacktrack
                x02 x01 x04 x00 validFrame HrA HrB eq_refl eq_refl)))
             8 Hsmall Hnz eq_refl Hne).
Defined.

(** X4.  A frame whose length passes the check and of which the last
    byte at least is still to come, read from a state in which the
    decoder waits for a sync byte or the sync trailer: no output, in
    both versions; nothing is handed out before the second checksum
    byte. *)
Theorem X4_no_output_before_the_last_byte (table : LengthTable)
  (thisA : Plain.Parser) (thisB : Backtrack.Parser)
  (c i l1 l2 k1 k2 : byte) (payload chunk coming : Buffer) :
  let n := byteVal l1 + byteVal l2 * 2 ^ 8 in
  Plain.reachable table thisA ->
  Backtrack.reachable table thisB ->
  Plain.packetState thisA = PACKET_SYNC_1 ->
  Backtrack.packetState thisB = PACKET_SYNC_1 ->
  accepts table (Plain.maxPacketPayloadLength thisA)
    (byteVal c) (byteVal i) n = true ->
  accepts table (Backtrack.maxPacketPayloadLength thisB)
    (byteVal c) (byteVal i) n = true ->
  len payload = n ->
  chunk ++ coming = [xb5; x62; c; i; l1; l2] ++ payload ++ [k1; k2] ->
  coming <> [] ->
  (exists q, Plain._transform table thisA chunk = Ok (q, []))
  /\ (exists q, Backtrack._transform table thisB chunk = Some (Ok (q, []))).
Proof.
  intros n HrA HrB HstA HstB HaccA HaccB Hlen Hcut Hne.
  apply pl_reachable_Inv in HrA. apply bt_reachable_Inv in HrB.
  destruct (pl_sync_shape table thisA HrA HstA) as [sfA HshapeA].
  destruct (bt_sync_shape table thisB HrB HstB) as [sfB HshapeB].
  set (mA := Plain.maxPacketPayloadLength thisA) in *.
  set (siA := Plain.streamIndex thisA) in *.
  set (mB := Backtrack.maxPacketPayloadLength thisB) in *.
  set (siB := Backtrack.streamIndex thisB) in *.
  clearbody mA siA mB siB. subst thisA thisB.
  destruct (strict_prefix_split chunk coming
              ([xb5; x62; c; i; l1; l2] ++ payload ++ [k1]) k2)
    as [later Hbody]; [|exact Hne|].
  { rewrite Hcut, <- !app_assoc. reflexivity. }
  split.
  - unfold Plain._transform.
    eapply (pl_loop_prefix_quiet table _ _ chunk later).
    rewrite <- Hbody.
    exact (pl_loop_frame_head table sfA _ _ c i l1 l2 k1 payload HaccA Hlen).
  - eapply (bt_transform_prefix_quiet table _ _ chunk later HrB).
    rewrite <- Hbody.
    apply (bt_transform_loop table _ _
             (6 + (List.length payload + 1)) _ HrB).
    exact (bt_loop_frame_head table sfB _ _ c i l1 l2 k1 payload HaccB Hlen).
Qed.

Lemma X4_witness :
  (exists q,
      Plain._transform noTable freshPlain [xb5; x62; x0a; x0b; x01; x00; xff]
      = Ok (q, []))
  /\ (exists q,
         Backtrack._transform noTable freshBacktrack
           [xb5; x62; x0a; x0b; x01; x00; xff]
         = Some (Ok (q, []))).
Proof.
  assert (HrA : Plain.reachable noTable freshPlain)
    by (apply (Plain.reach_new noTable NoOptions); reflexivity).
  assert (HrB : Backtrack.reachable noTable freshBacktrack)
    by (apply (Backtrack.reach_new noTable NoOptions); reflexivity).
  assert (Hne : [x15; x60] <> []) by discriminate.
  exact (X4_no_output_before_the_last_byte noTable freshPlain freshBacktrack
           x0a x0b x01 x00 x15 x60 [xff]
           [xb5; x62; x0a; x0b; x01; x00; xff] [x15; x60]
           HrA HrB eq_refl eq_refl eq_refl eq_refl eq_refl eq_refl Hne).
Defined.

(** X5.  Whatever bytes are written, in whatever chunks, every output
    of either version comes from a frame read in full: a packet has a
    payload of the announced, accepted, non-zero length; a
    [payload_too_large] event carries the maximum of the decoder, not 0,
    and a length above it; a [wrong_payload_length] event carries the
    length of the table for its class and id and another, non-zero
    length within the maximum; a [polling_message] event has length 0
    and the checksum of its header; a [failed_checksum] event has a
    payload of the announced, accepted length and a computed checksum
    that is not the received one.  The events of the first two kinds
    have no payload. *)
Theorem X5_outputs_are_sound (table : LengthTable)
  (thisA : Plain.Parser) (thisB : Backtrack.Parser) (chunks : list Buffer) :
  Plain.reachable table thisA ->
  Backtrack.reachable table thisB ->
  (exists q outs,
      Plain.feed table thisA chunks = Ok (q, outs)
      /\ Forall (soundOutput table (Plain.maxPacketPayloadLength thisA)) outs)
  /\ (exists q outs,
         Backtrack.feed table thisB chunks = Some (Ok (q, outs))
         /\ Forall (soundOutput table (Backtrack.maxPacketPayloadLength thisB))
              (map eraseOutput outs)).
Proof.
  intros HrA HrB.
  apply pl_reachable_Inv in HrA. apply bt_reachable_Inv in HrB.
  split.
  - destruct (pl_feed_ends table chunks thisA HrA) as [q [outs [E _]]].
    exists q, outs. split; [exact E|].
    rewrite pl_feed_concat in E.
    exact (pl_loop_sound table (concat chunks) thisA q outs HrA E).
  - destruct (bt_feed_ends table chunks thisB HrB) as [q [outs [E _]]].
    exists q, outs. split; [exact E|].
    rewrite (bt_feed_concat table chunks thisB HrB) in E.
    exact (bt_loop_sound table _ thisB (concat chunks) q outs HrB E).
Qed.

Lemma X5_witness :
  (exists q outs,
      Plain.feed sampleTable freshPlain
        [[xb5; x62; x01; x02; x09; x00]; embeddingPayload; [x00; x00]]
      = Ok (q, outs)
      /\ Forall (soundOutput sampleTable 300) outs)
  /\ (exists q outs,
         Backtrack.feed sampleTable freshBacktrack
           [[xb5; x62; x01; x02; x09; x00]; embeddingPayload; [x00; x00]]
         = Some (Ok (q, outs))
         /\ Forall (soundOutput sampleTable 300) (map eraseOutput outs)).
Proof.
  assert (HrA : Plain.reachable sampleTable freshPlain)
    by (apply (Plain.reach_new sampleTable NoOptions); reflexivity).
  assert (HrB : Backtrack.reachable sampleTable freshBacktrack)
    by (apply (Backtrack.reach_new sampleTable NoOptions); reflexivity).
  exact (X5_outputs_are_sound sampleTable freshPlain freshBacktrack
           [[xb5; x62; x01; x02; x09; x00]; embeddingPayload; [x00; x00]]
           HrA HrB).
Defined.

(** X6.  Round trip.  Frames built for a list of non-empty payloads
    whose lengths pass the check, written one after the other and cut
    into chunks at any places, read from a state in which the decoder
    waits for a sync byte or the sync trailer: both versions hand out
    exactly the packets of these payloads, with their classes and ids,
    in the order of the frames, and nothing else; the decoder then waits
    for a sync byte again and has counted every byte. *)
Theorem X6_frames_round_trip (table : LengthTable)
  (thisA : Plain.Parser) (thisB : Backtrack.Parser)
  (msgs : list (byte * byte * Buffer)) (frames chunks : list Buffer) :
  Plain.reachable table thisA ->
  Backtrack.reachable table thisB ->
  Plain.packetState thisA = PACKET_SYNC_1 ->
  Backtrack.packetState thisB = PACKET_SYNC_1 ->
  Forall2 (fun msg frame =>
             frameOf (fst (fst msg)) (snd (fst msg)) (snd msg) = Ok frame)
    msgs frames ->
  Forall (fun msg =>
            0 < len (snd msg)
            /\ accepts table (Plain.maxPacketPayloadLength thisA)
                 (byteVal (fst (fst msg))) (byteVal (snd (fst msg)))
                 (len (snd msg)) = true
            /\ accepts table (Backtrack.maxPacketPayloadLength thisB)
                 (byteVal (fst (fst msg))) (byteVal (snd (fst msg)))
                 (len (snd msg)) = true) msgs ->
  concat chunks = concat frames ->
  (exists q,
      Plain.feed table thisA chunks
      = Ok (q, map (fun msg =>
                      Push (byteVal (fst (fst msg))) (byteVal (snd (fst msg)))
                        (Some (snd msg))) msgs)
      /\ Plain.packetState q = PACKET_SYNC_1
      /\ Plain.streamIndex q = Plain.streamIndex thisA + len (concat chunks))
  /\ (exists q,
         Backtrack.feed table thisB chunks
         = Some (Ok (q, map (fun msg =>
                               Push (byteVal (fst (fst msg)))
                                 (byteVal (snd (fst msg))) (Some (snd msg)))
                          msgs))
         /\ Backtrack.packetState q = PACKET_SYNC_1
         /\ Backtrack.streamIndex q
            = Backtrack.streamIndex thisB + len (concat chunks)).
Proof.
  intros HrA HrB HstA HstB Hframes Hacc Hcut.
  apply pl_reachable_Inv in HrA. apply bt_reachable_Inv in HrB.
  rewrite pl_feed_concat, (bt_feed_concat table chunks thisB HrB), Hcut.
  split.
  - apply (pl_loop_frames table msgs frames Hframes thisA HrA HstA).
    revert Hacc. apply Forall_impl.
    intros msg [H0 [HA _]]. split; assumption.
  - apply (bt_transform_frames table msgs frames Hframes thisB HrB HstB).
    revert Hacc. apply Forall_impl.
    intros msg [H0 [_ HB]]. split; assumption.
Qed.

Lemma X6_witness :
  (exists q,
      Plain.feed noTable freshPlain
        [[xb5; x62; x0a]; [x0b; x01; x00; xff; x15; x60; xb5];
         [x62; x01; x02; x01; x00; xff; x03; x0f]]
      = Ok (q, [Push 10 11 (Some [xff]); Push 1 2 (Some [xff])])
      /\ Plain.packetState q = PACKET_SYNC_1
      /\ Plain.streamIndex q = 0 + 18)
  /\ (exists q,
         Backtrack.feed noTable freshBacktrack
           [[xb5; x62; x0a]; [x0b; x01; x00; xff; x15; x60; xb5];
            [x62; x01; x02; x01; x00; xff; x03; x0f]]
         = Some (Ok (q, [Push 10 11 (Some [xff]); Push 1 2 (Some [xff])]))
         /\ Backtrack.packetState q = PACKET_SYNC_1
         /\ Backtrack.streamIndex q = 0 + 18).
Proof.
  assert (HrA : Plain.reachable noTable freshPlain)
    by (apply (Plain.reach_new noTable NoOptions); reflexivity).
  assert (HrB : Backtrack.reachable noTable freshBacktrack)
    by (apply (Backtrack.reach_new noTable NoOptions); reflexivity).
  assert (Hframes :
            Forall2 (fun msg frame =>
                       frameOf (fst (fst msg)) (snd (fst msg)) (snd msg)
                       = Ok frame)
              [(x0a, x0b, [xff]); (x01, x02, [xff])]
              [validFrame; embeddingPayload])
    by (repeat constructor).
  assert (Hacc :
            Forall (fun msg =>
                      0 < len (snd msg)
                      /\ accepts noTable
                           (Plain.maxPacketPayloadLength freshPlain)
                           (byteVal (fst (fst msg)))
                           (byteVal (snd (fst msg))) (len (snd msg)) = true
                      /\ accepts noTable
                           (Backtrack.maxPacketPayloadLength freshBacktrack)
                           (byteVal (fst (fst msg)))
                           (byteVal (snd (fst msg))) (len (snd msg)) = true)
              [(x0a, x0b, [xff]); (x01, x02, [xff])])
    by (repeat constructor).
  exact (X6_frames_round_trip noTable freshPlain freshBacktrack
           [(x0a, x0b, [xff]); (x01, x02, [xff])]
           [validFrame; embeddingPayload]
           [[xb5; x62; x0a]; [x0b; x01; x00; xff; x15; x60; xb5];
            [x62; x01; x02; x01; x00; xff; x03; x0f]]
           HrA HrB eq_refl eq_refl Hframes Hacc eq_refl).
Defined.

(** X7.  The stream index counts the bytes written to the decoder: after
    any chunks, from any state that the decoder can be in, it has grown
    by the number of their bytes, in the second version too, where a
    failed checksum takes it back by the bytes that are read again.  The
    maximum payload length stays what the constructor made it. *)
Theorem X7_stream_index_counts_bytes (table : LengthTable)
  (thisA : Plain.Parser) (thisB : Backtrack.Parser) (chunks : list Buffer) :
  Plain.reachable table thisA ->
  Backtrack.reachable table thisB ->
  (exists q outs,
      Plain.feed table thisA chunks = Ok (q, outs)
      /\ Plain.streamIndex q = Plain.streamIndex thisA + len (concat chunks)
      /\ Plain.maxPacketPayloadLength q = Plain.maxPacketPayloadLength thisA)
  /\ (exists q outs,
        Backtrack.feed table thisB chunks = Some (Ok (q, outs))
        /\ Backtrack.streamIndex q
           = Backtrack.streamIndex thisB + len (concat chunks)
        /\ Backtrack.maxPacketPayloadLength q
           = Backtrack.maxPacketPayloadLength thisB).
Proof.
  intros HA HB.
  apply pl_reachable_Inv in HA. apply bt_reachable_Inv in HB. split.
  - destruct (pl_feed_ends table chunks thisA HA) as [q [outs [E _]]].
    exists q, outs. split; [exact E|].
    rewrite pl_feed_concat in E.
    exact (pl_loop_index table _ thisA q outs E).
  - destruct (bt_feed_ends table chunks thisB HB) as [q [outs [E _]]].
    exists q, outs. split; [exact E|].
    exact (bt_feed_index table chunks thisB q outs E).
Qed.

Lemma X7_witness :
  exists q outs,
    Backtrack.feed noTable freshBacktrack
      [[xb5; x62; x01; x02; x09; x00]; embeddingPayload; [x00; x00]]
    = Some (Ok (q, outs))
    /\ Backtrack.streamIndex q = 0 + 17
    /\ Backtrack.maxPacketPayloadLength q = 300.
Proof.
  exact (proj2 (X7_stream_index_counts_bytes noTable freshPlain freshBacktrack
                  [[xb5; x62; x01; x02; x09; x00]; embeddingPayload;
                   [x00; x00]]
                  (Plain.reach_new noTable NoOptions freshPlain eq_refl)
                  (Backtrack.reach_new noTable NoOptions freshBacktrack
                     eq_refl))).
Defined.

(** X8.  In a decoder made by the constructor and fed any bytes, the
    stream index is never negative; in the second version, which moves
    the index back when it reads a frame again, the index is never
    below the number of bytes of the frame in progress. *)
Theorem X8_stream_index_is_never_negative (table : LengthTable)
  (thisA : Plain.Parser) (thisB : Backtrack.Parser) :
  (Plain.reachable table thisA -> 0 <= Plain.streamIndex thisA)
  /\ (Backtrack.reachable table thisB ->
      0 <= Z.of_nat (Backtrack.frameBytes thisB)
        <= Backtrack.streamIndex thisB).
Proof.
  split.
  - apply pl_reachable_index.
  - intros Hr. split; [lia|exact (bt_reachable_index table thisB Hr)].
Qed.

Lemma X8_witness :
  0 <= Z.of_nat
         (Backtrack.frameBytes
            (Backtrack.mkParser Backtrack.packetTemplate 0 true PACKET_SYNC_1
               1 300))
    <= 1.
Proof.
  assert (Hr0 : Backtrack.reachable noTable freshBacktrack)
    by (apply (Backtrack.reach_new noTable NoOptions); reflexivity).
  assert (Hi : 0 <= 0 < len [xb5]) by (unfold len; simpl; lia).
  assert (Hr : Backtrack.reachable noTable
                 (Backtrack.mkParser Backtrack.packetTemplate 0 true
                    PACKET_SYNC_1 1 300)).
  { exact (Backtrack.reach_step noTable freshBacktrack [xb5] 0
             (Backtrack.mkTurn
                (Backtrack.mkParser Backtrack.packetTemplate 0 true
                   PACKET_SYNC_1 1 300) [xb5] 1 [])
             Hr0 Hi eq_refl). }
  exact (proj2 (X8_stream_index_is_never_negative noTable freshPlain
                  (Backtrack.mkParser Backtrack.packetTemplate 0 true
                     PACKET_SYNC_1 1 300)) Hr).
Defined.

(** X9.  Bytes other than 0xB5 in front of anything else, read by a
    decoder that waits for a sync byte: both versions count them and
    hand out nothing for them; what follows is read as if these bytes
    had not been there, but for the stream index.  In particular a
    chunk of such bytes alone gives no output at all. *)
Theorem X9_noise_is_skipped (table : LengthTable)
  (thisA : Plain.Parser) (thisB : Backtrack.Parser) (noise rest : Buffer) :
  Forall (fun b => b <> xb5) noise ->
  (Plain.packetStartFound thisA = false ->
   Plain._transform table thisA (noise ++ rest)
   = Plain._transform table
       (Plain.setStreamIndex (Plain.streamIndex thisA + len noise) thisA)
       rest)
  /\ (Backtrack.reachable table thisB ->
      Backtrack.packetStartFound thisB = false ->
      Backtrack._transform table thisB (noise ++ rest)
      = Backtrack._transform table
          (Backtrack.setStreamIndex
             (Backtrack.streamIndex thisB + len noise) thisB)
          rest).
Proof.
  intros Hall. split.
  - intros Hs. unfold Plain._transform.
    rewrite pl_loop_app, (pl_loop_noise table noise thisA Hs Hall).
    cbn [bind fst snd app].
    destruct (Plain.loop table _ rest) as [[q o]|e]; reflexivity.
  - intros Hr Hs. apply bt_reachable_Inv in Hr.
    rewrite (bt_transform_app table thisB noise rest Hr).
    unfold Backtrack._transform at 1.
    rewrite (bt_loop_noise table noise thisB (Backtrack.turnsFor thisB noise))
      by (try (unfold Backtrack.turnsFor; lia); assumption).
    cbn [fst snd].
    destruct (Backtrack._transform table _ rest) as [[[q o]|e]|];
      reflexivity.
Qed.

Lemma X9_witness :
  Plain._transform noTable freshPlain ([x62; x00; xff; x0a] ++ validFrame)
  = Plain._transform noTable (Plain.setStreamIndex (0 + 4) freshPlain)
      validFrame
  /\ Backtrack._transform noTable freshBacktrack
       ([x62; x00; xff; x0a] ++ validFrame)
     = Backtrack._transform noTable
         (Backtrack.setStreamIndex (0 + 4) freshBacktrack) validFrame.
Proof.
  assert (Hall : Forall (fun b => b <> xb5) [x62; x00; xff; x0a])
    by (repeat constructor; discriminate).
  assert (HrB : Backtrack.reachable noTable freshBacktrack)
    by (apply (Backtrack.reach_new noTable NoOptions); reflexivity).
  split.
  - exact (proj1 (X9_noise_is_skipped noTable freshPlain freshBacktrack
                    [x62; x00; xff; x0a] validFrame Hall) eq_refl).
  - exact (proj2 (X9_noise_is_skipped noTable freshPlain freshBacktrack
                    [x62; x00; xff; x0a] validFrame Hall) HrB eq_refl).
Defined.

(** X10.  [calcCheckSum] on bytes and a 16-bit length: one changed byte
    of the payload, a changed class or a changed id changes the
    checksum. *)
Theorem X10_checksum_catches_one_changed_byte (c c' i i' n : Z)
  (before after : Buffer) (x y : byte) :
  isByte c -> isByte c' -> isByte i -> isByte i' -> 0 <= n <= 65535 ->
  (x <> y ->
   calcCheckSum c i n (Some (before ++ x :: after))
   <> calcCheckSum c i n (Some (before ++ y :: after)))
  /\ (c <> c' ->
      forall payload,
        calcCheckSum c i n (Some payload)
        <> calcCheckSum c' i n (Some payload))
  /\ (i <> i' ->
      forall payload,
        calcCheckSum c i n (Some payload)
        <> calcCheckSum c i' n (Some payload)).
Proof.
  intros Hc Hc' Hi Hi' Hn.
  split; [|split].
  - intros Hxy. rewrite !calcCheckSum_fletcher by assumption.
    intros H. injection H as H. revert H.
    unfold frameBody. rewrite !map_app. cbn [map]. rewrite !app_assoc.
    apply fletcherChecksum_one_change;
      try apply byteVal_range.
    intros E. apply Hxy, byteVal_inj, E.
  - intros Hcc payload. rewrite !calcCheckSum_fletcher by assumption.
    intros H. injection H as H. revert H.
    unfold frameBody.
    apply (fletcherChecksum_one_change [] _ c c'); assumption.
  - intros Hii payload. rewrite !calcCheckSum_fletcher by assumption.
    intros H. injection H as H. revert H.
    unfold frameBody.
    apply (fletcherChecksum_one_change [c] _ i i'); assumption.
Qed.

Lemma X10_witness :
  calcCheckSum 10 11 1 (Some ([] ++ xff :: []))
  <> calcCheckSum 10 11 1 (Some ([] ++ xfe :: [])).
Proof.
  assert (Hc : isByte 10) by (unfold isByte; lia).
  assert (Hi : isByte 11) by (unfold isByte; lia).
  assert (Hn : 0 <= 1 <= 65535) by lia.
  assert (Hne : xff <> xfe) by discriminate.
  exact (proj1 (X10_checksum_catches_one_changed_byte 10 10 11 11 1 [] []
                  xff xfe Hc Hc Hi Hi Hn) Hne).
Defined.

(** X11.  A frame that would be valid, with one byte of its payload
    changed on the way: the checksum computed over what arrived is not
    the one received, and the first output of both versions for this
    frame is the [failed_checksum] event with the payload as it
    arrived; no packet is made of it. *)
Theorem X11_changed_payload_byte_is_reported (table : LengthTable)
  (thisA : Plain.Parser) (thisB : Backtrack.Parser)
  (c i l1 l2 k1 k2 x y : byte) (before after rest : Buffer) :
  let n := byteVal l1 + byteVal l2 * 2 ^ 8 in
  let received := byteVal k1 + byteVal k2 * 2 ^ 8 in
  let sent := before ++ x :: after in
  let got := before ++ y :: after in
  let computed :=
    fletcherChecksum (frameBody (byteVal c) (byteVal i) n got) in
  let kA := Plain.mkPacket (byteVal c) (byteVal i) n (Some got) received in
  let kB :=
    Backtrack.mkPacket (byteVal c) (byteVal i) n (Some got) received
      (Some (byteVal l1)) (Some (byteVal l2))
      (Some (byteVal k1)) (Some (byteVal k2)) in
  Plain.reachable table thisA ->
  Backtrack.reachable table thisB ->
  Plain.packetState thisA = PACKET_SYNC_1 ->
  Backtrack.packetState thisB = PACKET_SYNC_1 ->
  accepts table (Plain.maxPacketPayloadLength thisA)
    (byteVal c) (byteVal i) n = true ->
  accepts table (Backtrack.maxPacketPayloadLength thisB)
    (byteVal c) (byteVal i) n = true ->
  len sent = n ->
  fletcherChecksum (frameBody (byteVal c) (byteVal i) n sent) = received ->
  x <> y ->
  computed <> received
  /\ (exists q o,
         Plain._transform table thisA
           ([xb5; x62; c; i; l1; l2] ++ got ++ [k1; k2] ++ rest)
         = Ok (q, FailedChecksum kA computed :: o))
  /\ (exists q o,
         Backtrack._transform table thisB
           ([xb5; x62; c; i; l1; l2] ++ got ++ [k1; k2] ++ rest)
         = Some (Ok (q, FailedChecksum kB computed :: o))).
Proof.
  intros n received sent got computed kA kB
    HrA HrB HstA HstB HaccA HaccB Hlen Hck Hxy.
  assert (Hgot : len got = n).
  { rewrite <- Hlen. subst got sent. rewrite !len_app, !len_cons.
    reflexivity. }
  assert (Hne : computed <> received).
  { rewrite <- Hck. subst computed got sent. unfold frameBody.
    rewrite !map_app. cbn [map]. rewrite !app_assoc.
    apply fletcherChecksum_one_change; try apply byteVal_range.
    intros E. apply Hxy. symmetry. apply byteVal_inj, E. }
  split; [exact Hne|].
  apply Z.eqb_neq in Hne.
  apply pl_reachable_Inv in HrA. apply bt_reachable_Inv in HrB.
  split.
  - destruct (pl_sync_shape table thisA HrA HstA) as [sf Hshape].
    set (m := Plain.maxPacketPayloadLength thisA) in *.
    set (si := Plain.streamIndex thisA) in *.
    clearbody m si. subst thisA.
    unfold Plain._transform.
    rewrite (pl_loop_frame table sf si m c i l1 l2 k1 k2 got rest HaccA Hgot).
    fold n. fold received. fold computed. fold kA. rewrite Hne.
    destruct (pl_loop_ends table rest
                (Plain.mkParser Plain.packetTemplate 0 false PACKET_SYNC_1
                   (si + 8 + n) m)
                (Plain.InvIdle table _ _)) as [q [o [E _]]].
    rewrite E. cbn [bind fst snd]. eauto.
  - rewrite (bt_transform_frame table thisB c i l1 l2 k1 k2 got rest
               HrB HstB HaccB Hgot).
    fold n. fold received. fold computed. fold kB. rewrite Hne.
    destruct (bt_transform_ends table
                (Backtrack.mkParser Backtrack.packetTemplate 0 false
                   PACKET_SYNC_1 (Backtrack.streamIndex thisB + 2)
                   (Backtrack.maxPacketPayloadLength thisB))
                ([c; i; l1; l2] ++ got ++ [k1; k2] ++ rest)
                (Backtrack.InvIdle table _ _)) as [q [o [E _]]].
    rewrite E. cbn [prepend fst snd app]. eauto.
Qed.

Lemma X11_witness :
  fletcherChecksum (frameBody 10 11 (1 + 0 * 2 ^ 8) ([] ++ xfe :: []))
  <> 21 + 96 * 2 ^ 8
  /\ (exists q o,
         Plain._transform noTable freshPlain
           ([xb5; x62; x0a; x0b; x01; x00] ++ ([] ++ xfe :: [])
              ++ [x15; x60] ++ validFrame)
         = Ok (q,
               FailedChecksum
                 (Plain.mkPacket 10 11 (1 + 0 * 2 ^ 8)
                    (Some ([] ++ xfe :: [])) (21 + 96 * 2 ^ 8))
                 (fletcherChecksum
                    (frameBody 10 11 (1 + 0 * 2 ^ 8) ([] ++ xfe :: [])))
               :: o))
  /\ (exists q o,
         Backtrack._transform noTable freshBacktrack
           ([xb5; x62; x0a; x0b; x01; x00] ++ ([] ++ xfe :: [])
              ++ [x15; x60] ++ validFrame)
         = Some (Ok (q,
                     FailedChecksum
                       (Backtrack.mkPacket 10 11 (1 + 0 * 2 ^ 8)
                          (Some ([] ++ xfe :: [])) (21 + 96 * 2 ^ 8)
                          (Some 1) (Some 0) (Some 21) (Some 96))
                       (fletcherChecksum
                          (frameBody 10 11 (1 + 0 * 2 ^ 8)
                             ([] ++ xfe :: [])))
                     :: o))).
Proof.
  assert (HrA : Plain.reachable noTable freshPlain)
    by (apply (Plain.reach_new noTable NoOptions); reflexivity).
  assert (HrB : Backtrack.reachable noTable freshBacktrack)
    by (apply (Backtrack.reach_new noTable NoOptions); reflexivity).
  assert (Hne : xff <> xfe) by discriminate.
  exact (X11_changed_payload_byte_is_reported noTable freshPlain freshBacktrack
           x0a x0b x01 x00 x15 x60 xff xfe [] [] validFrame
           HrA HrB eq_refl eq_refl eq_refl eq_refl eq_refl eq_refl Hne).
Defined.

(** X12.  [calcCheckSum] returns a value exactly when class and id are
    bytes, the length is a 16-bit number and the payload is not [null];
    the value is a 16-bit number; any payload will do, whatever the
    length says.  Out of these ranges it throws a [RangeError], on
    [null] within them a [TypeError]. *)
Theorem X12_checksum_is_a_16_bit_word (c i n : Z) (payload : option Buffer) :
  (isByte c /\ isByte i /\ 0 <= n <= 65535 ->
   match payload with
   | Some _ =>
       exists ck, calcCheckSum c i n payload = Ok ck /\ 0 <= ck <= 65535
   | None => calcCheckSum c i n payload = Fail TypeError
   end)
  /\ (~ (isByte c /\ isByte i /\ 0 <= n <= 65535) ->
      calcCheckSum c i n payload = Fail RangeError).
Proof.
  split.
  - intros [Hc [Hi Hn]]. destruct payload as [buf|].
    + rewrite calcCheckSum_fletcher by assumption.
      eexists. split; [reflexivity|apply fletcherChecksum_range].
    + unfold calcCheckSum.
      rewrite (writeUInt8_byte c Hc), (writeUInt8_byte i Hi),
        (writeUInt16LE_word n Hn). reflexivity.
  - intros Hout. unfold calcCheckSum, writeUInt8, writeUInt16LE, isByte in *.
    destruct ((0 <=? c) && (c <=? 255)) eqn:Ec; [|reflexivity].
    destruct ((0 <=? i) && (i <=? 255)) eqn:Ei; [|reflexivity].
    destruct ((0 <=? n) && (n <=? 65535)) eqn:En; [|reflexivity].
    apply andb_true_iff in Ec, Ei, En.
    rewrite !Z.leb_le in Ec, Ei, En. lia.
Qed.

Lemma X12_witness :
  (exists ck, calcCheckSum 10 11 1 (Some [xff]) = Ok ck /\ 0 <= ck <= 65535)
  /\ calcCheckSum 10 11 65536 None = Fail RangeError.
Proof.
  split.
  - assert (H : isByte 10 /\ isByte 11 /\ 0 <= 1 <= 65535)
      by (unfold isByte; lia).
    exact (proj1 (X12_checksum_is_a_16_bit_word 10 11 1 (Some [xff])) H).
  - assert (H : ~ (isByte 10 /\ isByte 11 /\ 0 <= 65536 <= 65535))
      by (unfold isByte; lia).
    exact (proj2 (X12_checksum_is_a_16_bit_word 10 11 65536 None) H).
Defined.
